(** * readwise-reader-mcp: request executor, pagination and handlers

    A shallow embedding of [src/readwise-client.ts] (class [ReadwiseClient])
    and [src/handlers/document-handlers.ts], with the properties of the
    request executor ([makeRequest]), the list orchestration
    ([listDocuments], [handleListDocuments]), the page aggregation loops and
    the bulk delete runner ([handleBulkDelete]).

    Conventions of the embedding.
    - A JavaScript number is an integer, [NaN] or an infinity ([jsnum]).
      A finite number stands for the double of that value: what the source
      computes from integers is rounded as a double rounds it
      ([to_double]), and [Math.pow(2, attempt)] is [Infinity] from 1024 on.
      The fractional numbers are outside the model: the numbers of the
      configuration are integers, and [Math.round(x / 1000)] is computed on
      integers.
    - A string is a sequence of 8-bit characters, which is what the value
      of an HTTP header is; [toLowerCase] is modelled on the ASCII letters.
    - A JavaScript object is an association list in insertion order
      ([obj]); query parameters and documents are objects of [JsVal].  The
      keys are names, never array indices, so the order of the entries is
      the order of insertion.
    - An [async] function that runs alone is a computation of the monad
      [M]: it reads the history of events so far, returns an outcome (a
      value, a thrown error, or fuel exhausted for the unbounded [do ...
      while] loops) and the events it emitted.  Where the source lets
      several calls overlap ([Promise.allSettled] in [handleBulkDelete]),
      a call is a [Task], cut at its [await]s, and the tasks of a batch
      are interleaved by a schedule.
    - The remote service is a function of the history and of the request
      ([serve]): the answer to a request is settled when the request is
      sent.  The service always answers, and a body can always be read: a
      [fetch] or a [response.text()] that rejects (no connection) is
      outside the model.
    - What the platform or a module outside these two files provides
      ([URLSearchParams], [Date], [JSON], [RegExp], the content converter)
      is a field of the record [Platform]. *)

From Stdlib Require Import ZArith List String Ascii Bool Lia DecimalString.
Import ListNotations.
Open Scope string_scope.
Open Scope Z_scope.

#[local] Set Warnings "-register-all".

(** ** Numbers *)

Inductive jsnum : Type :=
| Num (z : Z)
| NaN
| PosInfinity
| NegInfinity.

(** The double nearest to the integer [z], a tie going to the even
    mantissa: [z] itself below [2^53], and an infinity when the rounded
    value reaches [2^1024]. *)
Definition to_double (z : Z) : jsnum :=
  let a := Z.abs z in
  if a <? 2 ^ 53 then Num z
  else
    let e := Z.log2 a - 52 in
    let m := a / 2 ^ e in
    let rest := a mod 2 ^ e in
    let half := 2 ^ (e - 1) in
    let m' := if (half <? rest) || ((rest =? half) && Z.odd m) then m + 1 else m in
    let r := m' * 2 ^ e in
    if 2 ^ 1024 <=? r then (if z <? 0 then NegInfinity else PosInfinity)
    else Num (Z.sgn z * r).

(** [Math.min(a, b)] and [Math.max(a, b)]: [NaN] as soon as one argument is. *)
Definition Math_min (a b : jsnum) : jsnum :=
  match a with
  | NaN => NaN
  | Num x =>
      match b with
      | Num y => Num (Z.min x y)
      | NaN => NaN
      | PosInfinity => Num x
      | NegInfinity => NegInfinity
      end
  | PosInfinity => b
  | NegInfinity => match b with NaN => NaN | _ => NegInfinity end
  end.

Definition Math_max (a b : jsnum) : jsnum :=
  match a with
  | NaN => NaN
  | Num x =>
      match b with
      | Num y => Num (Z.max x y)
      | NaN => NaN
      | PosInfinity => PosInfinity
      | NegInfinity => Num x
      end
  | PosInfinity => match b with NaN => NaN | _ => PosInfinity end
  | NegInfinity => b
  end.

(** [-1], [0] or [1]; [0] for [NaN]. *)
Definition num_sign (a : jsnum) : Z :=
  match a with
  | Num z => Z.sgn z
  | NaN => 0
  | PosInfinity => 1
  | NegInfinity => -1
  end.

(** [a * b]: the product of two integers rounded as a double, and
    [0 * Infinity] is [NaN]. *)
Definition num_mul (a b : jsnum) : jsnum :=
  match a, b with
  | NaN, _ | _, NaN => NaN
  | Num x, Num y => to_double (x * y)
  | _, _ =>
      match num_sign a * num_sign b with
      | Z0 => NaN
      | Zpos _ => PosInfinity
      | Zneg _ => NegInfinity
      end
  end.

(** [Math.pow(2, n)] for an integer [n] that is not negative: a power of
    two is a double up to [2^1023]. *)
Definition Math_pow2 (n : Z) : jsnum :=
  if n <? 1024 then Num (2 ^ n) else PosInfinity.

(** [Math.round(a / 1000)]: nearest integer, a tie goes up. *)
Definition round_div_1000 (a : jsnum) : jsnum :=
  match a with
  | Num x => Num ((x + 500) / 1000)
  | other => other
  end.

(** [a > b] on numbers: false as soon as one side is [NaN]. *)
Definition num_gt (a b : jsnum) : bool :=
  match a, b with
  | NaN, _ | _, NaN => false
  | Num x, Num y => y <? x
  | PosInfinity, PosInfinity => false
  | PosInfinity, _ => true
  | _, NegInfinity => match a with NegInfinity => false | _ => true end
  | _, _ => false
  end.

Definition Z_to_string (z : Z) : string := NilZero.string_of_int (Z.to_int z).

(** [String(n)], also what a template literal does with a number: the
    decimal digits of an integer (the source turns to the exponent
    notation from [1e21] on, which the model does not). *)
Definition num_to_string (a : jsnum) : string :=
  match a with
  | Num z => Z_to_string z
  | NaN => "NaN"
  | PosInfinity => "Infinity"
  | NegInfinity => "-Infinity"
  end.

(** ** Strings *)

Definition LF : string := String "010"%char EmptyString.

(** A string is truthy when it is not empty. *)
Definition str_truthy (s : string) : bool :=
  match s with
  | EmptyString => false
  | String _ _ => true
  end.

(** [a || b] on strings. *)
Definition str_or (a b : string) : string := if str_truthy a then a else b.

(** The white space that [parseInt] skips, among the 8-bit characters:
    the space, the characters 9 to 13 and the no-break space. *)
Definition is_ws (c : ascii) : bool :=
  let n := nat_of_ascii c in
  (Nat.eqb n 32 || (Nat.leb 9 n && Nat.leb n 13) || Nat.eqb n 160)%bool.

Fixpoint skip_ws (s : string) : string :=
  match s with
  | String c r => if is_ws c then skip_ws r else s
  | EmptyString => s
  end.

Definition digit_of (c : ascii) : option Z :=
  let n := nat_of_ascii c in
  if (Nat.leb 48 n && Nat.leb n 57)%bool then Some (Z.of_nat (n - 48)) else None.

(** The longest prefix of decimal digits, read into [acc]; [None] while no
    digit has been seen. *)
Fixpoint read_digits (s : string) (acc : option Z) : option Z :=
  match s with
  | String c r =>
      match digit_of c with
      | Some d =>
          read_digits r (Some (10 * match acc with Some a => a | None => 0 end + d))
      | None => acc
      end
  | EmptyString => acc
  end.

(** [parseInt(s, 10)]: leading white space, an optional sign, then the
    longest run of digits, read as an integer and rounded to a double;
    [NaN] when there is no digit. *)
Definition parseInt (s : string) : jsnum :=
  match skip_ws s with
  | String "-"%char r =>
      match read_digits r None with Some n => to_double (- n) | None => NaN end
  | String "+"%char r =>
      match read_digits r None with Some n => to_double n | None => NaN end
  | r =>
      match read_digits r None with Some n => to_double n | None => NaN end
  end.

(** ** Values and objects *)

Inductive JsVal : Type :=
| VUndef
| VNull
| VBool (b : bool)
| VNum (n : jsnum)
| VStr (s : string)
| VArr (l : list JsVal)
| VObj (o : list (string * JsVal)).

Definition truthy (v : JsVal) : bool :=
  match v with
  | VUndef | VNull => false
  | VBool b => b
  | VNum (Num z) => negb (z =? 0)
  | VNum NaN => false
  | VNum _ => true
  | VStr s => str_truthy s
  | VArr _ | VObj _ => true
  end.

(** [v === true]. *)
Definition is_true (v : JsVal) : bool :=
  match v with
  | VBool true => true
  | _ => false
  end.

(** [v !== undefined]. *)
Definition defined (v : JsVal) : bool :=
  match v with
  | VUndef => false
  | _ => true
  end.

(** [String(v)]; an array is its elements joined by commas, with an empty
    string for [null] and [undefined]. *)
Fixpoint js_String (v : JsVal) : string :=
  match v with
  | VUndef => "undefined"
  | VNull => "null"
  | VBool true => "true"
  | VBool false => "false"
  | VNum n => num_to_string n
  | VStr s => s
  | VArr l =>
      String.concat ","
        (map (fun x => match x with
                       | VUndef | VNull => EmptyString
                       | _ => js_String x
                       end) l)
  | VObj _ => "[object Object]"
  end.

(** [l.join(sep)]. *)
Definition js_join (sep : string) (l : list JsVal) : string :=
  String.concat sep
    (map (fun x => match x with
                   | VUndef | VNull => EmptyString
                   | _ => js_String x
                   end) l).

(** [v || ''] read as a string, for the fields that are strings when
    they are present. *)
Definition str_field (v : JsVal) : string :=
  if truthy v then js_String v else EmptyString.

Definition obj (V : Type) : Type := list (string * V).

Fixpoint obj_has {V} (k : string) (o : obj V) : bool :=
  match o with
  | [] => false
  | (k', _) :: r => if String.eqb k k' then true else obj_has k r
  end.

Fixpoint obj_lookup {V} (k : string) (o : obj V) : option V :=
  match o with
  | [] => None
  | (k', v) :: r => if String.eqb k k' then Some v else obj_lookup k r
  end.

(** [o.k]: [undefined] for an absent key. *)
Definition obj_get (k : string) (o : obj JsVal) : JsVal :=
  match obj_lookup k o with
  | Some v => v
  | None => VUndef
  end.

Fixpoint obj_replace {V} (k : string) (v : V) (o : obj V) : obj V :=
  match o with
  | [] => []
  | (k', v') :: r =>
      if String.eqb k k' then (k', v) :: r else (k', v') :: obj_replace k v r
  end.

(** [o.k = v]: an existing key keeps its place, a new key goes last. *)
Definition obj_set {V} (k : string) (v : V) (o : obj V) : obj V :=
  if obj_has k o then obj_replace k v o else (o ++ [(k, v)])%list.

(** [delete o.k]. *)
Fixpoint obj_delete {V} (k : string) (o : obj V) : obj V :=
  match o with
  | [] => []
  | (k', v') :: r =>
      if String.eqb k k' then obj_delete k r else (k', v') :: obj_delete k r
  end.

(** [{...a, ...b}]. *)
Definition obj_spread {V} (a b : obj V) : obj V :=
  fold_left (fun acc kv => obj_set (fst kv) (snd kv) acc) b a.

(** ** HTTP *)

(** The [RequestInit] the client passes to [makeRequest]. *)
Record RequestInit : Type := {
  init_method : option string;
  init_headers : obj string;
  init_body : option string
}.

Definition no_options : RequestInit :=
  {| init_method := None; init_headers := []; init_body := None |}.

Record Request : Type := {
  req_url : string;
  req_method : option string;
  req_headers : obj string;
  req_body : option string
}.

Record Response : Type := {
  status : Z;
  statusText : string;
  headers : list (string * string);
  body : string
}.

(** [response.ok]: the status is in the range 200-299. *)
Definition ok (r : Response) : bool := (200 <=? status r) && (status r <=? 299).

Definition lower_ascii (c : ascii) : ascii :=
  let n := nat_of_ascii c in
  if (Nat.leb 65 n && Nat.leb n 90)%bool then ascii_of_nat (n + 32) else c.

Fixpoint lower (s : string) : string :=
  match s with
  | EmptyString => EmptyString
  | String c r => String (lower_ascii c) (lower r)
  end.

(** The white space that a [Headers] object strips from both ends of a
    value: the space, the tab, the line feed and the carriage return. *)
Definition is_http_ws (c : ascii) : bool :=
  let n := nat_of_ascii c in
  (Nat.eqb n 32 || Nat.eqb n 9 || Nat.eqb n 10 || Nat.eqb n 13)%bool.

Fixpoint strip_left (s : string) : string :=
  match s with
  | String c r => if is_http_ws c then strip_left r else s
  | EmptyString => s
  end.

Fixpoint strip_right (s : string) : string :=
  match s with
  | String c r =>
      match strip_right r with
      | EmptyString => if is_http_ws c then EmptyString else String c EmptyString
      | r' => String c r'
      end
  | EmptyString => s
  end.

Definition normalize_value (s : string) : string := strip_right (strip_left s).

(** [response.headers.get(name)]: the name is matched without case, a
    value has no white space at its ends, the values of a repeated header
    are joined by a comma and a space, and the result is [null] ([None])
    when the header is absent. *)
Definition headers_get (name : string) (r : Response) : option string :=
  match filter (fun kv => String.eqb (lower (fst kv)) (lower name)) (headers r) with
  | [] => None
  | l => Some (String.concat ", " (map (fun kv => normalize_value (snd kv)) l))
  end.

(** ** Events, outcomes and the monad of [async] functions *)

Inductive JsError : Type :=
| Error (message : string).

Definition message (e : JsError) : string :=
  match e with Error m => m end.

Inductive Event : Type :=
| EFetch (req : Request) (resp : Response)   (* [await fetch(url, init)] and its answer *)
| EWarn (msg : string)                       (* [console.warn(msg)] *)
| ESleep (ms : jsnum)                        (* [await this.sleep(ms)] *)
| EJson (resp : Response)                    (* [response.json()] *)
| EText (resp : Response)                    (* [response.text()] *)
| EConvert (url : JsVal) (category : JsVal)  (* [convertUrlToText(url, category)] *).

Inductive Outcome (A : Type) : Type :=
| Ok (a : A)
| Throw (e : JsError)
| OutOfFuel.

Arguments Ok {A} a.
Arguments Throw {A} e.
Arguments OutOfFuel {A}.

Definition M (A : Type) : Type := list Event -> Outcome A * list Event.

Definition ret {A} (a : A) : M A := fun _ => (Ok a, []).

Definition throw {A} (e : JsError) : M A := fun _ => (Throw e, []).

Definition out_of_fuel {A} : M A := fun _ => (OutOfFuel, []).

Definition emit (e : Event) : M unit := fun _ => (Ok tt, [e]).

Definition bind {A B} (m : M A) (f : A -> M B) : M B :=
  fun h =>
    match m h with
    | (Ok a, t1) => let (r, t2) := f a (h ++ t1)%list in (r, (t1 ++ t2)%list)
    | (Throw e, t1) => (Throw e, t1)
    | (OutOfFuel, t1) => (OutOfFuel, t1)
    end.

Notation "x <- m ;; k" := (bind m (fun x => k))
  (at level 61, m at next level, right associativity).
Notation "m ;;; k" := (bind m (fun _ => k))
  (at level 61, right associativity).

(** [try { await m } catch (e) { ... }], as [Promise.allSettled] sees one
    promise: the outcome becomes a value. *)
Definition settle {A} (m : M A) : M (JsError + A) :=
  fun h =>
    match m h with
    | (Ok a, t) => (Ok (inr a), t)
    | (Throw e, t) => (Ok (inl e), t)
    | (OutOfFuel, t) => (OutOfFuel, t)
    end.

Fixpoint mapM {A B} (f : A -> M B) (l : list A) : M (list B) :=
  match l with
  | [] => ret []
  | x :: r => y <- f x ;; ys <- mapM f r ;; ret (y :: ys)
  end.

(** The callbacks of [l.map(f)], each run to its outcome before the next
    starts. *)
Definition settle_in_turn {A B} (f : A -> M B) (l : list A)
  : M (list (JsError + B)) :=
  mapM (fun x => settle (f x)) l.

(** The values when every promise is fulfilled, the reason of the first
    rejected one (in the order of the list) otherwise. *)
Fixpoint all_fulfilled {B} (l : list (JsError + B)) : JsError + list B :=
  match l with
  | [] => inr []
  | inl e :: _ => inl e
  | inr b :: r =>
      match all_fulfilled r with
      | inl e => inl e
      | inr bs => inr (b :: bs)
      end
  end.

(** [await Promise.all(l.map(f))] for callbacks that [await] once, on a
    call whose result is settled when the call is made (the converter, in
    [handleListDocuments]): every callback is started, in the order of the
    list, and the whole is rejected when one of them is.  The events and
    the values are those of the overlapping callbacks; when several
    callbacks fail, the source rejects with the failure that comes first
    in time, and the model with the first in the order of the list. *)
Definition Promise_all {A B} (f : A -> M B) (l : list A) : M (list B) :=
  settled <- settle_in_turn f l ;;
  match all_fulfilled settled with
  | inl e => throw e
  | inr bs => ret bs
  end.

(** ** Calls that overlap *)

(** An [async] call cut at its [await]s.  A suspended call waits; when it
    is resumed it reads the history, emits the events of its next stretch
    ([emits]) and is suspended again or settled ([next]).  A call that has
    not started yet is a suspended call whose first stretch runs when it
    is called. *)
Inductive Task (A : Type) : Type :=
| Settled (r : JsError + A)
| Suspended (emits : list Event -> list Event) (next : list Event -> Task A).

Arguments Settled {A} r.
Arguments Suspended {A} emits next.

(** The task whose next stretch is [k]. *)
Definition stretch {A} (k : list Event -> list Event * Task A) : Task A :=
  Suspended (fun h => fst (k h)) (fun h => snd (k h)).

(** [t.then(f)]. *)
Fixpoint then_ {A B} (f : A -> B) (t : Task A) : Task B :=
  match t with
  | Settled (inr a) => Settled (inr (f a))
  | Settled (inl e) => Settled (inl e)
  | Suspended emits next => Suspended emits (fun h => then_ f (next h))
  end.

(** A call that nothing overlaps: it is resumed as soon as it waits. *)
Fixpoint run_alone {A} (t : Task A) (h : list Event) : (JsError + A) * list Event :=
  match t with
  | Settled r => (r, [])
  | Suspended emits next =>
      let ev := emits h in
      let (r, ev') := run_alone (next h) (h ++ ev)%list in
      (r, (ev ++ ev')%list)
  end.

(** One more stretch of a call. *)
Definition resume {A} (t : Task A) (h : list Event) : Task A * list Event :=
  match t with
  | Settled r => (t, [])
  | Suspended emits next => (next h, emits h)
  end.

(** [l.map(f)] for an [async] callback [f]: the calls are started one
    after the other, each running up to its first [await]. *)
Fixpoint start_all {A} (ts : list (Task A)) (h : list Event)
  : list (Task A) * list Event :=
  match ts with
  | [] => ([], [])
  | t :: r =>
      let (t', ev) := resume t h in
      let (r', ev') := start_all r (h ++ ev)%list in
      (t' :: r', (ev ++ ev')%list)
  end.

(** The positions, from [i] on, of the calls that are suspended. *)
Fixpoint suspended_from {A} (i : nat) (ts : list (Task A)) : list nat :=
  match ts with
  | [] => []
  | Settled _ :: r => suspended_from (S i) r
  | Suspended _ _ :: r => i :: suspended_from (S i) r
  end.

(** One more stretch of the call at the position [i]. *)
Fixpoint resume_at {A} (i : nat) (ts : list (Task A)) (h : list Event)
  : list (Task A) * list Event :=
  match ts, i with
  | [], _ => ([], [])
  | t :: r, O => let (t', ev) := resume t h in (t' :: r, ev)
  | t :: r, S i' => let (r', ev) := resume_at i' r h in (t :: r', ev)
  end.

(** The calls go on in the order that the event loop gives them, which
    the source does not decide: a schedule is the list of its choices, the
    choice [c] among [n] suspended calls being the one of rank [c mod n].
    The result is the calls when the schedule ends or when all are
    settled, the events emitted, and what is left of the schedule. *)
Fixpoint interleave {A} (sched : list nat) (ts : list (Task A)) (h : list Event)
  : list (Task A) * list Event * list nat :=
  match sched with
  | [] => (ts, [], [])
  | c :: rest =>
      match suspended_from 0 ts with
      | [] => (ts, [], sched)
      | i0 :: others =>
          let i := nth (c mod List.length (i0 :: others)) (i0 :: others) i0 in
          let (ts', ev) := resume_at i ts h in
          let '(ts'', ev', rest') := interleave rest ts' (h ++ ev)%list in
          (ts'', (ev ++ ev')%list, rest')
      end
  end.

(** The calls that are left when the schedule ends, each run to its
    outcome in the order of the list. *)
Fixpoint finish_in_turn {A} (ts : list (Task A)) (h : list Event)
  : list (JsError + A) * list Event :=
  match ts with
  | [] => ([], [])
  | t :: r =>
      let (x, ev) := run_alone t h in
      let (xs, ev') := finish_in_turn r (h ++ ev)%list in
      (x :: xs, (ev ++ ev')%list)
  end.

(** [await Promise.allSettled(calls)] for calls that overlap: all are
    started, then they go on as the schedule says until every one is
    settled.  The result is the outcomes in the order of the calls, the
    events, and what is left of the schedule. *)
Definition Promise_allSettled {A} (sched : list nat) (calls : list (Task A))
    (h : list Event) : list (JsError + A) * list Event * list nat :=
  let (started, ev0) := start_all calls h in
  let '(ts, ev1, rest) := interleave sched started (h ++ ev0)%list in
  let (outcomes, ev2) := finish_in_turn ts ((h ++ ev0) ++ ev1)%list in
  (outcomes, (ev0 ++ ev1 ++ ev2)%list, rest).

(** The answers and the requests of the fetches of a trace, in order. *)
Definition responses (t : list Event) : list Response :=
  flat_map (fun e => match e with EFetch _ r => [r] | _ => [] end) t.

Definition requests (t : list Event) : list Request :=
  flat_map (fun e => match e with EFetch q _ => [q] | _ => [] end) t.

(** ** Types of [types.ts] used by the two files *)

Definition Doc : Type := obj JsVal.

Definition Params : Type := obj JsVal.

Record ListDocumentsResponse : Type := {
  count : Z;
  nextPageCursor : option string;
  results : list Doc
}.

Inductive MessageType : Type := info | error.

Record APIMessage : Type := {
  type : MessageType;
  content : string
}.

Record APIResponse (T : Type) : Type := {
  data : T;
  messages : option (list APIMessage)
}.

Arguments data {T} _.
Arguments messages {T} _.

(** [msg.type.toUpperCase()]. *)
Definition type_upper (t : MessageType) : string :=
  match t with info => "INFO" | error => "ERROR" end.

(** ** What the platform and the other modules provide *)

Record Platform : Type := {
  (** the remote service: its answer to a request, given all that happened *)
  serve : list Event -> Request -> Response;
  (** [response.json()] read as a [ListDocumentsResponse], or the error it
      rejects with *)
  json_list : string -> JsError + ListDocumentsResponse;
  (** [response.json()] for the other payloads *)
  json_any : string -> JsError + JsVal;
  (** [new URLSearchParams()] filled with [append], then [toString()] *)
  URLSearchParams_toString : list (string * string) -> string;
  (** the time value of [new Date(v)], [NaN] for an invalid date *)
  Date_value : JsVal -> jsnum;
  (** [utils/content-converter.js] *)
  convertUrlToText : list Event -> JsVal -> JsVal -> JsError + string;
  extractTextFromHtml : JsVal -> string;
  (** [JSON.stringify({count, nextPageCursor, documents}, null, 2)] *)
  JSON_stringify_list : Z -> option string -> list Doc -> string;
  (** [new RegExp(term.replace(/[.*+?^${}()|[\]\\]/g, '\\$&'), 'i').test(text)] *)
  term_test : string -> string -> bool
}.

(** ** [readwise-client.ts] *)

Record RetryConfig : Type := {
  maxRetries : Z;
  baseDelayMs : Z;
  maxDelayMs : Z
}.

Definition DEFAULT_RETRY_CONFIG : RetryConfig :=
  {| maxRetries := 3; baseDelayMs := 1000; maxDelayMs := 60000 |}.

(** [Partial<RetryConfig>]: a field is absent or is a number (a field
    that is present with the value [undefined], which the spread of the
    constructor would copy over the default, is outside the model). *)
Record PartialRetryConfig : Type := {
  p_maxRetries : option Z;
  p_baseDelayMs : option Z;
  p_maxDelayMs : option Z
}.

Record ReadwiseClient : Type := {
  token : string;
  retryConfig : RetryConfig
}.

Definition or_default {A} (o : option A) (d : A) : A :=
  match o with Some a => a | None => d end.

(** The constructor: [{ ...DEFAULT_RETRY_CONFIG, ...config.retry }]. *)
Definition new_ReadwiseClient (tok : string) (retry : option PartialRetryConfig)
  : ReadwiseClient :=
  {| token := tok;
     retryConfig :=
       match retry with
       | None => DEFAULT_RETRY_CONFIG
       | Some r =>
           {| maxRetries := or_default (p_maxRetries r) (maxRetries DEFAULT_RETRY_CONFIG);
              baseDelayMs := or_default (p_baseDelayMs r) (baseDelayMs DEFAULT_RETRY_CONFIG);
              maxDelayMs := or_default (p_maxDelayMs r) (maxDelayMs DEFAULT_RETRY_CONFIG) |}
       end |}.

Definition baseUrl : string := "https://readwise.io/api/v3".
Definition authUrl : string := "https://readwise.io/api/v2/auth/".

(** A cursor ([string | undefined]) is truthy when it is a non-empty string. *)
Definition cursor_truthy (c : option string) : bool :=
  match c with
  | Some s => str_truthy s
  | None => false
  end.

Definition createResponse {T} (d : T) (msgs : option (list APIMessage)) : APIResponse T :=
  {| data := d; messages := msgs |}.

Definition createInfoMessage (c : string) : APIMessage :=
  {| type := info; content := c |}.

Definition createErrorMessage (c : string) : APIMessage :=
  {| type := error; content := c |}.

Module Client.
Section WithClient.

Variable P : Platform.
Variable this : ReadwiseClient.

(** *** [makeRequest] *)

Definition request_url (endpoint : string) : string :=
  if String.prefix "http" endpoint then endpoint else baseUrl ++ endpoint.

Definition request_of (endpoint : string) (options : RequestInit) : Request :=
  {| req_url := request_url endpoint;
     req_method := init_method options;
     req_headers :=
       obj_spread
         [("Authorization", "Token " ++ token this);
          ("Content-Type", "application/json")]
         (init_headers options);
     req_body := init_body options |}.

Definition fetch (q : Request) : M Response :=
  fun h => let r := serve P h q in (Ok r, [EFetch q r]).

Definition warn (msg : string) : M unit := emit (EWarn msg).

Definition sleep (ms : jsnum) : M unit := emit (ESleep ms).

Definition response_text (r : Response) : M string :=
  emit (EText r) ;;; ret (body r).

Definition response_json {T} (decode : string -> JsError + T) (r : Response) : M T :=
  emit (EJson r) ;;;
  match decode (body r) with
  | inr v => ret v
  | inl e => throw e
  end.

(** [retryAfter ? parseInt(retryAfter, 10) : 60]. *)
Definition retryAfterSeconds (r : Response) : jsnum :=
  match headers_get "Retry-After" r with
  | Some retryAfter => if str_truthy retryAfter then parseInt retryAfter else Num 60
  | None => Num 60
  end.

Definition exponentialDelay (attempt : Z) : jsnum :=
  Math_min (num_mul (Num (baseDelayMs (retryConfig this))) (Math_pow2 attempt))
           (Num (maxDelayMs (retryConfig this))).

Definition delayMs (seconds : jsnum) : jsnum :=
  Math_min (num_mul seconds (Num 1000)) (Num (maxDelayMs (retryConfig this))).

Definition actualDelay (attempt : Z) (seconds : jsnum) : jsnum :=
  Math_max (delayMs seconds) (exponentialDelay attempt).

Definition retry_warning (attempt : Z) (seconds : jsnum) : string :=
  "Rate limited. Retrying in "
    ++ num_to_string (round_div_1000 (actualDelay attempt seconds))
    ++ "s (attempt " ++ Z_to_string (attempt + 1) ++ "/"
    ++ Z_to_string (maxRetries (retryConfig this)) ++ ")...".

Definition rate_limit_error (seconds : jsnum) : JsError :=
  Error ("Rate limit exceeded after " ++ Z_to_string (maxRetries (retryConfig this))
           ++ " retries. " ++ "Please wait " ++ num_to_string seconds
           ++ " seconds before trying again.").

Definition api_error (r : Response) (errorText : string) : JsError :=
  Error ("Readwise API error: " ++ Z_to_string (status r) ++ " " ++ statusText r
           ++ " - " ++ errorText).

(** [throw lastError || new Error('Request failed')], after the loop. *)
Definition throw_last {T} (lastError : option JsError) : M T :=
  throw (or_default lastError (Error "Request failed")).

(** The [for] loop of [makeRequest].  [n] is the number of values of
    [attempt] still to run, [attempt], [attempt + 1], ..., [maxRetries]:
    the body never assigns [attempt], so the test [attempt <= maxRetries]
    holds exactly while [n] is not zero (see [trip_count]).  The result is
    [None] for [undefined]. *)
Fixpoint attempt_loop {T} (decode : string -> JsError + T) (q : Request)
    (n : nat) (attempt : Z) (lastError : option JsError) : M (option T) :=
  match n with
  | O => throw_last lastError
  | S n' =>
      response <- fetch q ;;
      if ok response then
        if status response =? 204 then ret None
        else v <- response_json decode response ;; ret (Some v)
      else if status response =? 429 then
        let seconds := retryAfterSeconds response in
        if attempt <? maxRetries (retryConfig this) then
          warn (retry_warning attempt seconds) ;;;
          sleep (actualDelay attempt seconds) ;;;
          attempt_loop decode q n' (attempt + 1) lastError
        else
          attempt_loop decode q n' (attempt + 1) (Some (rate_limit_error seconds))
      else
        errorText <- response_text response ;;
        throw_last (Some (api_error response errorText))
  end.

Definition trips (attempt : Z) : nat :=
  Z.to_nat (maxRetries (retryConfig this) + 1 - attempt).

Definition makeRequest {T} (decode : string -> JsError + T)
    (endpoint : string) (options : RequestInit) : M (option T) :=
  attempt_loop decode (request_of endpoint options) (trips 0) 0 None.

(** [makeRequest] as a call that other calls can overlap: the same loop,
    cut where it waits for an answer, for the timer, or for the body.
    [attempt_task n attempt lastError] is the stretch that starts at the
    test of the loop. *)
Fixpoint attempt_task {T} (decode : string -> JsError + T) (q : Request)
    (n : nat) (attempt : Z) (lastError : option JsError) (h : list Event)
  : list Event * Task (option T) :=
  match n with
  | O => ([], Settled (inl (or_default lastError (Error "Request failed"))))
  | S n' =>
      let response := serve P h q in
      ([EFetch q response],
       stretch (fun h' =>
         if ok response then
           if status response =? 204 then ([], Settled (inr None))
           else
             ([EJson response],
              stretch (fun _ =>
                ([], Settled match decode (body response) with
                             | inr v => inr (Some v)
                             | inl e => inl e
                             end)))
         else if status response =? 429 then
           let seconds := retryAfterSeconds response in
           if attempt <? maxRetries (retryConfig this) then
             ([EWarn (retry_warning attempt seconds);
               ESleep (actualDelay attempt seconds)],
              stretch (attempt_task decode q n' (attempt + 1) lastError))
           else
             attempt_task decode q n' (attempt + 1)
               (Some (rate_limit_error seconds)) h'
         else
           ([EText response],
            stretch (fun _ =>
              ([], Settled (inl (api_error response (body response))))))))
  end.

Definition makeRequest_task {T} (decode : string -> JsError + T)
    (endpoint : string) (options : RequestInit) : Task (option T) :=
  stretch (attempt_task decode (request_of endpoint options) (trips 0) 0 None).

(** *** [listDocuments] *)

(** The pairs appended to a [URLSearchParams]: one per entry of the
    object whose value is not [undefined], in the order of the entries. *)
Definition query_entries (o : Params) : list (string * string) :=
  flat_map
    (fun kv => if defined (snd kv) then [(fst kv, js_String (snd kv))] else [])
    o.

Definition list_endpoint (o : Params) : string :=
  let query := URLSearchParams_toString P (query_entries o) in
  "/list/" ++ (if str_truthy query then "?" ++ query else EmptyString).

Definition countParams (params : Params) : Params :=
  obj_delete "withHtmlContent" (obj_delete "withFullContent" params).

Definition limitedParams (params : Params) : Params :=
  obj_set "limit" (VNum (Num 5)) params.

Definition limited_info (c : Z) : APIMessage :=
  createInfoMessage
    ("Found " ++ Z_to_string c
       ++ " documents, but only returning the first 5 due to full content request. "
       ++ "To get the remaining " ++ Z_to_string (c - 5)
       ++ " documents with full content, "
       ++ "you can fetch them individually by their IDs using the update/read document API.").

Definition limited_error (c : Z) : APIMessage :=
  createErrorMessage
    ("Found " ++ Z_to_string c
       ++ " documents, but only returning the first 5 due to full content request. "
       ++ "Getting full content for more than 20 documents is not supported due to performance limitations.").

Definition type_error (what : string) : JsError :=
  Error ("Cannot read properties of undefined (reading '" ++ what ++ "')").

Definition plain_list (params : Params)
  : M (APIResponse (option ListDocumentsResponse)) :=
  result <- makeRequest (json_list P) (list_endpoint params) no_options ;;
  ret (createResponse result None).

Definition listDocuments (params : Params)
  : M (APIResponse (option ListDocumentsResponse)) :=
  if truthy (obj_get "withFullContent" params) then
    countResponse <-
      makeRequest (json_list P) (list_endpoint (countParams params)) no_options ;;
    match countResponse with
    | None => throw (type_error "count")
    | Some cr =>
        if count cr >? 5 then
          result <-
            makeRequest (json_list P) (list_endpoint (limitedParams params)) no_options ;;
          let message :=
            if count cr <=? 20 then limited_info (count cr)
            else limited_error (count cr) in
          ret (createResponse result (Some [message]))
        else plain_list params
    end
  else plain_list params.

(** *** [deleteDocument] *)

Definition deleteDocument (id : string) : M (APIResponse unit) :=
  makeRequest (json_any P) ("/delete/" ++ id ++ "/")
    {| init_method := Some "DELETE"; init_headers := []; init_body := None |} ;;;
  ret (createResponse tt None).

(** [deleteDocument] as a call that other calls can overlap. *)
Definition deleteDocument_task (id : string) : Task (APIResponse unit) :=
  then_ (fun _ => createResponse tt None)
    (makeRequest_task (json_any P) ("/delete/" ++ id ++ "/")
       {| init_method := Some "DELETE"; init_headers := []; init_body := None |}).

(** *** The page loops *)

(** The object passed to [listDocuments] for one page: the base
    parameters, with [pageCursor] set when the cursor is truthy. *)
Definition page_params (base : Params) (cursor : option string) : Params :=
  match cursor with
  | Some c => if str_truthy c then obj_set "pageCursor" (VStr c) base else base
  | None => base
  end.

(** The [do { ... } while (nextPageCursor)] loop of
    [searchDocumentsByTopic], and of [handleListDocuments] where [base] is
    [apiParams]: [all] is [allDocuments], [cursor] is [nextPageCursor].
    The source has no bound on the number of pages; [fuel] is one here. *)
Fixpoint collect_pages (fuel : nat) (base : Params) (all : list Doc)
    (cursor : option string) : M (list Doc) :=
  match fuel with
  | O => out_of_fuel
  | S fuel' =>
      response <- listDocuments (page_params base cursor) ;;
      match data response with
      | None => throw (type_error "results")
      | Some d =>
          let all' := (all ++ results d)%list in
          if cursor_truthy (nextPageCursor d)
          then collect_pages fuel' base all' (nextPageCursor d)
          else ret all'
      end
  end.

(** *** [searchDocumentsByTopic] *)

Definition search_params : Params :=
  [("withFullContent", VBool false); ("withHtmlContent", VBool false)].

Definition searchableText (doc : Doc) : string :=
  lower
    (String.concat " "
       [str_field (obj_get "title" doc);
        str_field (obj_get "summary" doc);
        str_field (obj_get "notes" doc);
        match obj_get "tags" doc with
        | VArr tags => js_join " " tags
        | _ => EmptyString
        end]).

Definition searchDocumentsByTopic (fuel : nat) (searchTerms : list string)
  : M (APIResponse (list Doc)) :=
  allDocuments <- collect_pages fuel search_params [] None ;;
  let matchingDocuments :=
    filter
      (fun doc => existsb (fun term => term_test P term (searchableText doc)) searchTerms)
      allDocuments in
  ret (createResponse matchingDocuments None).

End WithClient.
End Client.

(** ** [handlers/document-handlers.ts] *)

(** What [handleListDocuments] has in hand when it builds [responseText]. *)
Record ListOutput : Type := {
  out_count : Z;
  out_nextPageCursor : option string;
  out_documents : list Doc;
  out_messages : list APIMessage
}.

(** One entry of [results] in [handleBulkDelete]. *)
Record DeleteResult : Type := {
  id : string;
  success : bool;
  error_message : option string
}.

(** [msgs.map(msg => `${msg.type.toUpperCase()}: ${msg.content}`).join('\n')]. *)
Definition message_lines (msgs : list APIMessage) : string :=
  String.concat LF (map (fun msg => type_upper (type msg) ++ ": " ++ content msg) msgs).

Module Handlers.
Section WithClient.

Variable P : Platform.

(** The client that [initializeClient()] returns. *)
Variable client : ReadwiseClient.

(** *** [handleListDocuments] *)

(** [if (params.withFullContent === true) params.withHtmlContent = true]. *)
Definition with_html_forced (params : Params) : Params :=
  if is_true (obj_get "withFullContent" params)
  then obj_set "withHtmlContent" (VBool true) params
  else params.

(** The callback of the two [filter] calls. *)
Definition saved_after (addedAfterDate : jsnum) (doc : Doc) : bool :=
  if negb (truthy (obj_get "saved_at" doc)) then false
  else num_gt (Date_value P (obj_get "saved_at" doc)) addedAfterDate.

Definition apiParams (params : Params) : Params := obj_delete "addedAfter" params.

(** [response], with [clientSideFiltered].  The envelope's [data] is
    never [undefined] on the first path. *)
Definition fetch_response (fuel : nat) (params : Params)
  : M (APIResponse (option ListDocumentsResponse) * bool) :=
  if truthy (obj_get "addedAfter" params) then
    let addedAfterDate := Date_value P (obj_get "addedAfter" params) in
    let api := apiParams params in
    if negb (truthy (obj_get "pageCursor" api)) && negb (truthy (obj_get "limit" api)) then
      allDocuments <- Client.collect_pages P client fuel api [] None ;;
      let filteredDocuments := filter (saved_after addedAfterDate) allDocuments in
      ret ({| data := Some {| count := Z.of_nat (List.length filteredDocuments);
                              nextPageCursor := None;
                              results := filteredDocuments |};
              messages := Some [] |}, true)
    else
      response <- Client.listDocuments P client api ;;
      match data response with
      | None => throw (Client.type_error "results")
      | Some d =>
          let filteredDocuments := filter (saved_after addedAfterDate) (results d) in
          ret ({| data := Some {| count := Z.of_nat (List.length filteredDocuments);
                                  nextPageCursor := nextPageCursor d;
                                  results := filteredDocuments |};
                  messages := messages response |}, true)
      end
  else
    response <- Client.listDocuments P client params ;;
    ret (response, false).

(** [await convertUrlToText(url, category)]. *)
Definition convert (url category : JsVal) : M string :=
  fun h =>
    match convertUrlToText P h url category with
    | inr text => (Ok text, [EConvert url category])
    | inl e => (Throw e, [EConvert url category])
    end.

(** [doc.source_url || doc.url]. *)
Definition urlToConvert (doc : Doc) : JsVal :=
  if truthy (obj_get "source_url" doc) then obj_get "source_url" doc
  else obj_get "url" doc.

(** [if (urlToConvert) content = await convertUrlToText(...)], with
    [content] still [''] otherwise. *)
Definition convert_url (doc : Doc) : M string :=
  if truthy (urlToConvert doc)
  then convert (urlToConvert doc) (obj_get "category" doc)
  else ret EmptyString.

Definition shouldUseJina (doc : Doc) : bool :=
  negb (truthy (obj_get "category" doc))
  || match obj_get "category" doc with
     | VStr c => String.eqb c "article" || String.eqb c "pdf"
     | _ => false
     end.

(** The value of [content] for one document. *)
Definition hydrate (shouldIncludeContent : bool) (doc : Doc) : M string :=
  if shouldIncludeContent then
    if truthy (obj_get "html_content" doc) then
      if shouldUseJina doc then convert_url doc
      else ret (extractTextFromHtml P (obj_get "html_content" doc))
    else convert_url doc
  else ret EmptyString.

Definition result_keys : list string :=
  ["id"; "url"; "title"; "author"; "source"; "category"; "location"; "tags";
   "site_name"; "word_count"; "created_at"; "updated_at"; "published_date";
   "summary"; "image_url"; "source_url"; "notes"; "parent_id";
   "reading_progress"; "first_opened_at"; "last_opened_at"; "saved_at";
   "last_moved_at"].

(** The object [result] built for one document. *)
Definition result_of (params : Params) (shouldIncludeContent : bool)
    (doc : Doc) (content_text : string) : Doc :=
  let result := map (fun k => (k, obj_get k doc)) result_keys in
  let result :=
    if shouldIncludeContent then obj_set "content" (VStr content_text) result
    else result in
  if truthy (obj_get "withHtmlContent" params) && truthy (obj_get "html_content" doc)
  then obj_set "html_content" (obj_get "html_content" doc) result
  else result.

(** The callback of [response.data.results.map]. *)
Definition document_with_text (params : Params) (doc : Doc) : M Doc :=
  let shouldIncludeContent := is_true (obj_get "withFullContent" params) in
  content_text <- hydrate shouldIncludeContent doc ;;
  ret (result_of params shouldIncludeContent doc content_text).

Definition filter_notice : APIMessage :=
  {| type := info;
     content := "Documents were filtered client-side based on the addedAfter date. All documents were fetched from the API first, then filtered by their saved_at date." |}.

(** [handleListDocuments] up to the point where the text is built. *)
Definition list_output (fuel : nat) (args : Params) : M ListOutput :=
  let params := with_html_forced args in
  rc <- fetch_response fuel params ;;
  let (response, clientSideFiltered) := rc in
  match data response with
  | None => throw (Client.type_error "results")
  | Some d =>
      documentsWithText <- Promise_all (document_with_text params) (results d) ;;
      let allMessages := or_default (messages response) [] in
      let allMessages :=
        if clientSideFiltered then (allMessages ++ [filter_notice])%list
        else allMessages in
      ret {| out_count := count d;
             out_nextPageCursor := nextPageCursor d;
             out_documents := documentsWithText;
             out_messages := allMessages |}
  end.

Definition messages_suffix (msgs : list APIMessage) : string :=
  if (0 <? List.length msgs)%nat
  then LF ++ LF ++ "Messages:" ++ LF ++ message_lines msgs
  else EmptyString.

Definition list_text (o : ListOutput) : string :=
  JSON_stringify_list P (out_count o) (out_nextPageCursor o) (out_documents o)
    ++ messages_suffix (out_messages o).

(** The text of the one [content] item returned. *)
Definition handleListDocuments (fuel : nat) (args : Params) : M string :=
  o <- list_output fuel args ;;
  ret (list_text o).

(** *** [handleBulkDelete] *)

Definition CONCURRENCY_LIMIT : nat := 5.

(** [ids.slice(i, i + CONCURRENCY_LIMIT)]. *)
Definition batch_at (ids : list string) (i : nat) : list string :=
  firstn CONCURRENCY_LIMIT (skipn i ids).

(** [Promise.allSettled(batch.map(async (id) => { await
    client.deleteDocument(id); return id; }))]: the deletions of the
    batch overlap. *)
Definition settle_batch (sched : list nat) (batch : list string) (h : list Event)
  : list (JsError + string) * list Event * list nat :=
  Promise_allSettled sched
    (map (fun id => then_ (fun _ => id) (Client.deleteDocument_task P client id)) batch)
    h.

(** The body of the loop over [j]. *)
Definition delete_result (id : string) (result : JsError + string) : DeleteResult :=
  match result with
  | inr _ => {| id := id; success := true; error_message := None |}
  | inl reason =>
      {| id := id; success := false;
         error_message := Some (str_or (message reason) "Unknown error") |}
  end.

(** The loop over [i].  [n] is the number of batches still to run: [i]
    advances by [CONCURRENCY_LIMIT] and nothing else changes it, so
    [i < ids.length] holds exactly while [n] is not zero.  The schedule
    goes from one batch to the next. *)
Fixpoint batch_loop (ids : list string) (n : nat) (i : nat)
    (acc : list DeleteResult) (sched : list nat) (h : list Event)
  : list DeleteResult * list Event :=
  match n with
  | O => (acc, [])
  | S n' =>
      let batch := batch_at ids i in
      let '(batchResults, ev, sched') := settle_batch sched batch h in
      let (rs, ev') :=
        batch_loop ids n' (i + CONCURRENCY_LIMIT)%nat
          (acc ++ map (fun p => delete_result (fst p) (snd p))
                    (combine batch batchResults))%list
          sched' (h ++ ev)%list in
      (rs, (ev ++ ev')%list)
  end.

Definition batch_count (len i : nat) : nat :=
  ((len - i + (CONCURRENCY_LIMIT - 1)) / CONCURRENCY_LIMIT)%nat.

Definition bulk_results (sched : list nat) (ids : list string) (h : list Event)
  : list DeleteResult * list Event :=
  batch_loop ids (batch_count (List.length ids) 0) 0%nat [] sched h.

Definition nat_to_string (n : nat) : string := Z_to_string (Z.of_nat n).

Definition bulk_text (ids : list string) (rs : list DeleteResult) : string :=
  let successful := filter success rs in
  let failed := filter (fun r => negb (success r)) rs in
  let responseText :=
    "Bulk delete completed." ++ LF ++ LF ++ "Successfully deleted: "
      ++ nat_to_string (List.length successful) ++ "/" ++ nat_to_string (List.length ids)
      ++ " documents" in
  if (0 <? List.length failed)%nat then
    responseText ++ LF ++ LF ++ "Failed to delete " ++ nat_to_string (List.length failed)
      ++ " documents:" ++ LF
      ++ String.concat LF
           (map (fun f => "- " ++ id f ++ ": "
                            ++ match error_message f with
                               | Some e => e
                               | None => "undefined"
                               end) failed)
  else responseText.

(** The text of the one [content] item returned, for the order [sched]
    in which the event loop takes the overlapping deletions. *)
Definition handleBulkDelete (sched : list nat) (ids : list string) : M string :=
  fun h =>
    let (rs, ev) := bulk_results sched ids h in
    (Ok (bulk_text ids rs), ev).

End WithClient.
End Handlers.

(** ** Vocabulary of the statements *)

(** A run that first emits [t], then goes on as [x]. *)
Definition prepend {A} (t : list Event) (x : Outcome A * list Event)
  : Outcome A * list Event :=
  (fst x, (t ++ snd x)%list).

(** The wait bound as the specification words it, for the wait [wait]
    computed at [attempt] from an answer whose [Retry-After] is [seconds]:
    at least the server's seconds in milliseconds whenever that exceeds
    the exponential backoff, and at most [maxDelayMs]. *)
Definition wait_as_specified (this : ReadwiseClient) (attempt seconds : Z)
    (wait : jsnum) : Prop :=
  exists ms,
    wait = Num ms
    /\ (Z.min (baseDelayMs (retryConfig this) * 2 ^ attempt)
              (maxDelayMs (retryConfig this)) < seconds * 1000 ->
        seconds * 1000 <= ms)
    /\ ms <= maxDelayMs (retryConfig this).


(** The pairs of the query that a listing with the parameters [o] sends:
    one for each entry of [o] whose value is not [undefined], in the
    order of the entries, the value as [String] gives it. *)
Definition sent_pairs (o : Params) : list (string * string) :=
  map (fun kv => (fst kv, js_String (snd kv)))
    (filter (fun kv => defined (snd kv)) o).

(** What follows [/list/] in the address: nothing when the query is
    empty. *)
Definition list_query (P : Platform) (o : Params) : string :=
  let query := URLSearchParams_toString P (sent_pairs o) in
  if str_truthy query then "?" ++ query else EmptyString.

(** The request of a listing with the parameters [o], as it is sent. *)
Definition list_request (P : Platform) (this : ReadwiseClient) (o : Params) : Request :=
  {| req_url := "https://readwise.io/api/v3/list/" ++ list_query P o;
     req_method := None;
     req_headers := [("Authorization", "Token " ++ token this);
                     ("Content-Type", "application/json")];
     req_body := None |}.

(** Pages linked by their cursors, each with what the call that fetched
    it emitted: [linked_pages P this base h params calls] holds when, from
    the history [h], [listDocuments] answers the first page to [params],
    and each later page to [base] with [pageCursor] set to the cursor that
    the page before it gave; the last page only gives no cursor. *)
Inductive linked_pages (P : Platform) (this : ReadwiseClient) (base : Params)
  : list Event -> Params -> list (ListDocumentsResponse * list Event) -> Prop :=
| linked_last h params response d t :
    Client.listDocuments P this params h = (Ok response, t) ->
    data response = Some d ->
    cursor_truthy (nextPageCursor d) = false ->
    linked_pages P this base h params [(d, t)]
| linked_next h params response d c t calls :
    Client.listDocuments P this params h = (Ok response, t) ->
    data response = Some d ->
    nextPageCursor d = Some c ->
    str_truthy c = true ->
    linked_pages P this base (h ++ t)%list (obj_set "pageCursor" (VStr c) base) calls ->
    linked_pages P this base h params ((d, t) :: calls).

(** The objects that the pages [pages] are asked with, one after the
    other: [base], then [base] with the cursor of each page but the
    last. *)
Definition asked (base : Params) (pages : list ListDocumentsResponse) : list Params :=
  base
    :: map (fun d => match nextPageCursor d with
                     | Some c => obj_set "pageCursor" (VStr c) base
                     | None => base
                     end)
         (removelast pages).

(** The [n] batches that the loop of [handleBulkDelete] takes from the
    index [i] on, and all its batches. *)
Definition batches_from (ids : list string) (i n : nat) : list (list string) :=
  map (fun k => Handlers.batch_at ids (i + k * Handlers.CONCURRENCY_LIMIT)%nat)
    (seq 0 n).

Definition batches (ids : list string) : list (list string) :=
  batches_from ids 0 (Handlers.batch_count (List.length ids) 0).

(** The rule for raw markup as the specification words it: a document of
    the output has [html_content] only when the caller asked for raw
    markup. *)
Definition markup_only_on_request (P : Platform) (client : ReadwiseClient)
    (fuel : nat) (args : Params) (h : list Event) : Prop :=
  forall o t doc,
    Handlers.list_output P client fuel args h = (Ok o, t) ->
    In doc (out_documents o) ->
    obj_has "html_content" doc = true ->
    truthy (obj_get "withHtmlContent" args) = true.

(** The category of the document is empty, ["article"] or ["pdf"]. *)
Definition converter_category (doc : Doc) : Prop :=
  truthy (obj_get "category" doc) = false
  \/ obj_get "category" doc = VStr "article"
  \/ obj_get "category" doc = VStr "pdf".

(** The hydration rule as the specification words it, for one document
    when full content is requested. *)
Definition hydration_as_specified (P : Platform) (doc : Doc) (h : list Event) : Prop :=
  let html := obj_get "html_content" doc in
  let by_url := Handlers.convert P (Handlers.urlToConvert doc) (obj_get "category" doc) h in
  (truthy html = true -> converter_category doc ->
   Handlers.hydrate P true doc h = by_url)
  /\ (truthy html = true -> ~ converter_category doc ->
      Handlers.hydrate P true doc h = (Ok (extractTextFromHtml P html), []))
  /\ (truthy html = false -> Handlers.hydrate P true doc h = by_url).

(** ** Runs used as examples *)

Module Fixtures.

Definition mkresp (st : Z) (hd : list (string * string)) (b : string) : Response :=
  {| status := st; statusText := "TXT"; headers := hd; body := b |}.

(** A service that answers the [n]-th request of the history with the
    [n]-th response of [script], and with [dflt] after that. *)
Definition scripted (script : list Response) (dflt : Response)
  : list Event -> Request -> Response :=
  fun h _ => nth (List.length (responses h)) script dflt.

(** A platform for the examples: [table] gives the decoded payload of a
    body, the query string is the pairs joined without escaping, and a
    date is the integer it starts with. *)
Definition platform (srv : list Event -> Request -> Response)
    (table : list (string * ListDocumentsResponse)) : Platform :=
  {| serve := srv;
     json_list := fun b =>
       match obj_lookup b table with
       | Some r => inr r
       | None => inl (Error "Unexpected token")
       end;
     json_any := fun b => inr (VStr b);
     URLSearchParams_toString := fun l =>
       String.concat "&" (map (fun kv => fst kv ++ "=" ++ snd kv) l);
     Date_value := fun v => match v with VStr s => parseInt s | _ => NaN end;
     convertUrlToText := fun _ u _ => inr ("text:" ++ js_String u);
     extractTextFromHtml := fun v => "html:" ++ js_String v;
     JSON_stringify_list := fun _ _ _ => "{}";
     term_test := fun t s => String.eqb t s |}.

Definition client : ReadwiseClient := new_ReadwiseClient "tok" None.

Definition r429 (retryAfter : string) : Response :=
  mkresp 429 [("Retry-After", retryAfter)] "slow down".

Definition r429_bare : Response := mkresp 429 [] "slow down".

Definition r204 : Response := mkresp 204 [] EmptyString.

Definition r500 : Response := mkresp 500 [] "boom".

Definition r200 (b : string) : Response := mkresp 200 [] b.

Definition page (c : Z) (next : option string) (docs : list Doc)
  : ListDocumentsResponse :=
  {| count := c; nextPageCursor := next; results := docs |}.

Definition doc_saved (name : string) (saved_at : string) : Doc :=
  [("id", VStr name); ("saved_at", VStr saved_at)].

(** Three pages of two documents, saved at the times 1 to 6, and a
    listing of fifteen documents. *)
Definition table : list (string * ListDocumentsResponse) :=
  [("p1", page 6 (Some "c2") [doc_saved "a" "1"; doc_saved "b" "4"]);
   ("p2", page 6 (Some "c3") [doc_saved "c" "2"; [("id", VStr "d")]]);
   ("p3", page 6 None [doc_saved "e" "6"; doc_saved "f" "3"]);
   ("count3", page 3 None []);
   ("count15", page 15 None []);
   ("count25", page 25 None []);
   ("first5", page 15 (Some "more") [doc_saved "a" "1"])].

Definition three_pages : Platform :=
  platform (scripted [r200 "p1"; r200 "p2"; r200 "p3"] r500) table.

(** A service that answers by the URL it is asked, and the three pages
    served that way: the second and the third one only to a request that
    carries the cursor of the page before. *)
Definition by_url (answers : list (string * Response)) (dflt : Response)
  : list Event -> Request -> Response :=
  fun _ q =>
    match obj_lookup (req_url q) answers with
    | Some r => r
    | None => dflt
    end.

Definition linked : Platform :=
  platform
    (by_url
       [("https://readwise.io/api/v3/list/?withFullContent=false&withHtmlContent=false",
         r200 "p1");
        ("https://readwise.io/api/v3/list/?withFullContent=false&withHtmlContent=false&pageCursor=c2",
         r200 "p2");
        ("https://readwise.io/api/v3/list/?withFullContent=false&withHtmlContent=false&pageCursor=c3",
         r200 "p3")]
       r500)
    table.

Definition fifteen : Platform :=
  platform (scripted [r200 "count15"; r200 "first5"] r500) table.

Definition three : Platform :=
  platform (scripted [r200 "count3"; r200 "p3"] r500) table.

Definition twenty_five : Platform :=
  platform (scripted [r200 "count25"; r200 "first5"] r500) table.

(** A client that never retries, and one whose [maxRetries] is negative. *)
Definition impatient : ReadwiseClient :=
  new_ReadwiseClient "tok"
    (Some {| p_maxRetries := Some 0; p_baseDelayMs := None; p_maxDelayMs := None |}).

Definition negative : ReadwiseClient :=
  new_ReadwiseClient "tok"
    (Some {| p_maxRetries := Some (-1); p_baseDelayMs := None; p_maxDelayMs := None |}).



(** The three pages of [linked], each with what the call that fetched it
    emitted. *)
Definition linked_calls : list (ListDocumentsResponse * list Event) :=
  let base := [("withFullContent", VBool false); ("withHtmlContent", VBool false)] in
  let t1 := snd (Client.listDocuments linked client base []) in
  let t2 := snd (Client.listDocuments linked client
                   (obj_set "pageCursor" (VStr "c2") base) ([] ++ t1)%list) in
  let t3 := snd (Client.listDocuments linked client
                   (obj_set "pageCursor" (VStr "c3") base) (([] ++ t1) ++ t2)%list) in
  [(page 6 (Some "c2") [doc_saved "a" "1"; doc_saved "b" "4"], t1);
   (page 6 (Some "c3") [doc_saved "c" "2"; [("id", VStr "d")]], t2);
   (page 6 None [doc_saved "e" "6"; doc_saved "f" "3"], t3)].

(** A document that has markup, and one with neither markup nor URL. *)
Definition doc_markup : Doc :=
  [("id", VStr "m"); ("url", VStr "https://x/m"); ("category", VStr "email");
   ("html_content", VStr "<p>hi</p>")].

Definition doc_bare : Doc := [("id", VStr "n")].

Definition markup_table : list (string * ListDocumentsResponse) :=
  [("count1", page 1 None []); ("one", page 1 None [doc_markup])].

Definition one_markup : Platform :=
  platform (scripted [r200 "count1"; r200 "one"] r500) markup_table.

End Fixtures.

(** ** The other operations of [readwise-client.ts] *)

(** [v.k] for a value that came out of [response.json()]: the field of an
    object, a [TypeError] on [undefined] and [null], [undefined] on the
    other values (none of the names read below is a property of a string,
    a number, a boolean or an array). *)
Definition js_prop (v : JsVal) (k : string) : JsError + JsVal :=
  match v with
  | VObj o => inr (obj_get k o)
  | VUndef => inl (Client.type_error k)
  | VNull => inl (Error ("Cannot read properties of null (reading '" ++ k ++ "')"))
  | _ => inr VUndef
  end.

(** [data.k] where [data] is what [makeRequest] returned ([None] for
    [undefined]). *)
Definition data_prop (d : option JsVal) (k : string) : M JsVal :=
  match d with
  | None => throw (Client.type_error k)
  | Some v =>
      match js_prop v k with
      | inr x => ret x
      | inl e => throw e
      end
  end.

Module ClientOps.
Section WithClient.

Variable P : Platform.
Variable this : ReadwiseClient.

(** [JSON.stringify(data)] for the body of a request. *)
Variable JSON_stringify : obj JsVal -> string.

Definition validateAuth : M (APIResponse (option JsVal)) :=
  result <- Client.makeRequest P this (json_any P) authUrl no_options ;;
  ret (createResponse result None).

Definition createDocument (data : obj JsVal) : M (APIResponse (option JsVal)) :=
  result <-
    Client.makeRequest P this (json_any P) "/save/"
      {| init_method := Some "POST"; init_headers := [];
         init_body := Some (JSON_stringify data) |} ;;
  ret (createResponse result None).

Definition updateDocument (id : string) (data : obj JsVal)
  : M (APIResponse (option JsVal)) :=
  result <-
    Client.makeRequest P this (json_any P) ("/update/" ++ id ++ "/")
      {| init_method := Some "PATCH"; init_headers := [];
         init_body := Some (JSON_stringify data) |} ;;
  ret (createResponse result None).

Definition listTags : M (APIResponse (option JsVal)) :=
  result <- Client.makeRequest P this (json_any P) "/tags/" no_options ;;
  ret (createResponse result None).

End WithClient.
End ClientOps.

(** ** The other handlers of [document-handlers.ts] *)

(** ['\n\nMessages:\n' + ...] when [response.messages] is set and not
    empty. *)
Definition response_messages_suffix (msgs : option (list APIMessage)) : string :=
  match msgs with
  | Some l =>
      if (0 <? List.length l)%nat
      then LF ++ LF ++ "Messages:" ++ LF ++ message_lines l
      else EmptyString
  | None => EmptyString
  end.

Module HandlerOps.
Section WithClient.

Variable P : Platform.
Variable client : ReadwiseClient.
Variable JSON_stringify : obj JsVal -> string.

(** [x || 'Untitled']. *)
Definition or_untitled (v : JsVal) : JsVal :=
  if truthy v then v else VStr "Untitled".

Definition handleSaveDocument (args : obj JsVal) : M string :=
  response <- ClientOps.createDocument P client JSON_stringify args ;;
  id_ <- data_prop (data response) "id" ;;
  title <- data_prop (data response) "title" ;;
  url <- data_prop (data response) "url" ;;
  location <- data_prop (data response) "location" ;;
  ret ("Document saved successfully!" ++ LF ++ "ID: " ++ js_String id_ ++ LF
         ++ "Title: " ++ js_String (or_untitled title) ++ LF
         ++ "URL: " ++ js_String url ++ LF
         ++ "Location: " ++ js_String location
         ++ response_messages_suffix (messages response)).

(** [const { id, ...updateData } = args]. *)
Definition updateData (args : obj JsVal) : obj JsVal := obj_delete "id" args.

Definition handleUpdateDocument (args : obj JsVal) : M string :=
  response <-
    ClientOps.updateDocument P client JSON_stringify
      (js_String (obj_get "id" args)) (updateData args) ;;
  id_ <- data_prop (data response) "id" ;;
  url <- data_prop (data response) "url" ;;
  ret ("Document updated successfully!" ++ LF ++ "ID: " ++ js_String id_ ++ LF
         ++ "Reader URL: " ++ js_String url
         ++ response_messages_suffix (messages response)).

Definition handleDeleteDocument (args : obj JsVal) : M string :=
  let id_ := js_String (obj_get "id" args) in
  response <- Client.deleteDocument P client id_ ;;
  ret ("Document " ++ id_ ++ " deleted successfully!"
         ++ response_messages_suffix (messages response)).

End WithClient.
End HandlerOps.

(** ** More vocabulary *)

Definition waits (t : list Event) : list jsnum :=
  flat_map (fun e => match e with ESleep d => [d] | _ => [] end) t.

Definition warnings (t : list Event) : list string :=
  flat_map (fun e => match e with EWarn w => [w] | _ => [] end) t.

Definition conversions (t : list Event) : list (JsVal * JsVal) :=
  flat_map (fun e => match e with EConvert u c => [(u, c)] | _ => [] end) t.

(** The URL handed to [fetch] starts with the address of the Readwise API,
    and the headers carry the client's token.  The URL is the string as
    the client builds it: what its path resolves to is not looked at. *)
Definition api_url_and_token (this : ReadwiseClient) (q : Request) : Prop :=
  String.prefix "https://readwise.io/api/" (req_url q) = true
  /\ obj_lookup "Authorization" (req_headers q) = Some ("Token " ++ token this).

(** Pages linked by truthy cursors, none of them the last: from the
    history [h] and the cursor [c], [listDocuments] answers [pages], each
    with a cursor, the last of which is [c']; [t] is what the calls
    emitted. *)
Inductive page_prefix (P : Platform) (this : ReadwiseClient) (base : Params)
  : list Event -> option string -> list ListDocumentsResponse -> list Event
    -> option string -> Prop :=
| prefix_nil h c : page_prefix P this base h c [] [] c
| prefix_cons h c response d t pages t' c' :
    Client.listDocuments P this (Client.page_params base c) h = (Ok response, t) ->
    data response = Some d ->
    cursor_truthy (nextPageCursor d) = true ->
    page_prefix P this base (h ++ t)%list (nextPageCursor d) pages t' c' ->
    page_prefix P this base h c (d :: pages) (t ++ t')%list c'.

(** The waits that the answers [rs], all retried, give from [attempt]
    on. *)
Fixpoint waits_of (this : ReadwiseClient) (attempt : Z) (rs : list Response)
  : list jsnum :=
  match rs with
  | [] => []
  | r :: rs' =>
      Client.actualDelay this attempt (Client.retryAfterSeconds r)
        :: waits_of this (attempt + 1) rs'
  end.

(** Every call of [fetch] that the computation [m] makes, from any
    history, is given such a URL and such headers. *)
Definition fetches_with_api_url (this : ReadwiseClient) {A} (m : M A) : Prop :=
  forall h, Forall (api_url_and_token this) (requests (snd (m h))).

(** The converter is called for the document when full content is
    requested: it has no markup or a category for the converter, and it
    has a URL. *)
Definition needs_conversion (doc : Doc) : bool :=
  truthy (Handlers.urlToConvert doc)
  && (negb (truthy (obj_get "html_content" doc)) || Handlers.shouldUseJina doc).

Module MoreFixtures.

(** A client whose base delay is 0. *)
Definition no_backoff : ReadwiseClient :=
  new_ReadwiseClient "tok"
    (Some {| p_maxRetries := None; p_baseDelayMs := Some 0; p_maxDelayMs := None |}).

(** The service of [Fixtures.three_pages] asked with a limit. *)
Definition limited_args : Params := [("addedAfter", VStr "2"); ("limit", VNum (Num 2))].

(** A first page, then an error. *)
Definition broken_pages : Platform :=
  Fixtures.platform
    (Fixtures.scripted [Fixtures.r200 "p1"] Fixtures.r500) Fixtures.table.

(** A service that gives a cursor with every page. *)
Definition endless : Platform :=
  Fixtures.platform (fun _ _ => Fixtures.r200 "more")
    [("more", Fixtures.page 1 (Some "again") [])].

(** A service that answers 200 with an empty body to every request, and
    a decoder that refuses it. *)
Definition empty_ok : Platform :=
  {| serve := fun _ _ => Fixtures.r200 EmptyString;
     json_list := fun _ => inl (Error "Unexpected end of JSON input");
     json_any := fun _ => inl (Error "Unexpected end of JSON input");
     URLSearchParams_toString := URLSearchParams_toString Fixtures.three_pages;
     Date_value := Date_value Fixtures.three_pages;
     convertUrlToText := fun _ _ _ => inl (Error "conversion failed");
     extractTextFromHtml := extractTextFromHtml Fixtures.three_pages;
     JSON_stringify_list := JSON_stringify_list Fixtures.three_pages;
     term_test := term_test Fixtures.three_pages |}.

(** A body encoder for the examples. *)
Definition stringify (o : obj JsVal) : string :=
  "{" ++ String.concat "," (map (fun kv => fst kv ++ ":" ++ js_String (snd kv)) o) ++ "}".

Definition saved_table : list (string * JsVal) :=
  [("saved", VObj [("id", VStr "d1"); ("url", VStr "https://read/d1");
                   ("location", VStr "new")])].

(** A service whose answers decode, for the other payloads, through
    [saved_table]. *)
Definition saving : Platform :=
  {| serve := fun _ _ => Fixtures.r200 "saved";
     json_list := json_list Fixtures.three_pages;
     json_any := fun b =>
       match obj_lookup b saved_table with
       | Some v => inr v
       | None => inl (Error "Unexpected token")
       end;
     URLSearchParams_toString := URLSearchParams_toString Fixtures.three_pages;
     Date_value := Date_value Fixtures.three_pages;
     convertUrlToText := convertUrlToText Fixtures.three_pages;
     extractTextFromHtml := extractTextFromHtml Fixtures.three_pages;
     JSON_stringify_list := JSON_stringify_list Fixtures.three_pages;
     term_test := term_test Fixtures.three_pages |}.

(** Two documents that have a URL and no markup, listed by a service
    whose converter fails. *)
Definition doc_url (name : string) : Doc :=
  [("id", VStr name); ("url", VStr ("https://x/" ++ name))].

Definition unconvertible : Platform :=
  {| serve := Fixtures.scripted [Fixtures.r200 "count2"; Fixtures.r200 "two"] Fixtures.r500;
     json_list := fun b =>
       match obj_lookup b [("count2", Fixtures.page 2 None []);
                           ("two", Fixtures.page 2 None [doc_url "a"; doc_url "b"])] with
       | Some r => inr r
       | None => inl (Error "Unexpected token")
       end;
     json_any := json_any Fixtures.three_pages;
     URLSearchParams_toString := URLSearchParams_toString Fixtures.three_pages;
     Date_value := Date_value Fixtures.three_pages;
     convertUrlToText := fun _ _ _ => inl (Error "conversion failed");
     extractTextFromHtml := extractTextFromHtml Fixtures.three_pages;
     JSON_stringify_list := JSON_stringify_list Fixtures.three_pages;
     term_test := term_test Fixtures.three_pages |}.

End MoreFixtures.

(** ** Vocabulary for the calls that overlap *)

(** [steps t ev t']: resumed some number of times, at whatever histories,
    the call [t] emits [ev] in all and becomes [t']. *)
Inductive steps {A : Type} : Task A -> list Event -> Task A -> Prop :=
| steps_none t : steps t [] t
| steps_more emits next h ev t' :
    steps (next h) ev t' ->
    steps (Suspended emits next) (emits h ++ ev)%list t'.

(** [merge ls l]: the list [l] is an interleaving of the lists [ls], each
    of them in its own order. *)
Inductive merge {A : Type} : list (list A) -> list A -> Prop :=
| merge_done ls : Forall (fun l => l = []) ls -> merge ls []
| merge_take ls1 x l ls2 t :
    merge (ls1 ++ l :: ls2)%list t ->
    merge (ls1 ++ (x :: l) :: ls2)%list (x :: t).

Definition outcome_of {A} (r : JsError + A) : Outcome A :=
  match r with
  | inr a => Ok a
  | inl e => Throw e
  end.

(** A service that gives the answers [rs] one after the other, whatever
    it is asked. *)
Definition replay (rs : list Response) : list Event -> Request -> Response :=
  fun h _ =>
    nth (List.length (responses h)) rs
      {| status := 0; statusText := EmptyString; headers := []; body := EmptyString |}.

(** The platform [P] with another service. *)
Definition with_serve (P : Platform) (srv : list Event -> Request -> Response)
  : Platform :=
  {| serve := srv;
     json_list := json_list P;
     json_any := json_any P;
     URLSearchParams_toString := URLSearchParams_toString P;
     Date_value := Date_value P;
     convertUrlToText := convertUrlToText P;
     extractTextFromHtml := extractTextFromHtml P;
     JSON_stringify_list := JSON_stringify_list P;
     term_test := term_test P |}.

(** The request that deletes the document [id]. *)
Definition delete_request (client : ReadwiseClient) (id : string) : Request :=
  {| req_url := "https://readwise.io/api/v3/delete/" ++ id ++ "/";
     req_method := Some "DELETE";
     req_headers := [("Authorization", "Token " ++ token client);
                     ("Content-Type", "application/json")];
     req_body := None |}.

(** The record that [handleBulkDelete] must hold for the document [id],
    read off the events [own] of its deletion: a success when the last
    answer is a 204 or has a body that decodes; otherwise a failure, with
    the message of the rate limit after a last answer 429, of the API
    error after an answer whose body was read as text, of the decoding
    when the body does not decode, and ['Request failed'] when nothing was
    sent. *)
Definition deletion_record (P : Platform) (client : ReadwiseClient) (id : string)
    (own : list Event) : DeleteResult :=
  let done := {| id := id; success := true; error_message := None |} in
  let failed := fun msg : string =>
    {| id := id; success := false;
       error_message := Some (if str_truthy msg then msg else "Unknown error") |} in
  match rev own with
  | EFetch _ r :: _ =>
      if status r =? 204 then done
      else failed ("Rate limit exceeded after "
                     ++ Z_to_string (maxRetries (retryConfig client))
                     ++ " retries. Please wait "
                     ++ num_to_string (Client.retryAfterSeconds r)
                     ++ " seconds before trying again.")
  | EJson r :: _ =>
      match json_any P (body r) with
      | inr _ => done
      | inl e => failed (message e)
      end
  | EText r :: _ =>
      failed ("Readwise API error: " ++ Z_to_string (status r) ++ " "
                ++ statusText r ++ " - " ++ body r)
  | _ => failed "Request failed"
  end.

(** One deletion of a batch: its events [own] and its record.  Every
    request it sends is the request that deletes [id]. *)
Definition deletion_run (P : Platform) (client : ReadwiseClient) (id : string)
    (own : list Event) (record : DeleteResult) : Prop :=
  requests own = repeat (delete_request client id) (List.length (responses own))
  /\ record = deletion_record P client id own.

(** One batch: the events [t] of the batch and, for each identifier, the
    events and the record of its deletion.  The events of the batch are an
    interleaving of those of its deletions, and when a request can be sent
    at all they start with the first request of every deletion, in the
    order of the batch: all are sent before any answer is handled. *)
Definition batch_run (P : Platform) (client : ReadwiseClient) (batch : list string)
    (t : list Event) (calls : list (list Event * DeleteResult)) : Prop :=
  Forall2 (fun id call => deletion_run P client id (fst call) (snd call)) batch calls
  /\ merge (map fst calls) t
  /\ (0 <= maxRetries (retryConfig client) ->
      requests (firstn (List.length batch) t) = map (delete_request client) batch).

(** [pool_run ts ev ts']: the calls [ts] become the calls [ts'], position
    by position, and the events [ev] they emit in all are an interleaving
    of what each of them emits. *)
Definition pool_run {A} (ts : list (Task A)) (ev : list Event) (ts' : list (Task A))
  : Prop :=
  exists xs : list (list Event * Task A),
    Forall2 (fun t x => steps t (fst x) (snd x)) ts xs
    /\ map snd xs = ts'
    /\ merge (map fst xs) ev.

(** The lists of [l1] and of [l2] joined position by position. *)
Definition zip_app {A} (l1 l2 : list (list A)) : list (list A) :=
  map (fun p => (fst p ++ snd p)%list) (combine l1 l2).

(** * Properties *)

(** ** The monad *)

Lemma bind_ok {A B} (m : M A) (f : A -> M B) h a t1 :
  m h = (Ok a, t1) ->
  bind m f h = prepend t1 (f a (h ++ t1)%list).
Proof.
  intros E. unfold bind, prepend. rewrite E.
  destruct (f a (h ++ t1)%list). reflexivity.
Qed.

Lemma bind_throw {A B} (m : M A) (f : A -> M B) h e t1 :
  m h = (Throw e, t1) -> bind m f h = (Throw e, t1).
Proof. intros E. unfold bind. rewrite E. reflexivity. Qed.

Lemma bind_ret {A B} (a : A) (f : A -> M B) h : bind (ret a) f h = f a h.
Proof.
  unfold bind, ret. rewrite app_nil_r. destruct (f a h). reflexivity.
Qed.

Lemma bind_emit {B} (e : Event) (f : unit -> M B) h :
  bind (emit e) f h = prepend [e] (f tt (h ++ [e])%list).
Proof. apply bind_ok. reflexivity. Qed.

Lemma prepend_nil {A} (x : Outcome A * list Event) : prepend [] x = x.
Proof. destruct x. reflexivity. Qed.

Lemma prepend_prepend {A} t1 t2 (x : Outcome A * list Event) :
  prepend t1 (prepend t2 x) = prepend (t1 ++ t2)%list x.
Proof. unfold prepend. cbn. rewrite app_assoc. reflexivity. Qed.

Lemma prepend_pair {A} t (o : Outcome A) t' : prepend t (o, t') = (o, (t ++ t')%list).
Proof. reflexivity. Qed.

(** ** Lists *)

Lemma cons_eq_app {A} (x : A) l t1 rest :
  x :: l = (t1 ++ rest)%list ->
  (t1 = [] /\ rest = x :: l) \/ (exists t1', t1 = x :: t1' /\ l = (t1' ++ rest)%list).
Proof.
  destruct t1 as [|y t1']; cbn; intros E.
  - left. split; [reflexivity | symmetry; exact E].
  - right. injection E as <- ->. exists t1'. split; reflexivity.
Qed.

Lemma nil_eq_app {A} (t1 rest : list A) : [] = (t1 ++ rest)%list -> t1 = [] /\ rest = [].
Proof. intros E. symmetry in E. apply app_eq_nil in E. exact E. Qed.

(** ** Numbers *)

Lemma to_double_small z : Z.abs z < 2 ^ 53 -> to_double z = Num z.
Proof.
  intros H. unfold to_double. apply Z.ltb_lt in H. rewrite H. reflexivity.
Qed.

(** Rounding keeps a large integer large. *)
Lemma round_large a :
  2 ^ 53 <= a ->
  let e := Z.log2 a - 52 in
  let m := a / 2 ^ e in
  forall m', m <= m' -> 2 ^ 53 <= m' * 2 ^ e.
Proof.
  intros Ha e m m' Hm.
  assert (Hpos : 0 < a) by (pose proof (Z.pow_pos_nonneg 2 53); lia).
  assert (Hlog : 53 <= Z.log2 a).
  { rewrite <- (Z.log2_pow2 53) by lia. apply Z.log2_le_mono. exact Ha. }
  assert (He : 1 <= e) by (unfold e; lia).
  assert (H2e : 2 <= 2 ^ e).
  { change 2 with (2 ^ 1) at 1. apply Z.pow_le_mono_r; lia. }
  assert (Hm52 : 2 ^ 52 <= m).
  { unfold m. apply Z.div_le_lower_bound; [lia|].
    rewrite <- Z.pow_add_r by lia.
    replace (e + 52) with (Z.log2 a) by (unfold e; lia).
    apply Z.log2_spec. exact Hpos. }
  assert (H52 : 0 < 2 ^ 52) by (apply Z.pow_pos_nonneg; lia).
  change (2 ^ 53) with (2 ^ 52 * 2).
  apply Z.mul_le_mono_nonneg; lia.
Qed.

Lemma to_double_large z :
  2 ^ 53 <= z ->
  to_double z = PosInfinity \/ exists v, to_double z = Num v /\ 2 ^ 53 <= v.
Proof.
  intros Hz.
  assert (Hpos : 0 < z) by (pose proof (Z.pow_pos_nonneg 2 53); lia).
  unfold to_double. rewrite (Z.abs_eq z) by lia.
  replace (z <? 2 ^ 53) with false by (symmetry; apply Z.ltb_ge; exact Hz).
  cbv zeta.
  set (e := Z.log2 z - 52). set (m := z / 2 ^ e).
  set (m' := if _ : bool then m + 1 else m).
  assert (Hm : m <= m') by (unfold m'; destruct (_ || _)%bool; lia).
  pose proof (round_large z Hz m' Hm) as Hr. fold e in Hr.
  destruct (2 ^ 1024 <=? m' * 2 ^ e).
  - left. replace (z <? 0) with false by (symmetry; apply Z.ltb_ge; lia). reflexivity.
  - right. eexists. split; [reflexivity|].
    rewrite Z.sgn_pos by exact Hpos. lia.
Qed.

Lemma to_double_large_neg z :
  z <= - 2 ^ 53 ->
  to_double z = NegInfinity \/ exists v, to_double z = Num v /\ v <= - 2 ^ 53.
Proof.
  intros Hz.
  assert (Hneg : z < 0) by (pose proof (Z.pow_pos_nonneg 2 53); lia).
  unfold to_double. rewrite (Z.abs_neq z) by lia.
  replace (- z <? 2 ^ 53) with false by (symmetry; apply Z.ltb_ge; lia).
  cbv zeta.
  set (e := Z.log2 (- z) - 52). set (m := - z / 2 ^ e).
  set (m' := if _ : bool then m + 1 else m).
  assert (Hm : m <= m') by (unfold m'; destruct (_ || _)%bool; lia).
  pose proof (round_large (- z) ltac:(lia) m' Hm) as Hr. fold e in Hr.
  destruct (2 ^ 1024 <=? m' * 2 ^ e).
  - left. replace (z <? 0) with true by (symmetry; apply Z.ltb_lt; exact Hneg). reflexivity.
  - right. eexists. split; [reflexivity|].
    rewrite Z.sgn_neg by exact Hneg. lia.
Qed.

(** The clamp of [Math.min] absorbs the rounding: below a bound that a
    double holds exactly, the minimum is the exact one. *)
Lemma min_to_double x M :
  0 <= M <= 2 ^ 53 -> - 2 ^ 53 < x ->
  Math_min (to_double x) (Num M) = Num (Z.min x M).
Proof.
  intros HM Hx. destruct (Z_lt_le_dec x (2 ^ 53)) as [L|L].
  - rewrite to_double_small by lia. reflexivity.
  - destruct (to_double_large x L) as [->|(v & -> & Hv)]; cbn [Math_min]; f_equal; lia.
Qed.

Section Delays.

Variable this : ReadwiseClient.

Local Notation "'base'" := (baseDelayMs (retryConfig this)).
Local Notation "'M'" := (maxDelayMs (retryConfig this)).

Hypothesis Hbase : 0 < base.
Hypothesis HM : 0 <= M <= 2 ^ 53.

(** With a positive base delay and a cap that a double holds exactly, the
    backoff is the exact [min(baseDelayMs * 2^attempt, maxDelayMs)] at
    every attempt: past [2^53] and past [Infinity] the cap absorbs what a
    double does to the product. *)
Lemma exponentialDelay_value attempt :
  0 <= attempt ->
  Client.exponentialDelay this attempt = Num (Z.min (base * 2 ^ attempt) M).
Proof.
  intros Ha. unfold Client.exponentialDelay, Math_pow2.
  assert (Hp : 0 < 2 ^ attempt) by (apply Z.pow_pos_nonneg; lia).
  destruct (Z.ltb_spec attempt 1024) as [L|L].
  - cbn [num_mul]. apply min_to_double; [exact HM|].
    pose proof (Z.pow_pos_nonneg 2 53). nia.
  - assert (H1 : 2 ^ 53 <= 2 ^ attempt) by (apply Z.pow_le_mono_r; lia).
    assert (Hs : Z.sgn base = 1) by (apply Z.sgn_pos; exact Hbase).
    unfold num_mul. cbn [num_sign]. rewrite Hs. cbn [Z.mul Pos.mul Math_min].
    f_equal. nia.
Qed.

Lemma exponentialDelay_range attempt :
  0 <= attempt ->
  exists x, Client.exponentialDelay this attempt = Num x /\ 0 <= x <= M.
Proof.
  intros Ha. rewrite exponentialDelay_value by exact Ha.
  assert (Hp : 0 < 2 ^ attempt) by (apply Z.pow_pos_nonneg; lia).
  eexists. split; [reflexivity|]. nia.
Qed.

(** The wait after an answer whose [Retry-After] reads as the integer
    [seconds]. *)
Lemma actualDelay_value attempt seconds :
  0 <= attempt ->
  Client.actualDelay this attempt (Num seconds)
  = Num (Z.max (Z.min (seconds * 1000) M) (Z.min (base * 2 ^ attempt) M)).
Proof.
  intros Ha. unfold Client.actualDelay, Client.delayMs.
  rewrite exponentialDelay_value by exact Ha. cbn [num_mul].
  assert (Hp : 0 < 2 ^ attempt) by (apply Z.pow_pos_nonneg; lia).
  assert (He : 0 <= Z.min (base * 2 ^ attempt) M) by nia.
  destruct (Z_lt_le_dec (- 2 ^ 53) (seconds * 1000)) as [L|L].
  - rewrite min_to_double by assumption. reflexivity.
  - destruct (to_double_large_neg _ L) as [->|(v & -> & Hv)];
      cbn [Math_min Math_max]; f_equal; lia.
Qed.

End Delays.

(** ** [makeRequest] *)

Section Executor.

Variable P : Platform.
Variable this : ReadwiseClient.
Variable T : Type.
Variable decode : string -> JsError + T.
Variable q : Request.

Local Notation "'cfg'" := (retryConfig this).
Local Notation "'loop'" := (Client.attempt_loop P this decode q).

Lemma bind_fetch {B} (f : Response -> M B) h :
  bind (Client.fetch P q) f h
  = prepend [EFetch q (serve P h q)] (f (serve P h q) (h ++ [EFetch q (serve P h q)])%list).
Proof. apply bind_ok. reflexivity. Qed.

Lemma loop_unfold n attempt lastError h :
  loop (S n) attempt lastError h
  = let response := serve P h q in
    prepend [EFetch q response]
      ((if ok response then
          if status response =? 204 then ret None
          else bind (Client.response_json decode response) (fun v => ret (Some v))
        else if status response =? 429 then
          let seconds := Client.retryAfterSeconds response in
          if attempt <? maxRetries cfg then
            bind (Client.warn (Client.retry_warning this attempt seconds)) (fun _ =>
            bind (Client.sleep (Client.actualDelay this attempt seconds)) (fun _ =>
            loop n (attempt + 1) lastError))
          else loop n (attempt + 1) (Some (Client.rate_limit_error this seconds))
        else
          bind (Client.response_text response) (fun errorText =>
          Client.throw_last (Some (Client.api_error response errorText))))
         (h ++ [EFetch q response])%list).
Proof.
  cbn [Client.attempt_loop]. rewrite bind_fetch. reflexivity.
Qed.

Lemma loop_204 n attempt lastError h :
  ok (serve P h q) = true -> status (serve P h q) = 204 ->
  loop (S n) attempt lastError h = (Ok None, [EFetch q (serve P h q)]).
Proof.
  intros Hok Hst. rewrite loop_unfold. cbv zeta. rewrite Hok, Hst. reflexivity.
Qed.

Lemma loop_decoded n attempt lastError h :
  ok (serve P h q) = true -> status (serve P h q) <> 204 ->
  loop (S n) attempt lastError h
  = (match decode (body (serve P h q)) with
     | inr v => Ok (Some v)
     | inl e => Throw e
     end,
     [EFetch q (serve P h q); EJson (serve P h q)]).
Proof.
  intros Hok Hst. rewrite loop_unfold. cbv zeta. rewrite Hok.
  apply Z.eqb_neq in Hst. rewrite Hst.
  unfold Client.response_json. unfold bind at 1. rewrite bind_emit.
  destruct (decode (body (serve P h q))); reflexivity.
Qed.

Lemma ok_429 r : status r = 429 -> ok r = false.
Proof. intros E. unfold ok. rewrite E. reflexivity. Qed.

Lemma loop_retry n attempt lastError h :
  status (serve P h q) = 429 -> attempt < maxRetries cfg ->
  let response := serve P h q in
  let seconds := Client.retryAfterSeconds response in
  let t := [EFetch q response;
            EWarn (Client.retry_warning this attempt seconds);
            ESleep (Client.actualDelay this attempt seconds)] in
  loop (S n) attempt lastError h = prepend t (loop n (attempt + 1) lastError (h ++ t)%list).
Proof.
  intros Hst Hlt. cbv zeta. rewrite loop_unfold. cbv zeta.
  rewrite (ok_429 _ Hst), Hst. cbn [Z.eqb Pos.eqb].
  apply Z.ltb_lt in Hlt. rewrite Hlt.
  unfold Client.warn, Client.sleep. rewrite !bind_emit, !prepend_prepend.
  rewrite <- !app_assoc. reflexivity.
Qed.

Lemma loop_exhausted n attempt lastError h :
  status (serve P h q) = 429 -> maxRetries cfg <= attempt ->
  let response := serve P h q in
  loop (S n) attempt lastError h
  = prepend [EFetch q response]
      (loop n (attempt + 1)
         (Some (Client.rate_limit_error this (Client.retryAfterSeconds response)))
         (h ++ [EFetch q response])%list).
Proof.
  intros Hst Hge. cbv zeta. rewrite loop_unfold. cbv zeta.
  rewrite (ok_429 _ Hst), Hst. cbn [Z.eqb Pos.eqb].
  apply Z.ltb_ge in Hge. rewrite Hge. reflexivity.
Qed.

Lemma loop_api_error n attempt lastError h :
  ok (serve P h q) = false -> status (serve P h q) <> 429 ->
  let response := serve P h q in
  loop (S n) attempt lastError h
  = (Throw (Client.api_error response (body response)),
     [EFetch q response; EText response]).
Proof.
  intros Hok Hst. cbv zeta. rewrite loop_unfold. cbv zeta. rewrite Hok.
  apply Z.eqb_neq in Hst. rewrite Hst.
  unfold Client.response_text. unfold bind at 1. rewrite bind_emit. reflexivity.
Qed.

Lemma loop_head n attempt lastError h r t :
  loop (S n) attempt lastError h = (r, t) ->
  exists t1, t = EFetch q (serve P h q) :: t1.
Proof.
  rewrite loop_unfold. cbv zeta. unfold prepend. intros E.
  injection E as _ E. eexists. symmetry. exact E.
Qed.

Lemma loop_zero attempt lastError h :
  loop 0 attempt lastError h
  = (Throw (or_default lastError (Error "Request failed")), []).
Proof. reflexivity. Qed.

(** The executor has a bounded loop: it never runs out of fuel. *)
Lemma loop_total n : forall attempt lastError h t,
  loop n attempt lastError h <> (OutOfFuel, t).
Proof.
  induction n as [|n IH]; intros attempt lastError h t.
  - rewrite loop_zero. discriminate.
  - destruct (ok (serve P h q)) eqn:Hok.
    + destruct (Z.eq_dec (status (serve P h q)) 204) as [E|E].
      * rewrite loop_204 by assumption. discriminate.
      * rewrite loop_decoded by assumption.
        destruct (decode (body (serve P h q))); discriminate.
    + destruct (Z.eq_dec (status (serve P h q)) 429) as [E|E].
      * destruct (Z_lt_le_dec attempt (maxRetries cfg)) as [L|L].
        -- rewrite loop_retry by assumption. cbv zeta.
           match goal with |- prepend _ ?run <> _ =>
             destruct run as [r1 t2] eqn:Hrest end.
           unfold prepend. cbn. intros C. injection C as -> _.
           exact (IH _ _ _ _ Hrest).
        -- rewrite loop_exhausted by assumption. cbv zeta.
           match goal with |- prepend _ ?run <> _ =>
             destruct run as [r1 t2] eqn:Hrest end.
           unfold prepend. cbn. intros C. injection C as -> _.
           exact (IH _ _ _ _ Hrest).
      * rewrite loop_api_error by assumption. discriminate.
Qed.

Lemma loop_all_429 n : forall attempt lastError h r t,
  Z.of_nat (S n) = maxRetries cfg + 1 - attempt ->
  loop (S n) attempt lastError h = (r, t) ->
  Forall (fun resp => status resp = 429) (responses t) ->
  List.length (responses t) = S n
  /\ requests t = repeat q (S n)
  /\ exists t' final,
       t = (t' ++ [EFetch q final])%list
       /\ r = Throw (Client.rate_limit_error this (Client.retryAfterSeconds final)).
Proof.
  induction n as [|n IH]; intros attempt lastError h r t Hn Hrun Hall.
  - destruct (loop_head _ _ _ _ _ _ Hrun) as [t1 ->].
    cbn in Hall. apply Forall_inv in Hall.
    rewrite loop_exhausted in Hrun by (assumption || lia).
    cbv zeta in Hrun. rewrite loop_zero in Hrun. unfold prepend in Hrun.
    cbn in Hrun. injection Hrun as <- <-.
    repeat split. exists [], (serve P h q). split; reflexivity.
  - destruct (loop_head _ _ _ _ _ _ Hrun) as [t1 ->].
    cbn in Hall. pose proof (Forall_inv Hall) as H0.
    rewrite loop_retry in Hrun by (assumption || lia).
    cbv zeta in Hrun.
    match type of Hrun with prepend ?t3 (?run) = _ =>
      destruct run as [r1 t2] eqn:Hrest end.
    unfold prepend in Hrun. cbn in Hrun. injection Hrun as <- <-.
    apply Forall_inv_tail in Hall.
    assert (Hn' : Z.of_nat (S n) = maxRetries cfg + 1 - (attempt + 1)) by lia.
    specialize (IH _ _ _ _ _ Hn' Hrest Hall).
    destruct IH as (Hlen & Hreq & t' & final & -> & ->).
    split; [|split].
    + unfold responses in *. cbn [flat_map app List.length].
      f_equal. exact Hlen.
    + unfold requests in *. cbn [flat_map app repeat].
      f_equal. exact Hreq.
    + eexists (_ :: _ :: _ :: t'), final. split; reflexivity.
Qed.

Lemma loop_terminal n : forall attempt lastError h r t resp,
  loop n attempt lastError h = (r, t) ->
  In resp (responses t) ->
  (ok resp = false -> status resp <> 429 ->
   r = Throw (Client.api_error resp (body resp))
   /\ exists t', t = (t' ++ [EFetch q resp; EText resp])%list)
  /\ (status resp = 204 ->
      r = Ok None
      /\ (exists t', t = (t' ++ [EFetch q resp])%list)
      /\ forall x, ~ In (EJson x) t).
Proof.
  induction n as [|n IH]; intros attempt lastError h r t resp Hrun Hin.
  - rewrite loop_zero in Hrun. injection Hrun as _ <-. destruct Hin.
  - destruct (ok (serve P h q)) eqn:Hok.
    + destruct (Z.eq_dec (status (serve P h q)) 204) as [E|E].
      * rewrite loop_204 in Hrun by assumption. injection Hrun as <- <-.
        cbn in Hin. destruct Hin as [<-|[]]. split.
        -- congruence.
        -- intros _. split; [reflexivity|]. split.
           ++ exists []. reflexivity.
           ++ intros x [C|[]]. discriminate.
      * rewrite loop_decoded in Hrun by assumption. injection Hrun as _ <-.
        cbn in Hin. destruct Hin as [<-|[]]. split; congruence.
    + destruct (Z.eq_dec (status (serve P h q)) 429) as [E|E].
      * assert (Hself : resp = serve P h q ->
                  (ok resp = false -> status resp <> 429 -> False)
                  /\ (status resp = 204 -> False)).
        { intros ->. split; intros; congruence. }
        destruct (Z_lt_le_dec attempt (maxRetries cfg)) as [L|L].
        -- rewrite loop_retry in Hrun by assumption. cbv zeta in Hrun.
           match type of Hrun with prepend ?t3 (?run) = _ =>
             destruct run as [r1 t2] eqn:Hrest end.
           unfold prepend in Hrun. cbn in Hrun. injection Hrun as <- <-.
           cbn in Hin. destruct Hin as [Hin|Hin].
           { destruct (Hself (eq_sym Hin)) as [A B]. split; intros; exfalso; auto. }
           destruct (IH _ _ _ _ _ _ Hrest Hin) as [A B]. split.
           ++ intros H1 H2. destruct (A H1 H2) as (-> & t' & ->).
              split; [reflexivity|]. eexists (_ :: _ :: _ :: t'). reflexivity.
           ++ intros H1. destruct (B H1) as (-> & (t' & ->) & Hj).
              split; [reflexivity|]. split.
              ** eexists (_ :: _ :: _ :: t'). reflexivity.
              ** intros x [C|[C|[C|C]]]; try discriminate. exact (Hj x C).
        -- rewrite loop_exhausted in Hrun by assumption. cbv zeta in Hrun.
           match type of Hrun with prepend ?t3 (?run) = _ =>
             destruct run as [r1 t2] eqn:Hrest end.
           unfold prepend in Hrun. cbn in Hrun. injection Hrun as <- <-.
           cbn in Hin. destruct Hin as [Hin|Hin].
           { destruct (Hself (eq_sym Hin)) as [A B]. split; intros; exfalso; auto. }
           destruct (IH _ _ _ _ _ _ Hrest Hin) as [A B]. split.
           ++ intros H1 H2. destruct (A H1 H2) as (-> & t' & ->).
              split; [reflexivity|]. eexists (_ :: t'). reflexivity.
           ++ intros H1. destruct (B H1) as (-> & (t' & ->) & Hj).
              split; [reflexivity|]. split.
              ** eexists (_ :: t'). reflexivity.
              ** intros x [C|C]; try discriminate. exact (Hj x C).
      * rewrite loop_api_error in Hrun by assumption. cbv zeta in Hrun.
        injection Hrun as <- <-.
        cbn in Hin. destruct Hin as [<-|[]]. split.
        -- intros _ _. split; [reflexivity|]. exists []. reflexivity.
        -- intros H1. unfold ok in Hok. rewrite H1 in Hok. discriminate.
Qed.

Lemma loop_trace n attempt lastError h r t :
  loop n attempt lastError h = (r, t) ->
  (n = 0%nat /\ t = []) \/ exists resp t1, t = EFetch q resp :: t1.
Proof.
  destruct n as [|n]; intros Hrun.
  - left. rewrite loop_zero in Hrun. injection Hrun as _ <-. split; reflexivity.
  - right. destruct (loop_head _ _ _ _ _ _ Hrun) as [t1 ->]. eauto.
Qed.

(** Every wait of a run follows a fetch and its warning, and lasts what
    [actualDelay] gives for the attempt and the header of that answer. *)
Lemma loop_waits n : forall attempt lastError h r t,
  loop n attempt lastError h = (r, t) ->
  forall t1 resp w d t2,
    t = (t1 ++ EFetch q resp :: EWarn w :: ESleep d :: t2)%list ->
    d = Client.actualDelay this (attempt + Z.of_nat (List.length (responses t1)))
          (Client.retryAfterSeconds resp).
Proof.
  induction n as [|n IH]; intros attempt lastError h r t Hrun t1 resp w d t2 Ht.
  - rewrite loop_zero in Hrun. injection Hrun as _ <-.
    apply nil_eq_app in Ht. destruct Ht as [_ Ht]. discriminate.
  - destruct (ok (serve P h q)) eqn:Hok.
    + destruct (Z.eq_dec (status (serve P h q)) 204) as [E|E].
      * rewrite loop_204 in Hrun by assumption. injection Hrun as _ <-.
        apply cons_eq_app in Ht. destruct Ht as [[_ Ht]|(ta & _ & Ht)].
        -- discriminate.
        -- apply nil_eq_app in Ht. destruct Ht as [_ Ht]. discriminate.
      * rewrite loop_decoded in Hrun by assumption. injection Hrun as _ <-.
        apply cons_eq_app in Ht. destruct Ht as [[_ Ht]|(ta & _ & Ht)].
        -- discriminate.
        -- apply cons_eq_app in Ht. destruct Ht as [[_ Ht]|(tb & _ & Ht)].
           ++ discriminate.
           ++ apply nil_eq_app in Ht. destruct Ht as [_ Ht]. discriminate.
    + destruct (Z.eq_dec (status (serve P h q)) 429) as [E|E].
      * destruct (Z_lt_le_dec attempt (maxRetries cfg)) as [L|L].
        -- rewrite loop_retry in Hrun by assumption. cbv zeta in Hrun.
           match type of Hrun with prepend ?t3 (?run) = _ =>
             destruct run as [r1 tr] eqn:Hrest end.
           unfold prepend in Hrun. cbn in Hrun. injection Hrun as <- <-.
           apply cons_eq_app in Ht. destruct Ht as [[-> Ht]|(ta & -> & Ht)].
           { injection Ht as -> _ -> _. cbn [responses flat_map List.length Z.of_nat].
             rewrite Z.add_0_r. reflexivity. }
           apply cons_eq_app in Ht. destruct Ht as [[-> Ht]|(tb & -> & Ht)].
           { discriminate. }
           apply cons_eq_app in Ht. destruct Ht as [[-> Ht]|(tc & -> & Ht)].
           { discriminate. }
           rewrite (IH _ _ _ _ _ Hrest _ _ _ _ _ Ht).
           unfold responses. cbn [flat_map app List.length].
           f_equal. lia.
        -- rewrite loop_exhausted in Hrun by assumption. cbv zeta in Hrun.
           match type of Hrun with prepend ?t3 (?run) = _ =>
             destruct run as [r1 tr] eqn:Hrest end.
           unfold prepend in Hrun. cbn in Hrun. injection Hrun as <- <-.
           apply cons_eq_app in Ht. destruct Ht as [[-> Ht]|(ta & -> & Ht)].
           { injection Ht as _ Ht. subst tr.
             destruct (loop_trace _ _ _ _ _ _ Hrest) as [[_ Hnil]|(x & y & Hcons)];
               discriminate. }
           rewrite (IH _ _ _ _ _ Hrest _ _ _ _ _ Ht).
           unfold responses. cbn [flat_map app List.length].
           f_equal. lia.
      * rewrite loop_api_error in Hrun by assumption. cbv zeta in Hrun.
        injection Hrun as _ <-.
        apply cons_eq_app in Ht. destruct Ht as [[_ Ht]|(ta & _ & Ht)].
        -- discriminate.
        -- apply cons_eq_app in Ht. destruct Ht as [[_ Ht]|(tb & _ & Ht)].
           ++ discriminate.
           ++ apply nil_eq_app in Ht. destruct Ht as [_ Ht]. discriminate.
Qed.

(** A run whose last event is a fetch answered 429 fails with the rate
    limit error made from that answer. *)
Lemma loop_last_429 n : forall attempt lastError h r t,
  loop n attempt lastError h = (r, t) ->
  forall t' resp,
    t = (t' ++ [EFetch q resp])%list ->
    status resp = 429 ->
    r = Throw (Client.rate_limit_error this (Client.retryAfterSeconds resp)).
Proof.
  induction n as [|n IH]; intros attempt lastError h r t Hrun t' resp Ht Hst.
  - rewrite loop_zero in Hrun. injection Hrun as _ <-.
    apply nil_eq_app in Ht. destruct Ht as [_ Ht]. discriminate.
  - destruct (ok (serve P h q)) eqn:Hok.
    + destruct (Z.eq_dec (status (serve P h q)) 204) as [E|E].
      * rewrite loop_204 in Hrun by assumption. injection Hrun as _ <-.
        apply cons_eq_app in Ht. destruct Ht as [[_ Ht]|(ta & _ & Ht)].
        -- injection Ht as ->. congruence.
        -- apply nil_eq_app in Ht. destruct Ht as [_ Ht]. discriminate.
      * rewrite loop_decoded in Hrun by assumption. injection Hrun as _ <-.
        apply cons_eq_app in Ht. destruct Ht as [[_ Ht]|(ta & _ & Ht)].
        -- discriminate.
        -- apply cons_eq_app in Ht. destruct Ht as [[_ Ht]|(tb & _ & Ht)].
           ++ discriminate.
           ++ apply nil_eq_app in Ht. destruct Ht as [_ Ht]. discriminate.
    + destruct (Z.eq_dec (status (serve P h q)) 429) as [E|E].
      * destruct (Z_lt_le_dec attempt (maxRetries cfg)) as [L|L].
        -- rewrite loop_retry in Hrun by assumption. cbv zeta in Hrun.
           match type of Hrun with prepend ?t3 (?run) = _ =>
             destruct run as [r1 tr] eqn:Hrest end.
           unfold prepend in Hrun. cbn in Hrun. injection Hrun as <- <-.
           apply cons_eq_app in Ht. destruct Ht as [[-> Ht]|(ta & -> & Ht)].
           { discriminate. }
           apply cons_eq_app in Ht. destruct Ht as [[-> Ht]|(tb & -> & Ht)].
           { discriminate. }
           apply cons_eq_app in Ht. destruct Ht as [[-> Ht]|(tc & -> & Ht)].
           { discriminate. }
           exact (IH _ _ _ _ _ Hrest _ _ Ht Hst).
        -- rewrite loop_exhausted in Hrun by assumption. cbv zeta in Hrun.
           match type of Hrun with prepend ?t3 (?run) = _ =>
             destruct run as [r1 tr] eqn:Hrest end.
           unfold prepend in Hrun. cbn in Hrun. injection Hrun as <- <-.
           apply cons_eq_app in Ht. destruct Ht as [[-> Ht]|(ta & -> & Ht)].
           { injection Ht as -> Htr.
             destruct (loop_trace _ _ _ _ _ _ Hrest) as [[-> _]|(x & y & Hcons)].
             - rewrite loop_zero in Hrest. injection Hrest as <- _. reflexivity.
             - rewrite <- Htr in Hcons. discriminate. }
           exact (IH _ _ _ _ _ Hrest _ _ Ht Hst).
      * rewrite loop_api_error in Hrun by assumption. cbv zeta in Hrun.
        injection Hrun as _ <-.
        apply cons_eq_app in Ht. destruct Ht as [[_ Ht]|(ta & _ & Ht)].
        -- discriminate.
        -- apply cons_eq_app in Ht. destruct Ht as [[_ Ht]|(tb & _ & Ht)].
           ++ discriminate.
           ++ apply nil_eq_app in Ht. destruct Ht as [_ Ht]. discriminate.
Qed.

End Executor.

Lemma trips_zero this :
  0 <= maxRetries (retryConfig this) ->
  Client.trips this 0 = S (Z.to_nat (maxRetries (retryConfig this))).
Proof.
  intros H. unfold Client.trips.
  replace (maxRetries (retryConfig this) + 1 - 0)
    with (Z.succ (maxRetries (retryConfig this))) by lia.
  apply Z2Nat.inj_succ. exact H.
Qed.

(** The trip count of the [for] loop agrees with its test: there is an
    attempt left to run exactly when [attempt <= maxRetries]. *)
Lemma trip_count this attempt :
  (0 <? Z.of_nat (Client.trips this attempt))
  = (attempt <=? maxRetries (retryConfig this)).
Proof.
  unfold Client.trips.
  destruct (Z.leb_spec attempt (maxRetries (retryConfig this)));
    destruct (Z.ltb_spec 0
      (Z.of_nat (Z.to_nat (maxRetries (retryConfig this) + 1 - attempt))));
    try reflexivity; lia.
Qed.

Lemma trips_succ this attempt n :
  Client.trips this attempt = S n -> Client.trips this (attempt + 1) = n.
Proof. unfold Client.trips. lia. Qed.

(** C1.  When every attempt of a request is answered 429, [makeRequest]
    issues exactly [maxRetries + 1] requests, all of them the same, and
    then fails with the rate limit error built from the [Retry-After] of
    the last answer; the last event of the run is that last request, so
    nothing is requested after it. *)
Theorem makeRequest_all_429_exhausts
    P this T (decode : string -> JsError + T) endpoint options h r t :
  0 <= maxRetries (retryConfig this) ->
  Client.makeRequest P this decode endpoint options h = (r, t) ->
  Forall (fun resp => status resp = 429) (responses t) ->
  Z.of_nat (List.length (responses t)) = maxRetries (retryConfig this) + 1
  /\ requests t
     = repeat (Client.request_of this endpoint options) (List.length (responses t))
  /\ exists t' final,
       t = (t' ++ [EFetch (Client.request_of this endpoint options) final])%list
       /\ r = Throw (Error
                ("Rate limit exceeded after "
                   ++ Z_to_string (maxRetries (retryConfig this))
                   ++ " retries. Please wait "
                   ++ num_to_string (Client.retryAfterSeconds final)
                   ++ " seconds before trying again.")).
Proof.
  intros Hmax Hrun Hall. unfold Client.makeRequest in Hrun.
  rewrite trips_zero in Hrun by exact Hmax.
  assert (Hn : Z.of_nat (S (Z.to_nat (maxRetries (retryConfig this))))
               = maxRetries (retryConfig this) + 1 - 0)
    by (rewrite Nat2Z.inj_succ, Z2Nat.id by exact Hmax; lia).
  destruct (loop_all_429 P this T decode _ _ _ _ _ _ _ Hn Hrun Hall)
    as (Hlen & Hreq & t' & final & Ht & Hr).
  split; [|split].
  - rewrite Hlen, Nat2Z.inj_succ, Z2Nat.id by exact Hmax. lia.
  - rewrite Hlen. exact Hreq.
  - exists t', final. split; [exact Ht|]. rewrite Hr. reflexivity.
Qed.

Lemma makeRequest_all_429_exhausts_witness :
  let P := Fixtures.platform (Fixtures.scripted [] (Fixtures.r429 "7")) [] in
  let run := Client.makeRequest P Fixtures.client (json_any P) "/tags/" no_options [] in
  Z.of_nat (List.length (responses (snd run))) = 3 + 1
  /\ fst run = Throw (Error
       "Rate limit exceeded after 3 retries. Please wait 7 seconds before trying again.").
Proof.
  intros P run.
  destruct (makeRequest_all_429_exhausts P Fixtures.client JsVal (json_any P)
              "/tags/" no_options [] (fst run) (snd run))
    as (Hlen & _ & t' & final & Ht & Hr).
  - vm_compute. discriminate.
  - apply surjective_pairing.
  - vm_compute. repeat constructor.
  - split; [exact Hlen | vm_compute; reflexivity].
Defined.

(** C2, as the specification states it, fails: with the default
    configuration, a first answer 429 with [Retry-After: 120] makes the
    executor wait 60000 ms, less than the 120000 ms the server asked for,
    although 120000 exceeds the exponential backoff of 1000 ms. *)
Lemma wait_as_specified_fails :
  let P := Fixtures.platform
             (Fixtures.scripted [Fixtures.r429 "120"] Fixtures.r204) [] in
  let run := Client.makeRequest P Fixtures.client (json_any P) "/tags/" no_options [] in
  nth_error (snd run) 2 = Some (ESleep (Num 60000))
  /\ Client.retryAfterSeconds (Fixtures.r429 "120") = Num 120
  /\ ~ wait_as_specified Fixtures.client 0 120 (Num 60000).
Proof.
  split; [vm_compute; reflexivity|]. split; [vm_compute; reflexivity|].
  intros (ms & Hms & Hlow & _). injection Hms as <-.
  vm_compute in Hlow. specialize (Hlow eq_refl). apply Hlow. reflexivity.
Qed.

(** C2, amended.  With a positive [baseDelayMs] and a [maxDelayMs] from 0
    to [2^53], in every run of [makeRequest] the wait that follows an
    answer whose [Retry-After] header reads as the integer [seconds] is
    the number of milliseconds [max(min(seconds * 1000, maxDelayMs),
    min(baseDelayMs * 2^attempt, maxDelayMs))]: it is at least
    [min(seconds * 1000, maxDelayMs)], at least the exponential backoff
    and at most [maxDelayMs]; so it is at least the server's value
    whenever that value does not exceed [maxDelayMs]. *)
Theorem retry_after_wait_bounds
    P this T (decode : string -> JsError + T) endpoint options h r t
    t1 resp w d t2 retryAfter seconds :
  0 < baseDelayMs (retryConfig this) ->
  0 <= maxDelayMs (retryConfig this) <= 2 ^ 53 ->
  Client.makeRequest P this decode endpoint options h = (r, t) ->
  t = (t1 ++ EFetch (Client.request_of this endpoint options) resp
          :: EWarn w :: ESleep d :: t2)%list ->
  headers_get "Retry-After" resp = Some retryAfter ->
  parseInt retryAfter = Num seconds ->
  let attempt := Z.of_nat (List.length (responses t1)) in
  let M := maxDelayMs (retryConfig this) in
  let backoff := Z.min (baseDelayMs (retryConfig this) * 2 ^ attempt) M in
  exists ms,
    d = Num ms
    /\ ms = Z.max (Z.min (seconds * 1000) M) backoff
    /\ Z.min (seconds * 1000) M <= ms
    /\ backoff <= ms
    /\ ms <= M
    /\ (seconds * 1000 <= M -> seconds * 1000 <= ms).
Proof.
  intros Hbase HM Hrun Ht Hget Hparse attempt M backoff.
  pose proof (loop_waits P this T decode _ _ _ _ _ _ _ Hrun _ _ _ _ _ Ht) as Hd.
  rewrite Z.add_0_l in Hd. fold attempt in Hd.
  assert (Hsec : Client.retryAfterSeconds resp = Num seconds).
  { unfold Client.retryAfterSeconds. rewrite Hget.
    destruct retryAfter; [discriminate Hparse | exact Hparse]. }
  rewrite Hsec, (actualDelay_value this Hbase HM) in Hd by (unfold attempt; lia).
  fold M backoff in Hd.
  eexists. split; [exact Hd|]. split; [reflexivity|]. unfold backoff. lia.
Qed.

Lemma retry_after_wait_bounds_witness :
  exists ms,
    Num 7000 = Num ms
    /\ ms = Z.max (Z.min (7 * 1000) 60000) (Z.min (1000 * 2 ^ 0) 60000)
    /\ Z.min (7 * 1000) 60000 <= ms
    /\ Z.min (1000 * 2 ^ 0) 60000 <= ms
    /\ ms <= 60000
    /\ (7 * 1000 <= 60000 -> 7 * 1000 <= ms).
Proof.
  pose (P := Fixtures.platform
               (Fixtures.scripted [Fixtures.r429 "7"] Fixtures.r204) []).
  pose (run := Client.makeRequest P Fixtures.client (json_any P) "/tags/" no_options []).
  pose (q := Client.request_of Fixtures.client "/tags/" no_options).
  exact (retry_after_wait_bounds P Fixtures.client JsVal (json_any P)
           "/tags/" no_options [] (fst run) (snd run)
           [] (Fixtures.r429 "7") "Rate limited. Retrying in 7s (attempt 1/3)..."
           (Num 7000) [EFetch q Fixtures.r204] "7" 7
           ltac:(vm_compute; reflexivity) ltac:(split; vm_compute; discriminate)
           eq_refl eq_refl eq_refl eq_refl).
Defined.

(** C9.  In every run of [makeRequest], an answer that is neither 2xx nor
    429 ends the run: the call fails with the error that carries the
    status code, the status text and the body text, and the run's last
    events are that fetch and the reading of its body, so no retry
    follows.  An answer 204 ends the run with the empty result
    ([undefined]), and the run has decoded no body. *)
Theorem makeRequest_terminal_responses
    P this T (decode : string -> JsError + T) endpoint options h r t resp :
  Client.makeRequest P this decode endpoint options h = (r, t) ->
  In resp (responses t) ->
  (ok resp = false -> status resp <> 429 ->
   r = Throw (Error ("Readwise API error: " ++ Z_to_string (status resp) ++ " "
                       ++ statusText resp ++ " - " ++ body resp))
   /\ exists t',
        t = (t' ++ [EFetch (Client.request_of this endpoint options) resp;
                    EText resp])%list)
  /\ (status resp = 204 ->
      r = Ok None
      /\ (exists t',
            t = (t' ++ [EFetch (Client.request_of this endpoint options) resp])%list)
      /\ forall x, ~ In (EJson x) t).
Proof.
  intros Hrun Hin.
  exact (loop_terminal P this T decode _ _ _ _ _ _ _ _ Hrun Hin).
Qed.

Lemma makeRequest_terminal_responses_witness :
  let P1 := Fixtures.platform
              (Fixtures.scripted [Fixtures.r429 "7"; Fixtures.r500] Fixtures.r204) [] in
  let P2 := Fixtures.platform
              (Fixtures.scripted [Fixtures.r429 "7"; Fixtures.r204] Fixtures.r500) [] in
  fst (Client.makeRequest P1 Fixtures.client (json_any P1) "/tags/" no_options [])
  = Throw (Error "Readwise API error: 500 TXT - boom")
  /\ fst (Client.makeRequest P2 Fixtures.client (json_any P2) "/tags/" no_options [])
     = Ok None.
Proof.
  intros P1 P2. split.
  - pose (run := Client.makeRequest P1 Fixtures.client (json_any P1) "/tags/" no_options []).
    destruct (makeRequest_terminal_responses P1 Fixtures.client JsVal (json_any P1)
                "/tags/" no_options [] (fst run) (snd run) Fixtures.r500)
      as [A _].
    + apply surjective_pairing.
    + vm_compute. right. left. reflexivity.
    + destruct (A eq_refl ltac:(discriminate)) as [Hr _]. exact Hr.
  - pose (run := Client.makeRequest P2 Fixtures.client (json_any P2) "/tags/" no_options []).
    destruct (makeRequest_terminal_responses P2 Fixtures.client JsVal (json_any P2)
                "/tags/" no_options [] (fst run) (snd run) Fixtures.r204)
      as [_ B].
    + apply surjective_pairing.
    + vm_compute. right. left. reflexivity.
    + destruct (B eq_refl) as [Hr _]. exact Hr.
Defined.

(** C10.  In every run of [makeRequest], an answer without a
    [Retry-After] header counts as 60 seconds.  The wait that follows it
    is the larger of [min(60000, maxDelayMs)] and the exponential backoff
    of the attempt, which is [max(min(60000, maxDelayMs), min(baseDelayMs
    * 2^attempt, maxDelayMs))] with a positive [baseDelayMs] and a
    [maxDelayMs] from 0 to [2^53]; and when such an answer 429 is the last
    of the run the error asks to wait 60 seconds. *)
Theorem default_retry_after_60
    P this T (decode : string -> JsError + T) endpoint options h r t :
  Client.makeRequest P this decode endpoint options h = (r, t) ->
  let q := Client.request_of this endpoint options in
  let M := maxDelayMs (retryConfig this) in
  (forall t1 resp w d t2,
      t = (t1 ++ EFetch q resp :: EWarn w :: ESleep d :: t2)%list ->
      headers_get "Retry-After" resp = None ->
      let attempt := Z.of_nat (List.length (responses t1)) in
      d = Math_max (Num (Z.min (60 * 1000) M)) (Client.exponentialDelay this attempt)
      /\ (0 < baseDelayMs (retryConfig this) -> 0 <= M <= 2 ^ 53 ->
          d = Num (Z.max (Z.min (60 * 1000) M)
                     (Z.min (baseDelayMs (retryConfig this) * 2 ^ attempt) M))))
  /\ (forall t' resp,
         t = (t' ++ [EFetch q resp])%list ->
         status resp = 429 ->
         headers_get "Retry-After" resp = None ->
         r = Throw (Error
               ("Rate limit exceeded after "
                  ++ Z_to_string (maxRetries (retryConfig this))
                  ++ " retries. Please wait 60 seconds before trying again."))).
Proof.
  intros Hrun q M. split.
  - intros t1 resp w d t2 Ht Hget attempt.
    pose proof (loop_waits P this T decode _ _ _ _ _ _ _ Hrun _ _ _ _ _ Ht) as Hd.
    rewrite Z.add_0_l in Hd. fold attempt in Hd.
    unfold Client.retryAfterSeconds in Hd. rewrite Hget in Hd. split.
    + rewrite Hd. reflexivity.
    + intros Hbase HM. rewrite Hd.
      apply (actualDelay_value this Hbase HM). unfold attempt. lia.
  - intros t' resp Ht Hst Hget.
    rewrite (loop_last_429 P this T decode _ _ _ _ _ _ _ Hrun _ _ Ht Hst).
    unfold Client.retryAfterSeconds. rewrite Hget. reflexivity.
Qed.

Lemma default_retry_after_60_witness :
  let P := Fixtures.platform (Fixtures.scripted [] Fixtures.r429_bare) [] in
  let run := Client.makeRequest P Fixtures.client (json_any P) "/tags/" no_options [] in
  nth_error (snd run) 2 = Some (ESleep (Num 60000))
  /\ fst run = Throw (Error
       "Rate limit exceeded after 3 retries. Please wait 60 seconds before trying again.").
Proof.
  intros P run.
  destruct (default_retry_after_60 P Fixtures.client JsVal (json_any P)
              "/tags/" no_options [] (fst run) (snd run) (surjective_pairing run))
    as [A B].
  split.
  - destruct (A [] Fixtures.r429_bare
                "Rate limited. Retrying in 60s (attempt 1/3)..."
                (Num 60000) (skipn 3 (snd run)) eq_refl eq_refl) as [_ A2].
    rewrite (A2 ltac:(vm_compute; reflexivity) ltac:(split; vm_compute; discriminate)).
    reflexivity.
  - exact (B (firstn 9 (snd run)) Fixtures.r429_bare eq_refl eq_refl eq_refl).
Defined.


(** With no retry allowed, one answer 429 ends the call; with a negative
    [maxRetries] the loop does not run and no request is made; a
    [Retry-After] that is not a number makes the wait [NaN]. *)
Example makeRequest_edge_runs :
  let P := Fixtures.platform (Fixtures.scripted [] (Fixtures.r429 "soon")) [] in
  Client.makeRequest P Fixtures.impatient (json_any P) "/tags/" no_options []
  = (Throw (Error
       "Rate limit exceeded after 0 retries. Please wait NaN seconds before trying again."),
     [EFetch (Client.request_of Fixtures.impatient "/tags/" no_options)
        (Fixtures.r429 "soon")])
  /\ Client.makeRequest P Fixtures.negative (json_any P) "/tags/" no_options []
     = (Throw (Error "Request failed"), [])
  /\ nth_error
       (snd (Client.makeRequest P Fixtures.client (json_any P) "/tags/" no_options []))
       2
     = Some (ESleep NaN).
Proof. repeat split; vm_compute; reflexivity. Qed.
(** ** More on [makeRequest] *)

Section ExecutorMore.

Variable P : Platform.
Variable this : ReadwiseClient.
Variable T : Type.
Variable decode : string -> JsError + T.
Variable q : Request.

Local Notation "'cfg'" := (retryConfig this).
Local Notation "'loop'" := (Client.attempt_loop P this decode q).

(** The five ways one iteration can go, as one case analysis. *)
Lemma loop_cases n attempt lastError h :
  let resp := serve P h q in
  (ok resp = true /\ status resp = 204
   /\ loop (S n) attempt lastError h = (Ok None, [EFetch q resp]))
  \/ (ok resp = true /\ status resp <> 204
      /\ loop (S n) attempt lastError h
         = (match decode (body resp) with
            | inr v => Ok (Some v)
            | inl e => Throw e
            end, [EFetch q resp; EJson resp]))
  \/ (status resp = 429 /\ attempt < maxRetries cfg
      /\ loop (S n) attempt lastError h
         = prepend [EFetch q resp;
                    EWarn (Client.retry_warning this attempt (Client.retryAfterSeconds resp));
                    ESleep (Client.actualDelay this attempt (Client.retryAfterSeconds resp))]
             (loop n (attempt + 1) lastError
                (h ++ [EFetch q resp;
                       EWarn (Client.retry_warning this attempt (Client.retryAfterSeconds resp));
                       ESleep (Client.actualDelay this attempt (Client.retryAfterSeconds resp))])%list))
  \/ (status resp = 429 /\ maxRetries cfg <= attempt
      /\ loop (S n) attempt lastError h
         = prepend [EFetch q resp]
             (loop n (attempt + 1)
                (Some (Client.rate_limit_error this (Client.retryAfterSeconds resp)))
                (h ++ [EFetch q resp])%list))
  \/ (ok resp = false /\ status resp <> 429
      /\ loop (S n) attempt lastError h
         = (Throw (Client.api_error resp (body resp)), [EFetch q resp; EText resp])).
Proof.
  cbv zeta. destruct (ok (serve P h q)) eqn:Hok.
  - destruct (Z.eq_dec (status (serve P h q)) 204) as [E|E].
    + left. repeat split; try assumption. apply loop_204; assumption.
    + right; left. repeat split; try assumption. apply loop_decoded; assumption.
  - destruct (Z.eq_dec (status (serve P h q)) 429) as [E|E].
    + destruct (Z_lt_le_dec attempt (maxRetries cfg)) as [L|L].
      * right; right; left. repeat split; try assumption.
        apply (loop_retry P this T decode q); assumption.
      * right; right; right; left. repeat split; try assumption.
        apply (loop_exhausted P this T decode q); assumption.
    + right; right; right; right. repeat split; try assumption.
      apply (loop_api_error P this T decode q); assumption.
Qed.

Lemma loop_requests n : forall attempt lastError h r t,
  loop n attempt lastError h = (r, t) ->
  requests t = repeat q (List.length (responses t))
  /\ (List.length (responses t) <= n)%nat.
Proof.
  induction n as [|n IH]; intros attempt lastError h r t Hrun.
  - rewrite loop_zero in Hrun. injection Hrun as _ <-. split; [reflexivity | apply le_n].
  - destruct (loop_cases n attempt lastError h)
      as [(_ & _ & E)|[(_ & _ & E)|[(_ & _ & E)|[(_ & _ & E)|(_ & _ & E)]]]];
      rewrite E in Hrun; clear E.
    + injection Hrun as _ <-. cbn. split; [reflexivity | lia].
    + injection Hrun as _ <-. cbn. split; [reflexivity | lia].
    + match type of Hrun with prepend ?t3 (?run) = _ =>
        destruct run as [r1 tr] eqn:Hrest end.
      unfold prepend in Hrun. cbn in Hrun. injection Hrun as _ <-.
      destruct (IH _ _ _ _ _ Hrest) as [Hreq Hlen].
      unfold requests, responses in *. cbn [flat_map app List.length repeat].
      rewrite Hreq. split; [reflexivity | lia].
    + match type of Hrun with prepend ?t3 (?run) = _ =>
        destruct run as [r1 tr] eqn:Hrest end.
      unfold prepend in Hrun. cbn in Hrun. injection Hrun as _ <-.
      destruct (IH _ _ _ _ _ Hrest) as [Hreq Hlen].
      unfold requests, responses in *. cbn [flat_map app List.length repeat].
      rewrite Hreq. split; [reflexivity | lia].
    + injection Hrun as _ <-. cbn. split; [reflexivity | lia].
Qed.

(** Under the trip count of the source, every answer of a run but the
    last is a 429, and the run has one warning and one wait for each of
    them. *)
Lemma loop_retried n : forall attempt lastError h r t,
  n = Client.trips this attempt ->
  loop n attempt lastError h = (r, t) ->
  (forall rs final, responses t = (rs ++ [final])%list ->
                    Forall (fun resp => status resp = 429) rs)
  /\ List.length (waits t) = Nat.pred (List.length (responses t))
  /\ List.length (warnings t) = Nat.pred (List.length (responses t)).
Proof.
  induction n as [|n IH]; intros attempt lastError h r t Hn Hrun.
  - rewrite loop_zero in Hrun. injection Hrun as _ <-. split; [|split; reflexivity].
    intros rs final H. destruct rs; discriminate H.
  - assert (Hone : forall x (rs : list Response) final,
               [x] = (rs ++ [final])%list -> rs = []).
    { intros x rs final H. destruct rs as [|y [|z rs]]; [reflexivity | discriminate H..]. }
    destruct (loop_cases n attempt lastError h)
      as [(_ & _ & E)|[(_ & _ & E)|[(H429 & Hlt & E)|[(H429 & Hge & E)|(_ & _ & E)]]]];
      rewrite E in Hrun; clear E.
    + injection Hrun as _ <-. split; [|split; reflexivity].
      intros rs final H. rewrite (Hone _ _ _ H). constructor.
    + injection Hrun as _ <-. split; [|split; reflexivity].
      intros rs final H. rewrite (Hone _ _ _ H). constructor.
    + match type of Hrun with prepend ?t3 (?run) = _ =>
        destruct run as [r1 tr] eqn:Hrest end.
      unfold prepend in Hrun. cbn in Hrun. injection Hrun as _ <-.
      assert (Hn' : n = Client.trips this (attempt + 1))
        by (unfold Client.trips in *; lia).
      destruct (IH _ _ _ _ _ Hn' Hrest) as (Hall & Hw & Hv).
      assert (Hpos : (0 < List.length (responses tr))%nat).
      { destruct n as [|n']; [unfold Client.trips in *; lia|].
        destruct (loop_head _ _ _ _ _ _ _ _ _ _ _ Hrest) as [t1 ->]. cbn. lia. }
      unfold waits, warnings, responses in *.
      cbn [flat_map app List.length]. split; [|split; lia].
      intros rs final H. destruct rs as [|x rs].
      * cbn in H. injection H as _ H. rewrite H in Hpos. cbn in Hpos. lia.
      * cbn in H. injection H as <- H. constructor; [exact H429 | exact (Hall _ _ H)].
    + assert (n = 0%nat) by (unfold Client.trips in *; lia). subst n.
      rewrite loop_zero in Hrun. unfold prepend in Hrun. cbn in Hrun.
      injection Hrun as _ <-. split; [|split; reflexivity].
      intros rs final H. rewrite (Hone _ _ _ H). constructor.
    + injection Hrun as _ <-. split; [|split; reflexivity].
      intros rs final H. rewrite (Hone _ _ _ H). constructor.
Qed.

(** Where a value comes from. *)
Lemma loop_value n : forall attempt lastError h v t,
  loop n attempt lastError h = (Ok v, t) ->
  exists t' resp,
    ok resp = true
    /\ ((status resp = 204 /\ v = None /\ t = (t' ++ [EFetch q resp])%list)
        \/ (status resp <> 204
            /\ t = (t' ++ [EFetch q resp; EJson resp])%list
            /\ exists x, v = Some x /\ decode (body resp) = inr x)).
Proof.
  induction n as [|n IH]; intros attempt lastError h v t Hrun.
  - rewrite loop_zero in Hrun. discriminate.
  - destruct (loop_cases n attempt lastError h)
      as [(Hok & Hst & E)|[(Hok & Hst & E)|[(_ & _ & E)|[(_ & _ & E)|(_ & _ & E)]]]];
      rewrite E in Hrun; clear E.
    + injection Hrun as <- <-. exists [], (serve P h q). split; [exact Hok|].
      left. repeat split. exact Hst.
    + destruct (decode (body (serve P h q))) as [e|x] eqn:Hd; [discriminate|].
      injection Hrun as <- <-. exists [], (serve P h q). split; [exact Hok|].
      right. repeat split; [exact Hst|]. exists x. split; [reflexivity | exact Hd].
    + match type of Hrun with prepend ?t3 (?run) = _ =>
        destruct run as [r1 tr] eqn:Hrest end.
      unfold prepend in Hrun. cbn in Hrun. injection Hrun as -> <-.
      destruct (IH _ _ _ _ _ Hrest) as (t' & resp & Hok & H).
      eexists (_ :: _ :: _ :: t'), resp. split; [exact Hok|].
      destruct H as [(A & B & ->)|(A & -> & B)]; [left | right]; repeat split; assumption.
    + match type of Hrun with prepend ?t3 (?run) = _ =>
        destruct run as [r1 tr] eqn:Hrest end.
      unfold prepend in Hrun. cbn in Hrun. injection Hrun as -> <-.
      destruct (IH _ _ _ _ _ Hrest) as (t' & resp & Hok & H).
      eexists (_ :: t'), resp. split; [exact Hok|].
      destruct H as [(A & B & ->)|(A & -> & B)]; [left | right]; repeat split; assumption.
    + discriminate.
Qed.

(** The ways a call started by [makeRequest] can fail. *)
Lemma loop_failure n : forall attempt h e t,
  n = Client.trips this attempt ->
  loop n attempt None h = (Throw e, t) ->
  (t = [] /\ maxRetries cfg < attempt /\ e = Error "Request failed")
  \/ exists t' resp,
       (status resp = 429
        /\ t = (t' ++ [EFetch q resp])%list
        /\ e = Client.rate_limit_error this (Client.retryAfterSeconds resp))
       \/ (ok resp = false /\ status resp <> 429
           /\ t = (t' ++ [EFetch q resp; EText resp])%list
           /\ e = Client.api_error resp (body resp))
       \/ (ok resp = true /\ status resp <> 204
           /\ t = (t' ++ [EFetch q resp; EJson resp])%list
           /\ decode (body resp) = inl e).
Proof.
  induction n as [|n IH]; intros attempt h e t Hn Hrun.
  - rewrite loop_zero in Hrun. injection Hrun as <- <-. left.
    repeat split. unfold Client.trips in Hn. lia.
  - right.
    destruct (loop_cases n attempt None h)
      as [(Hok & Hst & E)|[(Hok & Hst & E)|[(H429 & Hlt & E)|[(H429 & Hge & E)|(Hok & Hst & E)]]]];
      rewrite E in Hrun; clear E.
    + discriminate.
    + destruct (decode (body (serve P h q))) as [e'|x] eqn:Hd; [|discriminate].
      injection Hrun as <- <-. exists [], (serve P h q). right; right.
      repeat split; assumption.
    + match type of Hrun with prepend ?t3 (?run) = _ =>
        destruct run as [r1 tr] eqn:Hrest end.
      unfold prepend in Hrun. cbn in Hrun. injection Hrun as -> <-.
      assert (Hn' : n = Client.trips this (attempt + 1))
        by (unfold Client.trips in *; lia).
      destruct (IH _ _ _ _ Hn' Hrest) as [(_ & Hlt' & _)|(t' & resp & H)]; [lia|].
      eexists (_ :: _ :: _ :: t'), resp.
      destruct H as [(A & -> & B)|[(A & A' & -> & B)|(A & A' & -> & B)]];
        [left | right; left | right; right]; repeat split; assumption.
    + assert (n = 0%nat) by (unfold Client.trips in *; lia). subst n.
      rewrite loop_zero in Hrun. unfold prepend in Hrun. cbn in Hrun.
      injection Hrun as <- <-. exists [], (serve P h q). left.
      repeat split. exact H429.
    + injection Hrun as <- <-. exists [], (serve P h q). right; left.
      repeat split; assumption.
Qed.

End ExecutorMore.

Lemma removelast_cons2 {A} (x y : A) l : removelast (x :: y :: l) = x :: removelast (y :: l).
Proof. reflexivity. Qed.

Lemma loop_wait_schedule P this T (decode : string -> JsError + T) q n :
  forall attempt lastError h r t,
    n = Client.trips this attempt ->
    Client.attempt_loop P this decode q n attempt lastError h = (r, t) ->
    waits t = waits_of this attempt (removelast (responses t)).
Proof.
  induction n as [|n IH]; intros attempt lastError h r t Hn Hrun.
  - rewrite loop_zero in Hrun. injection Hrun as _ <-. reflexivity.
  - destruct (loop_cases P this T decode q n attempt lastError h)
      as [(_ & _ & E)|[(_ & _ & E)|[(H429 & Hlt & E)|[(H429 & Hge & E)|(_ & _ & E)]]]];
      rewrite E in Hrun; clear E.
    + injection Hrun as _ <-. reflexivity.
    + injection Hrun as _ <-. reflexivity.
    + match type of Hrun with prepend ?t3 (?run) = _ =>
        destruct run as [r1 tr] eqn:Hrest end.
      unfold prepend in Hrun. cbn in Hrun. injection Hrun as _ <-.
      assert (Hn' : n = Client.trips this (attempt + 1))
        by (unfold Client.trips in *; lia).
      pose proof (IH _ _ _ _ _ Hn' Hrest) as Hw.
      destruct n as [|n']; [unfold Client.trips in *; lia|].
      destruct (loop_head _ _ _ _ _ _ _ _ _ _ _ Hrest) as [t1 ->].
      unfold waits, responses in *. cbn [flat_map app] in *.
      rewrite removelast_cons2. cbn [waits_of]. f_equal. exact Hw.
    + assert (n = 0%nat) by (unfold Client.trips in *; lia). subst n.
      rewrite loop_zero in Hrun. unfold prepend in Hrun. cbn in Hrun.
      injection Hrun as _ <-. reflexivity.
    + injection Hrun as _ <-. reflexivity.
Qed.

Lemma requests_of_makeRequest P this T (decode : string -> JsError + T)
    endpoint options h :
  let t := snd (Client.makeRequest P this decode endpoint options h) in
  requests t = repeat (Client.request_of this endpoint options) (List.length (responses t)).
Proof.
  cbv zeta. unfold Client.makeRequest.
  destruct (Client.attempt_loop P this decode (Client.request_of this endpoint options)
              (Client.trips this 0) 0 None h) as [r t] eqn:Hrun.
  exact (proj1 (loop_requests P this T decode _ _ _ _ _ _ _ Hrun)).
Qed.

Lemma makeRequest_fetch_count P this T (decode : string -> JsError + T)
    endpoint options h :
  0 <= maxRetries (retryConfig this) ->
  (1 <= List.length (responses (snd (Client.makeRequest P this decode endpoint options h)))
   <= Z.to_nat (maxRetries (retryConfig this) + 1))%nat.
Proof.
  intros Hmax. unfold Client.makeRequest.
  destruct (Client.attempt_loop P this decode (Client.request_of this endpoint options)
              (Client.trips this 0) 0 None h) as [r t] eqn:Hrun.
  cbn [snd]. split.
  - rewrite trips_zero in Hrun by exact Hmax.
    destruct (loop_head _ _ _ _ _ _ _ _ _ _ _ Hrun) as [t1 ->]. cbn. lia.
  - destruct (loop_requests P this T decode _ _ _ _ _ _ _ Hrun) as [_ Hlen].
    unfold Client.trips in Hlen. replace (maxRetries (retryConfig this) + 1 - 0)
      with (maxRetries (retryConfig this) + 1) in Hlen by lia. exact Hlen.
Qed.

(** ** Objects *)

Lemma obj_has_delete {V} k (o : obj V) : obj_has k (obj_delete k o) = false.
Proof.
  induction o as [|[k' v] o IH]; cbn; [reflexivity|].
  destruct (String.eqb k k') eqn:E; cbn; [exact IH|]. rewrite E. exact IH.
Qed.


Lemma obj_lookup_delete_other {V} k k' (o : obj V) :
  k <> k' -> obj_lookup k (obj_delete k' o) = obj_lookup k o.
Proof.
  intros N. induction o as [|[k0 v] o IH]; cbn; [reflexivity|].
  destruct (String.eqb k' k0) eqn:E'.
  - apply String.eqb_eq in E'. subst k0.
    destruct (String.eqb k k') eqn:E; [apply String.eqb_eq in E; contradiction|].
    exact IH.
  - cbn. rewrite IH. reflexivity.
Qed.

Lemma obj_lookup_replace_other {V} k k' (v : V) (o : obj V) :
  k <> k' -> obj_lookup k (obj_replace k' v o) = obj_lookup k o.
Proof.
  intros N. induction o as [|[k0 v0] o IH]; cbn; [reflexivity|].
  destruct (String.eqb k' k0) eqn:E'; cbn.
  - apply String.eqb_eq in E'. subst k0.
    destruct (String.eqb k k') eqn:E; [apply String.eqb_eq in E; contradiction|].
    reflexivity.
  - rewrite IH. reflexivity.
Qed.

Lemma obj_lookup_app_other {V} k k' (v : V) (o : obj V) :
  k <> k' -> obj_lookup k (o ++ [(k', v)])%list = obj_lookup k o.
Proof.
  intros N. induction o as [|[k0 v0] o IH]; cbn.
  - destruct (String.eqb k k') eqn:E; [apply String.eqb_eq in E; contradiction|].
    reflexivity.
  - rewrite IH. reflexivity.
Qed.

Lemma obj_lookup_set_other {V} k k' (v : V) (o : obj V) :
  k <> k' -> obj_lookup k (obj_set k' v o) = obj_lookup k o.
Proof.
  intros N. unfold obj_set. destruct (obj_has k' o).
  - apply obj_lookup_replace_other. exact N.
  - apply obj_lookup_app_other. exact N.
Qed.

Lemma obj_lookup_replace_same {V} k (v : V) (o : obj V) :
  obj_has k o = true -> obj_lookup k (obj_replace k v o) = Some v.
Proof.
  induction o as [|[k0 v0] o IH]; cbn; [discriminate|].
  destruct (String.eqb k k0) eqn:E; cbn; rewrite E; [reflexivity | exact IH].
Qed.

Lemma obj_lookup_app_same {V} k (v : V) (o : obj V) :
  obj_has k o = false -> obj_lookup k (o ++ [(k, v)])%list = Some v.
Proof.
  induction o as [|[k0 v0] o IH]; cbn.
  - rewrite String.eqb_refl. reflexivity.
  - destruct (String.eqb k k0) eqn:E; [discriminate | exact IH].
Qed.

Lemma obj_lookup_set_same {V} k (v : V) (o : obj V) :
  obj_lookup k (obj_set k v o) = Some v.
Proof.
  unfold obj_set. destruct (obj_has k o) eqn:E.
  - apply obj_lookup_replace_same. exact E.
  - apply obj_lookup_app_same. exact E.
Qed.

Lemma obj_get_set_same k v (o : obj JsVal) : obj_get k (obj_set k v o) = v.
Proof. unfold obj_get. rewrite obj_lookup_set_same. reflexivity. Qed.

Lemma obj_get_set_other k k' v (o : obj JsVal) :
  k <> k' -> obj_get k (obj_set k' v o) = obj_get k o.
Proof. intros N. unfold obj_get. rewrite obj_lookup_set_other by exact N. reflexivity. Qed.

Lemma obj_get_delete_other k k' (o : obj JsVal) :
  k <> k' -> obj_get k (obj_delete k' o) = obj_get k o.
Proof. intros N. unfold obj_get. rewrite obj_lookup_delete_other by exact N. reflexivity. Qed.

Lemma obj_has_lookup {V} k (o : obj V) :
  obj_has k o = match obj_lookup k o with Some _ => true | None => false end.
Proof.
  induction o as [|[k0 v0] o IH]; cbn; [reflexivity|].
  destruct (String.eqb k k0); [reflexivity | exact IH].
Qed.

Lemma obj_has_set {V} k k' (v : V) (o : obj V) :
  obj_has k (obj_set k' v o) = (String.eqb k k' || obj_has k o)%bool.
Proof.
  destruct (String.eqb k k') eqn:E.
  - apply String.eqb_eq in E. subst k'.
    rewrite obj_has_lookup, obj_lookup_set_same. reflexivity.
  - apply String.eqb_neq in E.
    rewrite !obj_has_lookup, obj_lookup_set_other by exact E. reflexivity.
Qed.

Lemma obj_has_keys {V} k (f : string -> V) keys :
  obj_has k (map (fun x => (x, f x)) keys) = existsb (String.eqb k) keys.
Proof.
  induction keys as [|x keys IH]; cbn; [reflexivity|].
  destruct (String.eqb k x); [reflexivity | exact IH].
Qed.

(** The query of the stripped object is the query of the object without
    the pairs of the deleted key. *)
Lemma query_entries_delete k (o : Params) :
  Client.query_entries (obj_delete k o)
  = filter (fun kv => negb (String.eqb k (fst kv))) (Client.query_entries o).
Proof.
  unfold Client.query_entries.
  induction o as [|[k0 v] o IH]; [reflexivity|].
  cbn [obj_delete flat_map fst snd]. rewrite filter_app.
  destruct (String.eqb k k0) eqn:E.
  - rewrite IH. destruct (defined v); cbn [filter fst negb app]; [rewrite E|]; reflexivity.
  - cbn [flat_map fst snd]. rewrite IH.
    destruct (defined v); cbn [filter fst negb app]; [rewrite E|]; reflexivity.
Qed.

(** ** [listDocuments] *)

Lemma query_entries_spec (o : Params) : Client.query_entries o = sent_pairs o.
Proof.
  unfold Client.query_entries, sent_pairs.
  induction o as [|[k v] o IH]; [reflexivity|].
  cbn [flat_map filter fst snd]. rewrite IH.
  destruct (defined v); reflexivity.
Qed.

Lemma list_endpoint_spec P (o : Params) :
  Client.list_endpoint P o = "/list/" ++ list_query P o.
Proof. unfold Client.list_endpoint, list_query. rewrite query_entries_spec. reflexivity. Qed.

(** What a listing sends is the request of its parameters, once for each
    answer it receives. *)
Lemma list_requests P this (o : Params) h r t :
  Client.makeRequest P this (json_list P) ("/list/" ++ list_query P o) no_options h
  = (r, t) ->
  requests t = repeat (list_request P this o) (List.length (responses t)).
Proof.
  intros Hrun.
  pose proof (requests_of_makeRequest P this _ (json_list P)
                ("/list/" ++ list_query P o) no_options h) as H.
  cbv zeta in H. rewrite Hrun in H. exact H.
Qed.

Lemma sent_pairs_app (o1 o2 : Params) :
  sent_pairs (o1 ++ o2)%list = (sent_pairs o1 ++ sent_pairs o2)%list.
Proof. unfold sent_pairs. rewrite filter_app, map_app. reflexivity. Qed.

Lemma sent_pairs_delete k (o : Params) :
  sent_pairs (obj_delete k o)
  = filter (fun kv => negb (String.eqb k (fst kv))) (sent_pairs o).
Proof. rewrite <- !query_entries_spec. apply query_entries_delete. Qed.

(** Setting a key to a value that is not [undefined] puts its pair in the
    query and leaves the pairs of the other keys as they are. *)
Lemma sent_pairs_set k v (o : Params) :
  defined v = true ->
  In (k, js_String v) (sent_pairs (obj_set k v o))
  /\ filter (fun kv => negb (String.eqb k (fst kv))) (sent_pairs (obj_set k v o))
     = filter (fun kv => negb (String.eqb k (fst kv))) (sent_pairs o).
Proof.
  intros Hv. unfold obj_set. destruct (obj_has k o) eqn:Hhas.
  - induction o as [|[k' v'] o IH]; [discriminate Hhas|].
    cbn [obj_has obj_replace] in *. destruct (String.eqb k k') eqn:E.
    + apply String.eqb_eq in E. subst k'.
      unfold sent_pairs. cbn [filter map fst snd]. rewrite Hv.
      cbn [map fst snd]. split; [left; reflexivity|].
      cbn [filter fst]. rewrite String.eqb_refl. cbn [negb].
      destruct (defined v'); [|reflexivity].
      cbn [map filter fst snd]. rewrite String.eqb_refl. reflexivity.
    + destruct (IH Hhas) as [Hin Hfil].
      unfold sent_pairs in *. cbn [filter map fst snd].
      destruct (defined v'); cbn [map filter fst snd].
      * split; [right; exact Hin|]. rewrite E. cbn [negb]. rewrite Hfil. reflexivity.
      * split; [exact Hin | exact Hfil].
  - rewrite sent_pairs_app. unfold sent_pairs at 2 4. cbn [filter map fst snd].
    rewrite Hv. cbn [map fst snd]. split; [apply in_or_app; right; left; reflexivity|].
    rewrite filter_app. cbn [filter fst]. rewrite String.eqb_refl. cbn [negb].
    apply app_nil_r.
Qed.

(** C3.  With [withFullContent] requested, [listDocuments] first sends
    the query of its parameters without [withFullContent] and
    [withHtmlContent], the other pairs unchanged, and reads the count [c]
    of the answer.  Then: with [c <= 5] it sends the query of the
    caller's parameters, full content included, and returns the answer
    with no message; with [5 < c <= 20] it sends the query of the
    parameters with [limit] set to 5, the pairs of the other keys (full
    content among them) unchanged, and returns the answer with one INFO
    message that names the [c - 5] remaining documents; with [20 < c] it
    sends that same query and returns the answer with one ERROR message
    about the limit of 20, and the call still succeeds.  In each case the
    run is the count request followed by that one request, each sent to
    [/list/] with its query once for each answer received. *)
Theorem listDocuments_full_content_guard P this (params : Params) h cr t1 :
  let counted := obj_delete "withHtmlContent" (obj_delete "withFullContent" params) in
  let limited := obj_set "limit" (VNum (Num 5)) params in
  let answer := fun (o : Params) h' =>
    Client.makeRequest P this (json_list P) ("/list/" ++ list_query P o) no_options h' in
  let sent := fun (o : Params) (t : list Event) =>
    requests t = repeat (list_request P this o) (List.length (responses t)) in
  truthy (obj_get "withFullContent" params) = true ->
  answer counted h = (Ok (Some cr), t1) ->
  let c := count cr in
  (sent_pairs counted
   = filter (fun kv => negb (String.eqb "withHtmlContent" (fst kv)))
       (filter (fun kv => negb (String.eqb "withFullContent" (fst kv)))
          (sent_pairs params))
   /\ In ("limit", "5") (sent_pairs limited)
   /\ filter (fun kv => negb (String.eqb "limit" (fst kv))) (sent_pairs limited)
      = filter (fun kv => negb (String.eqb "limit" (fst kv))) (sent_pairs params)
   /\ sent counted t1)
  /\ (c <= 5 ->
      forall result t2,
        answer params (h ++ t1)%list = (Ok result, t2) ->
        Client.listDocuments P this params h
        = (Ok {| data := result; messages := None |}, (t1 ++ t2)%list)
        /\ sent params t2)
  /\ (5 < c <= 20 ->
      forall result t2,
        answer limited (h ++ t1)%list = (Ok result, t2) ->
        Client.listDocuments P this params h
        = (Ok {| data := result;
                 messages := Some
                   [{| type := info;
                       content :=
                         "Found " ++ Z_to_string c
                           ++ " documents, but only returning the first 5 due to full content request. To get the remaining "
                           ++ Z_to_string (c - 5)
                           ++ " documents with full content, you can fetch them individually by their IDs using the update/read document API." |}] |},
           (t1 ++ t2)%list)
        /\ sent limited t2)
  /\ (20 < c ->
      forall result t2,
        answer limited (h ++ t1)%list = (Ok result, t2) ->
        Client.listDocuments P this params h
        = (Ok {| data := result;
                 messages := Some
                   [{| type := error;
                       content :=
                         "Found " ++ Z_to_string c
                           ++ " documents, but only returning the first 5 due to full content request. Getting full content for more than 20 documents is not supported due to performance limitations." |}] |},
           (t1 ++ t2)%list)
        /\ sent limited t2).
Proof.
  intros counted limited answer sent Hfull Hcount c.
  assert (Hrun :
             Client.listDocuments P this params h
             = prepend t1
                 ((if c >? 5 then
                     bind (answer limited)
                       (fun result =>
                          ret (createResponse result
                                 (Some [if c <=? 20 then Client.limited_info c
                                        else Client.limited_error c])))
                   else bind (answer params) (fun result => ret (createResponse result None)))
                    (h ++ t1)%list)).
  { unfold Client.listDocuments, Client.plain_list. rewrite Hfull.
    unfold Client.countParams, Client.limitedParams. rewrite !list_endpoint_spec.
    fold counted. fold limited.
    change (Client.makeRequest P this (json_list P) ("/list/" ++ list_query P counted)
              no_options) with (answer counted).
    rewrite (bind_ok _ _ _ _ _ Hcount). reflexivity. }
  split; [|split; [|split]].
  - split; [|split; [|split]].
    + unfold counted. rewrite !sent_pairs_delete. reflexivity.
    + exact (proj1 (sent_pairs_set "limit" (VNum (Num 5)) params eq_refl)).
    + exact (proj2 (sent_pairs_set "limit" (VNum (Num 5)) params eq_refl)).
    + exact (list_requests _ _ _ _ _ _ Hcount).
  - intros Hc result t2 H2. split; [|exact (list_requests _ _ _ _ _ _ H2)].
    rewrite Hrun.
    replace (c >? 5) with false by (symmetry; rewrite Z.gtb_ltb; apply Z.ltb_ge; lia).
    rewrite (bind_ok _ _ _ _ _ H2). unfold prepend, ret. cbn.
    rewrite app_nil_r. reflexivity.
  - intros Hc result t2 H2. split; [|exact (list_requests _ _ _ _ _ _ H2)].
    rewrite Hrun.
    replace (c >? 5) with true by (symmetry; rewrite Z.gtb_ltb; apply Z.ltb_lt; lia).
    replace (c <=? 20) with true by (symmetry; apply Z.leb_le; lia).
    rewrite (bind_ok _ _ _ _ _ H2). unfold prepend, ret. cbn.
    rewrite app_nil_r. reflexivity.
  - intros Hc result t2 H2. split; [|exact (list_requests _ _ _ _ _ _ H2)].
    rewrite Hrun.
    replace (c >? 5) with true by (symmetry; rewrite Z.gtb_ltb; apply Z.ltb_lt; lia).
    replace (c <=? 20) with false by (symmetry; apply Z.leb_gt; lia).
    rewrite (bind_ok _ _ _ _ _ H2). unfold prepend, ret. cbn.
    rewrite app_nil_r. reflexivity.
Qed.

Lemma listDocuments_full_content_guard_witness :
  let params := [("location", VStr "new"); ("withFullContent", VBool true);
                 ("withHtmlContent", VBool true)] : Params in
  let run := Client.listDocuments Fixtures.fifteen Fixtures.client params [] in
  fst run
  = Ok {| data := Some (Fixtures.page 15 (Some "more") [Fixtures.doc_saved "a" "1"]);
          messages := Some
            [{| type := info;
                content := "Found 15 documents, but only returning the first 5 due to full content request. To get the remaining 10 documents with full content, you can fetch them individually by their IDs using the update/read document API." |}] |}
  /\ map req_url (requests (snd run))
     = ["https://readwise.io/api/v3/list/?location=new";
        "https://readwise.io/api/v3/list/?location=new&withFullContent=true&withHtmlContent=true&limit=5"].
Proof.
  intros params run.
  pose (P := Fixtures.fifteen).
  pose (t1 := snd (Client.makeRequest P Fixtures.client (json_list P)
                     ("/list/" ++ list_query P
                                    (obj_delete "withHtmlContent"
                                       (obj_delete "withFullContent" params)))
                     no_options [])).
  pose (t2 := snd (Client.makeRequest P Fixtures.client (json_list P)
                     ("/list/" ++ list_query P (obj_set "limit" (VNum (Num 5)) params))
                     no_options ([] ++ t1)%list)).
  destruct (listDocuments_full_content_guard P Fixtures.client params []
              (Fixtures.page 15 None []) t1 eq_refl eq_refl)
    as (_ & _ & Hmid & _).
  destruct (Hmid ltac:(split; vm_compute; [reflexivity | discriminate])
              (Some (Fixtures.page 15 (Some "more") [Fixtures.doc_saved "a" "1"]))
              t2 eq_refl) as [Hrun _].
  unfold run. fold P. rewrite Hrun. cbn [fst snd].
  split; [reflexivity | vm_compute; reflexivity].
Defined.

(** The three cases of the guard on the listings of 3, 15 and 25
    documents: the query of each request, and the messages. *)
Example guard_three_cases :
  let params := [("location", VStr "new"); ("withFullContent", VBool true);
                 ("withHtmlContent", VBool true)] : Params in
  let urls := fun P =>
    map req_url (requests (snd (Client.listDocuments P Fixtures.client params []))) in
  let kinds := fun P =>
    match fst (Client.listDocuments P Fixtures.client params []) with
    | Ok response => option_map (map type) (messages response)
    | _ => None
    end in
  urls Fixtures.three
  = ["https://readwise.io/api/v3/list/?location=new";
     "https://readwise.io/api/v3/list/?location=new&withFullContent=true&withHtmlContent=true"]
  /\ kinds Fixtures.three = None
  /\ urls Fixtures.fifteen
     = ["https://readwise.io/api/v3/list/?location=new";
        "https://readwise.io/api/v3/list/?location=new&withFullContent=true&withHtmlContent=true&limit=5"]
  /\ kinds Fixtures.fifteen = Some [info]
  /\ urls Fixtures.twenty_five = urls Fixtures.fifteen
  /\ kinds Fixtures.twenty_five = Some [error].
Proof. repeat split; vm_compute; reflexivity. Qed.

(** ** The page loops *)

Section Pages.

Variable P : Platform.
Variable this : ReadwiseClient.
Variable base : Params.


End Pages.

Lemma linked_pages_nonempty P this base h params calls :
  linked_pages P this base h params calls -> calls <> [].
Proof. destruct 1; discriminate. Qed.

Lemma collect_pages_linked P this base h params calls :
  linked_pages P this base h params calls ->
  forall cursor fuel all,
    params = Client.page_params base cursor ->
    (List.length calls <= fuel)%nat ->
    Client.collect_pages P this fuel base all cursor h
    = (Ok (all ++ List.concat (map results (map fst calls)))%list,
       List.concat (map snd calls)).
Proof.
  induction 1 as [h params response d t Hcall Hdata Hlast
                 |h params response d c t calls Hcall Hdata Hnext Hc Hrest IH];
    intros cursor fuel all Hparams Hfuel;
    (destruct fuel as [|fuel]; [cbn in Hfuel; lia|]);
    cbn [Client.collect_pages]; rewrite <- Hparams;
    rewrite (bind_ok _ _ _ _ _ Hcall), Hdata; cbv zeta.
  - rewrite Hlast. unfold prepend, ret. cbn. rewrite !app_nil_r. reflexivity.
  - rewrite Hnext. cbn [cursor_truthy]. rewrite Hc.
    assert (Hpage : obj_set "pageCursor" (VStr c) base
                    = Client.page_params base (Some c)).
    { cbn [Client.page_params]. rewrite Hc. reflexivity. }
    assert (Hlen : (List.length calls <= fuel)%nat) by (cbn in Hfuel; lia).
    rewrite (IH (Some c) fuel (all ++ results d)%list Hpage Hlen).
    unfold prepend. cbn. rewrite <- app_assoc. reflexivity.
Qed.

(** A listing without full content sends the request of its parameters,
    once for each answer. *)
Lemma plain_listing_requests P this (params : Params) h response t :
  truthy (obj_get "withFullContent" params) = false ->
  Client.listDocuments P this params h = (Ok response, t) ->
  requests t = repeat (list_request P this params) (List.length (responses t)).
Proof.
  intros Hplain Hcall. unfold Client.listDocuments in Hcall. rewrite Hplain in Hcall.
  unfold Client.plain_list in Hcall. rewrite list_endpoint_spec in Hcall.
  destruct (Client.makeRequest P this (json_list P) ("/list/" ++ list_query P params)
              no_options h) as [r t0] eqn:Hrun.
  pose proof (list_requests _ _ _ _ _ _ Hrun) as Hsent.
  unfold bind in Hcall. rewrite Hrun in Hcall.
  destruct r as [a|e|]; [|discriminate Hcall|discriminate Hcall].
  unfold ret in Hcall. injection Hcall as _ <-. rewrite app_nil_r. exact Hsent.
Qed.

Lemma linked_pages_requests P this base :
  truthy (obj_get "withFullContent" base) = false ->
  forall h params calls,
    linked_pages P this base h params calls ->
    truthy (obj_get "withFullContent" params) = false ->
    Forall2
      (fun o call =>
         requests (snd call)
         = repeat (list_request P this o) (List.length (responses (snd call))))
      (params
         :: map (fun d => match nextPageCursor d with
                          | Some c => obj_set "pageCursor" (VStr c) base
                          | None => base
                          end)
              (removelast (map fst calls)))
      calls.
Proof.
  intros Hbase.
  induction 1 as [h params response d t Hcall Hdata Hlast
                 |h params response d c t calls Hcall Hdata Hnext Hc Hrest IH];
    intros Hplain.
  - constructor; [|constructor]. exact (plain_listing_requests _ _ _ _ _ _ Hplain Hcall).
  - pose proof (linked_pages_nonempty _ _ _ _ _ _ Hrest) as Hne.
    destruct calls as [|call calls]; [contradiction Hne; reflexivity|].
    cbn [map fst removelast] in *.
    constructor; [exact (plain_listing_requests _ _ _ _ _ _ Hplain Hcall)|].
    cbn [map]. rewrite Hnext. apply IH.
    rewrite obj_get_set_other by discriminate. exact Hbase.
Qed.

(** C4.  For pages [P1 .. Pn] linked by their cursors (the first one
    answered to the base parameters, each later one to the base
    parameters with [pageCursor] set to the cursor that the page before
    gave, the last one only giving no cursor) the page loop returns the
    results of [P1], then those of [P2], and so on to [Pn], in the order
    the pages gave them, and what it emits is what these [n] calls of
    [listDocuments] emit, one after the other: no page is asked after the
    one that gives no cursor.  This holds with any fuel of at least [n].
    The loop of [searchDocumentsByTopic] is the instance with the two
    content flags false, and its result is that concatenation filtered by
    the terms.  When the base parameters do not ask for full content, the
    requests of the call for page [k + 1] are those of the base parameters
    with the cursor of page [k], sent to [/list/]. *)
Theorem collect_pages_concatenates P this base h calls fuel :
  linked_pages P this base h base calls ->
  (List.length calls <= fuel)%nat ->
  let pages := map fst calls in
  let t := List.concat (map snd calls) in
  Client.collect_pages P this fuel base [] None h
  = (Ok (List.concat (map results pages)), t)
  /\ (base = [("withFullContent", VBool false); ("withHtmlContent", VBool false)] ->
      forall searchTerms,
        Client.searchDocumentsByTopic P this fuel searchTerms h
        = (Ok {| data :=
                   filter
                     (fun doc =>
                        existsb (fun term => term_test P term (Client.searchableText doc))
                          searchTerms)
                     (List.concat (map results pages));
                 messages := None |}, t))
  /\ (truthy (obj_get "withFullContent" base) = false ->
      Forall2
        (fun o call =>
           requests (snd call)
           = repeat (list_request P this o) (List.length (responses (snd call))))
        (asked base pages) calls).
Proof.
  intros Hlinked Hfuel pages t.
  pose proof (collect_pages_linked P this base h base calls Hlinked None fuel []
                eq_refl Hfuel) as H.
  cbn [app] in H. split; [exact H|split].
  - intros Hbase searchTerms. unfold Client.searchDocumentsByTopic.
    change Client.search_params
      with [("withFullContent", VBool false); ("withHtmlContent", VBool false)].
    rewrite <- Hbase. rewrite (bind_ok _ _ _ _ _ H). unfold prepend, ret. cbn.
    rewrite app_nil_r. reflexivity.
  - intros Hplain. exact (linked_pages_requests P this base Hplain _ _ _ Hlinked Hplain).
Qed.



Lemma linked_three_pages :
  linked_pages Fixtures.linked Fixtures.client
    [("withFullContent", VBool false); ("withHtmlContent", VBool false)] []
    [("withFullContent", VBool false); ("withHtmlContent", VBool false)]
    Fixtures.linked_calls.
Proof.
  unfold Fixtures.linked_calls. cbv zeta.
  eapply linked_next; [reflexivity | reflexivity | reflexivity | reflexivity |].
  eapply linked_next; [reflexivity | reflexivity | reflexivity | reflexivity |].
  eapply linked_last; [reflexivity | reflexivity | reflexivity].
Defined.

Lemma collect_pages_concatenates_witness :
  exists t,
    Client.collect_pages Fixtures.linked Fixtures.client 3
      [("withFullContent", VBool false); ("withHtmlContent", VBool false)] [] None []
    = (Ok [Fixtures.doc_saved "a" "1"; Fixtures.doc_saved "b" "4";
           Fixtures.doc_saved "c" "2"; [("id", VStr "d")];
           Fixtures.doc_saved "e" "6"; Fixtures.doc_saved "f" "3"], t)
    /\ map req_url (requests t)
       = ["https://readwise.io/api/v3/list/?withFullContent=false&withHtmlContent=false";
          "https://readwise.io/api/v3/list/?withFullContent=false&withHtmlContent=false&pageCursor=c2";
          "https://readwise.io/api/v3/list/?withFullContent=false&withHtmlContent=false&pageCursor=c3"].
Proof.
  exists (List.concat (map snd Fixtures.linked_calls)).
  split; [|vm_compute; reflexivity].
  exact (proj1 (collect_pages_concatenates _ _ _ _ _ 3%nat
                  linked_three_pages (le_n 3))).
Defined.

(** ** [handleListDocuments] *)

Lemma obj_get_forced k args :
  k <> "withHtmlContent" ->
  obj_get k (Handlers.with_html_forced args) = obj_get k args.
Proof.
  intros N. unfold Handlers.with_html_forced.
  destruct (is_true (obj_get "withFullContent" args)); [|reflexivity].
  apply obj_get_set_other. exact N.
Qed.



Lemma saved_after_spec P after doc :
  Handlers.saved_after P after doc
  = (truthy (obj_get "saved_at" doc)
     && num_gt (Date_value P (obj_get "saved_at" doc)) after)%bool.
Proof.
  unfold Handlers.saved_after. destruct (truthy (obj_get "saved_at" doc)); reflexivity.
Qed.




(** The text returned for the three pages filtered after the time 2. *)
Example filtered_listing_text :
  fst (Handlers.handleListDocuments Fixtures.three_pages Fixtures.client 3
         [("addedAfter", VStr "2")] [])
  = Ok ("{}" ++ LF ++ LF ++ "Messages:" ++ LF
          ++ "INFO: Documents were filtered client-side based on the addedAfter date. All documents were fetched from the API first, then filtered by their saved_at date.")
  /\ map req_url
       (requests (snd (Handlers.handleListDocuments Fixtures.three_pages
                         Fixtures.client 3 [("addedAfter", VStr "2")] [])))
     = ["https://readwise.io/api/v3/list/";
        "https://readwise.io/api/v3/list/?pageCursor=c2";
        "https://readwise.io/api/v3/list/?pageCursor=c3"].
Proof. split; vm_compute; reflexivity. Qed.

Lemma bind_ok_inv {A B} (m : M A) (f : A -> M B) h b t :
  bind m f h = (Ok b, t) ->
  exists a t1 t2,
    m h = (Ok a, t1) /\ f a (h ++ t1)%list = (Ok b, t2) /\ t = (t1 ++ t2)%list.
Proof.
  unfold bind. destruct (m h) as [[a|e|] t1]; try discriminate.
  destruct (f a (h ++ t1)%list) as [r t2] eqn:E. intros H. injection H as -> <-.
  exists a, t1, t2. repeat split. exact E.
Qed.

Lemma mapM_in {A B} (f : A -> M B) l : forall h ys t,
  mapM f l h = (Ok ys, t) ->
  forall y, In y ys -> exists x h' t', In x l /\ f x h' = (Ok y, t').
Proof.
  induction l as [|x l IH]; intros h ys t H y Hy.
  - injection H as <- _. destruct Hy.
  - cbn [mapM] in H. apply bind_ok_inv in H.
    destruct H as (y0 & t1 & t2 & Hx & H & _).
    apply bind_ok_inv in H. destruct H as (ys0 & t3 & t4 & Hl & H & _).
    injection H as <- _. destruct Hy as [<-|Hy].
    + exists x, h, t1. split; [left; reflexivity | exact Hx].
    + destruct (IH _ _ _ Hl y Hy) as (x' & h' & t' & Hin & Hf).
      exists x', h', t'. split; [right; exact Hin | exact Hf].
Qed.

Lemma settled_in {A B} (f : A -> M B) l : forall h outs t,
  settle_in_turn f l h = (Ok outs, t) ->
  forall y, In (inr y) outs -> exists x h' t', In x l /\ f x h' = (Ok y, t').
Proof.
  unfold settle_in_turn. intros h outs t H y Hy.
  destruct (mapM_in _ _ _ _ _ H _ Hy) as (x & h' & t' & Hx & Hs).
  exists x, h'. unfold settle in Hs.
  destruct (f x h') as [[a|e|] t0]; try discriminate.
  injection Hs as -> _. exists t0. split; [exact Hx | reflexivity].
Qed.

Lemma all_fulfilled_in {B} (outs : list (JsError + B)) : forall ys,
  all_fulfilled outs = inr ys -> forall y, In y ys -> In (inr y) outs.
Proof.
  induction outs as [|[e|b] outs IH]; intros ys H y Hy.
  - injection H as <-. destruct Hy.
  - discriminate.
  - cbn [all_fulfilled] in H. destruct (all_fulfilled outs) as [e|bs]; [discriminate|].
    injection H as <-. destruct Hy as [<-|Hy].
    + left. reflexivity.
    + right. exact (IH _ eq_refl _ Hy).
Qed.

Lemma Promise_all_in {A B} (f : A -> M B) l h ys t :
  Promise_all f l h = (Ok ys, t) ->
  forall y, In y ys -> exists x h' t', In x l /\ f x h' = (Ok y, t').
Proof.
  unfold Promise_all. intros H y Hy. apply bind_ok_inv in H.
  destruct H as (outs & t1 & t2 & Hs & H & _).
  destruct (all_fulfilled outs) as [e|bs] eqn:E; [discriminate|].
  injection H as <- _.
  exact (settled_in f l _ _ _ Hs y (all_fulfilled_in _ _ E _ Hy)).
Qed.

Lemma result_of_has_html params inc doc text :
  obj_has "html_content" (Handlers.result_of params inc doc text)
  = (truthy (obj_get "withHtmlContent" params)
     && truthy (obj_get "html_content" doc))%bool.
Proof.
  unfold Handlers.result_of.
  destruct (truthy (obj_get "withHtmlContent" params)
            && truthy (obj_get "html_content" doc))%bool.
  - rewrite obj_has_set. reflexivity.
  - destruct inc; [rewrite obj_has_set|]; rewrite obj_has_keys; reflexivity.
Qed.

Lemma result_of_has_content params inc doc text :
  obj_has "content" (Handlers.result_of params inc doc text) = inc.
Proof.
  unfold Handlers.result_of.
  destruct (truthy (obj_get "withHtmlContent" params)
            && truthy (obj_get "html_content" doc))%bool;
    [rewrite obj_has_set; cbn [String.eqb Ascii.eqb Bool.eqb orb andb]|];
    (destruct inc; [rewrite obj_has_set|]; rewrite obj_has_keys; reflexivity).
Qed.

Lemma result_of_content params doc text :
  obj_get "content" (Handlers.result_of params true doc text) = VStr text.
Proof.
  unfold Handlers.result_of.
  destruct (truthy (obj_get "withHtmlContent" params)
            && truthy (obj_get "html_content" doc))%bool;
    [rewrite obj_get_set_other by discriminate|]; apply obj_get_set_same.
Qed.

Lemma is_true_spec v : is_true v = true <-> v = VBool true.
Proof.
  split; [|intros ->; reflexivity].
  destruct v as [| |[|]| | | |]; try discriminate. reflexivity.
Qed.

Lemma document_with_text_result P params doc h y t :
  Handlers.document_with_text P params doc h = (Ok y, t) ->
  exists text,
    y = Handlers.result_of params (is_true (obj_get "withFullContent" params)) doc text.
Proof.
  unfold Handlers.document_with_text. intros H. apply bind_ok_inv in H.
  destruct H as (text & t1 & t2 & _ & H & _). injection H as <- _.
  exists text. reflexivity.
Qed.

Lemma list_output_documents P client fuel args h o t doc :
  Handlers.list_output P client fuel args h = (Ok o, t) ->
  In doc (out_documents o) ->
  exists source text,
    doc = Handlers.result_of (Handlers.with_html_forced args)
            (is_true (obj_get "withFullContent" args)) source text.
Proof.
  unfold Handlers.list_output. intros H Hin. apply bind_ok_inv in H.
  destruct H as ([response filtered] & t1 & t2 & _ & H & _).
  destruct (data response) as [d|]; [|discriminate].
  apply bind_ok_inv in H. destruct H as (docs & t3 & t4 & Hmap & H & _).
  injection H as <- _. cbn [out_documents] in Hin.
  destruct (Promise_all_in _ _ _ _ _ Hmap _ Hin) as (source & h' & t' & _ & Hdoc).
  apply document_with_text_result in Hdoc. destruct Hdoc as [text ->].
  rewrite obj_get_forced by discriminate. exists source, text. reflexivity.
Qed.

(** C6.  A caller that asks for full content and does not ask for raw
    markup gets [html_content] all the same, in every document that has
    markup.  The handler sets [withHtmlContent] on the parameters it was
    given (lines 30-33), to have the service send the markup that the text
    is extracted from, and then tests that same flag when it decides
    whether the output carries the markup (line 151), next to the comment
    that the text stands in for the raw markup (line 148).  Here the
    arguments are [{withFullContent: true}] and the service lists one
    document with markup: the output document has the extracted text as
    [content] and the raw markup as [html_content]. *)
Lemma markup_without_request :
  let args := [("withFullContent", VBool true)] : Params in
  obj_get "withHtmlContent" args = VUndef
  /\ (exists doc : Doc,
        fst (Handlers.list_output Fixtures.one_markup Fixtures.client 1 args [])
        = Ok {| out_count := 1; out_nextPageCursor := None;
                out_documents := [doc]; out_messages := [] |}
        /\ obj_get "content" doc = VStr "html:<p>hi</p>"
        /\ obj_get "html_content" doc = VStr "<p>hi</p>")
  /\ ~ markup_only_on_request Fixtures.one_markup Fixtures.client 1 args [].
Proof.
  intros args. split; [reflexivity|]. split.
  - eexists. split; [reflexivity|]. split; reflexivity.
  - intros H.
    pose (run := Handlers.list_output Fixtures.one_markup Fixtures.client 1 args []).
    specialize (H _ (snd run)
                  (Handlers.result_of (Handlers.with_html_forced args)
                     true Fixtures.doc_markup "html:<p>hi</p>")
                  eq_refl (or_introl eq_refl) eq_refl).
    discriminate H.
Qed.

(** What does hold of the two fields in every run: the output has
    [content] exactly when [withFullContent === true], it has
    [html_content] only when the caller asked for raw markup or for full
    content, and with neither flag given it has neither field. *)
Lemma content_fields_on_request P client fuel (args : Params) h o t doc :
  Handlers.list_output P client fuel args h = (Ok o, t) ->
  In doc (out_documents o) ->
  (obj_has "html_content" doc = true ->
   truthy (obj_get "withHtmlContent" args) = true
   \/ obj_get "withFullContent" args = VBool true)
  /\ (obj_has "content" doc = true <-> obj_get "withFullContent" args = VBool true)
  /\ (obj_get "withHtmlContent" args = VUndef ->
      obj_get "withFullContent" args = VUndef ->
      obj_has "html_content" doc = false /\ obj_has "content" doc = false).
Proof.
  intros Hrun Hin.
  destruct (list_output_documents _ _ _ _ _ _ _ _ Hrun Hin) as (source & text & ->).
  rewrite result_of_has_html, result_of_has_content.
  unfold Handlers.with_html_forced.
  split; [|split].
  - destruct (is_true (obj_get "withFullContent" args)) eqn:E.
    + intros _. right. apply is_true_spec. exact E.
    + intros H. apply andb_prop in H. left. exact (proj1 H).
  - apply is_true_spec.
  - intros H1 H2. rewrite H2. cbn [is_true]. rewrite H1. split; reflexivity.
Qed.

Lemma shouldUseJina_spec doc :
  Handlers.shouldUseJina doc = true <-> converter_category doc.
Proof.
  unfold Handlers.shouldUseJina, converter_category. split.
  - intros H. apply orb_prop in H. destruct H as [H|H].
    + left. apply negb_true_iff. exact H.
    + right. destruct (obj_get "category" doc) as [| | | |c| |]; try discriminate.
      apply orb_prop in H. destruct H as [H|H]; apply String.eqb_eq in H; subst c.
      * left. reflexivity.
      * right. reflexivity.
  - intros [H|[H|H]]; rewrite H; reflexivity.
Qed.

(** C7, as the specification states it, fails: a document with neither
    markup nor URL gets the empty content and the converter is not
    called, where the statement has a conversion. *)
Lemma hydration_without_url :
  Handlers.hydrate Fixtures.one_markup true Fixtures.doc_bare [] = (Ok EmptyString, [])
  /\ ~ hydration_as_specified Fixtures.one_markup Fixtures.doc_bare [].
Proof.
  split; [reflexivity|].
  intros (_ & _ & H). specialize (H eq_refl). discriminate H.
Qed.

(** C7, amended.  When full content is requested, the content of a
    document is as follows, where the URL is [source_url] when that is
    set and [url] otherwise.  With markup and a category that is empty,
    ["article"] or ["pdf"], and with no markup whatever the category: the
    text the URL-to-text converter gives for the URL and the category when
    the URL is set, and the empty string, with no call of the converter,
    when it is not.  With markup and another category: the text extracted
    from the markup.  That text is the [content] of the document in the
    output. *)
Theorem hydration_rule P (doc : Doc) h :
  let html := obj_get "html_content" doc in
  let url :=
    if truthy (obj_get "source_url" doc) then obj_get "source_url" doc
    else obj_get "url" doc in
  let by_url :=
    if truthy url then Handlers.convert P url (obj_get "category" doc) h
    else (Ok EmptyString, []) in
  (truthy html = true -> converter_category doc ->
   Handlers.hydrate P true doc h = by_url)
  /\ (truthy html = true -> ~ converter_category doc ->
      Handlers.hydrate P true doc h = (Ok (extractTextFromHtml P html), []))
  /\ (truthy html = false -> Handlers.hydrate P true doc h = by_url)
  /\ (forall params text t,
         obj_get "withFullContent" params = VBool true ->
         Handlers.hydrate P true doc h = (Ok text, t) ->
         exists result,
           Handlers.document_with_text P params doc h = (Ok result, t)
           /\ obj_get "content" result = VStr text).
Proof.
  cbv zeta.
  assert (Hurl : Handlers.convert_url P doc h
                 = if truthy (if truthy (obj_get "source_url" doc)
                              then obj_get "source_url" doc else obj_get "url" doc)
                   then Handlers.convert P
                          (if truthy (obj_get "source_url" doc)
                           then obj_get "source_url" doc else obj_get "url" doc)
                          (obj_get "category" doc) h
                   else (Ok EmptyString, [])).
  { unfold Handlers.convert_url, Handlers.urlToConvert.
    destruct (truthy (if truthy (obj_get "source_url" doc)
                      then obj_get "source_url" doc else obj_get "url" doc));
      reflexivity. }
  split; [|split; [|split]].
  - intros Hhtml Hcat. apply shouldUseJina_spec in Hcat.
    unfold Handlers.hydrate. rewrite Hhtml, Hcat. exact Hurl.
  - intros Hhtml Hcat. unfold Handlers.hydrate. rewrite Hhtml.
    destruct (Handlers.shouldUseJina doc) eqn:E; [|reflexivity].
    apply shouldUseJina_spec in E. contradiction.
  - intros Hhtml. unfold Handlers.hydrate. rewrite Hhtml. exact Hurl.
  - intros params text t Hfull Hrun.
    exists (Handlers.result_of params true doc text). split.
    + unfold Handlers.document_with_text. rewrite Hfull. cbn [is_true].
      rewrite (bind_ok _ _ _ _ _ Hrun). unfold prepend, ret. cbn.
      rewrite app_nil_r. reflexivity.
    + apply result_of_content.
Qed.

Lemma hydration_rule_witness :
  Handlers.hydrate Fixtures.one_markup true Fixtures.doc_markup []
  = (Ok "html:<p>hi</p>", [])
  /\ Handlers.hydrate Fixtures.one_markup true
       [("url", VStr "https://x/a"); ("category", VStr "article");
        ("html_content", VStr "<p>a</p>")] []
     = (Ok "text:https://x/a", [EConvert (VStr "https://x/a") (VStr "article")]).
Proof.
  split.
  - destruct (hydration_rule Fixtures.one_markup Fixtures.doc_markup [])
      as (_ & H & _).
    apply H; [reflexivity|].
    intros [C|[C|C]]; discriminate C.
  - destruct (hydration_rule Fixtures.one_markup
                [("url", VStr "https://x/a"); ("category", VStr "article");
                 ("html_content", VStr "<p>a</p>")] [])
      as (H & _).
    apply H; [reflexivity|]. right. left. reflexivity.
Defined.

(** ** Lists *)

Lemma combine_app {A B} (a1 a2 : list A) (b1 b2 : list B) :
  List.length a1 = List.length b1 ->
  combine (a1 ++ a2) (b1 ++ b2) = (combine a1 b1 ++ combine a2 b2)%list.
Proof.
  revert b1. induction a1 as [|x a1 IH]; intros [|y b1] H; try discriminate.
  - reflexivity.
  - cbn. f_equal. apply IH. injection H as H. exact H.
Qed.

Lemma filter_split_length {A} (f : A -> bool) l :
  (List.length (filter f l) + List.length (filter (fun x => negb (f x)) l)
   = List.length l)%nat.
Proof.
  induction l as [|x l IH]; [reflexivity|].
  cbn. destruct (f x); cbn; lia.
Qed.

(** ** The batches of [handleBulkDelete] *)

Section Batches.

Variable ids : list string.

Local Notation "'bs'" := (batches_from ids).

Lemma bs_succ i n : bs i (S n) = Handlers.batch_at ids i :: bs (i + 5)%nat n.
Proof.
  unfold batches_from, Handlers.CONCURRENCY_LIMIT.
  cbn [seq map]. rewrite <- seq_shift, map_map.
  f_equal.
  - f_equal. lia.
  - apply map_ext. intros k. f_equal. lia.
Qed.

Lemma batch_count_zero len i : Handlers.batch_count len i = 0%nat -> (len <= i)%nat.
Proof.
  unfold Handlers.batch_count, Handlers.CONCURRENCY_LIMIT. cbn [Nat.sub]. intros H.
  pose proof (Nat.div_mod_eq (len - i + 4) 5).
  pose proof (Nat.mod_upper_bound (len - i + 4) 5 ltac:(discriminate)).
  lia.
Qed.

Lemma batch_count_succ len i n :
  Handlers.batch_count len i = S n ->
  Handlers.batch_count len (i + 5) = n /\ (i < len)%nat.
Proof.
  unfold Handlers.batch_count, Handlers.CONCURRENCY_LIMIT. cbn [Nat.sub]. intros H.
  pose proof (Nat.div_mod_eq (len - i + 4) 5).
  pose proof (Nat.mod_upper_bound (len - i + 4) 5 ltac:(discriminate)).
  pose proof (Nat.div_mod_eq (len - (i + 5) + 4) 5).
  pose proof (Nat.mod_upper_bound (len - (i + 5) + 4) 5 ltac:(discriminate)).
  lia.
Qed.

(** The batch count agrees with the test of the loop: there is a batch
    left to run exactly when [i < ids.length]. *)
Lemma batch_trip len i :
  (0 <? Handlers.batch_count len i)%nat = (i <? len)%nat.
Proof.
  destruct (Handlers.batch_count len i) as [|n] eqn:E.
  - apply batch_count_zero in E. symmetry. apply Nat.ltb_ge. exact E.
  - apply batch_count_succ in E. symmetry. apply Nat.ltb_lt. exact (proj2 E).
Qed.

Lemma bs_concat n : forall i,
  Handlers.batch_count (List.length ids) i = n ->
  List.concat (bs i n) = skipn i ids.
Proof.
  induction n as [|n IH]; intros i H.
  - apply batch_count_zero in H. rewrite skipn_all2 by exact H. reflexivity.
  - apply batch_count_succ in H. destruct H as [H _].
    rewrite bs_succ. cbn [List.concat]. rewrite (IH _ H).
    unfold Handlers.batch_at, Handlers.CONCURRENCY_LIMIT.
    replace (skipn (i + 5) ids) with (skipn 5 (skipn i ids))
      by (rewrite skipn_skipn; f_equal; lia).
    apply firstn_skipn.
Qed.

Lemma bs_sizes n : forall i,
  Handlers.batch_count (List.length ids) i = n ->
  Forall (fun b => (0 < List.length b <= 5)%nat) (bs i n).
Proof.
  induction n as [|n IH]; intros i H.
  - constructor.
  - apply batch_count_succ in H. destruct H as [H Hlt].
    rewrite bs_succ. constructor; [|exact (IH _ H)].
    unfold Handlers.batch_at, Handlers.CONCURRENCY_LIMIT.
    rewrite length_firstn, length_skipn. lia.
Qed.

(** Every batch but the last one is full. *)
Lemma bs_full n : forall i,
  Handlers.batch_count (List.length ids) i = n ->
  Forall (fun b => List.length b = 5%nat) (removelast (bs i n)).
Proof.
  induction n as [|n IH]; intros i H; [constructor|].
  pose proof H as H0. apply batch_count_succ in H. destruct H as [H Hlt].
  rewrite bs_succ. destruct n as [|m]; [constructor|].
  pose proof (IH _ H) as IH'. rewrite bs_succ in IH' |- *.
  rewrite removelast_cons2. constructor; [|exact IH'].
  apply batch_count_succ in H. destruct H as [_ Hlt'].
  unfold Handlers.batch_at, Handlers.CONCURRENCY_LIMIT.
  rewrite length_firstn, length_skipn. lia.
Qed.

End Batches.

Lemma delete_result_ids ids : forall outs : list (JsError + string),
  List.length outs = List.length ids ->
  map id (map (fun p => Handlers.delete_result (fst p) (snd p)) (combine ids outs)) = ids.
Proof.
  induction ids as [|x ids IH]; intros [|o outs] H; try discriminate.
  - reflexivity.
  - cbn [combine map fst snd]. f_equal.
    + destruct o; reflexivity.
    + apply IH. injection H as H. exact H.
Qed.


(** ** Calls that overlap *)

Lemma steps_trans {A} (t : Task A) p1 t1 :
  steps t p1 t1 -> forall p2 t2, steps t1 p2 t2 -> steps t (p1 ++ p2)%list t2.
Proof.
  induction 1 as [t|emits next h ev t' _ IH]; intros p2 t2 H2; [exact H2|].
  rewrite <- app_assoc. constructor. apply IH. exact H2.
Qed.

Lemma steps_settled {A} (r : JsError + A) ev t' :
  steps (Settled r) ev t' -> ev = [] /\ t' = Settled r.
Proof. intros H. inversion H; subst. split; reflexivity. Qed.

Lemma steps_suspended {A} emits next ev (r : JsError + A) :
  steps (Suspended emits next) ev (Settled r) ->
  exists h ev', ev = (emits h ++ ev')%list /\ steps (next h) ev' (Settled r).
Proof.
  intros H. inversion H as [|emits' next' h ev' t' Hrest]; subst.
  exists h, ev'. split; [reflexivity | exact Hrest].
Qed.

Lemma steps_stretch {A} (k : list Event -> list Event * Task A) ev r :
  steps (stretch k) ev (Settled r) ->
  exists h ev', ev = (fst (k h) ++ ev')%list /\ steps (snd (k h)) ev' (Settled r).
Proof. apply steps_suspended. Qed.

Lemma resume_steps {A} (t : Task A) h t' ev :
  resume t h = (t', ev) -> steps t ev t'.
Proof.
  destruct t as [r|emits next]; cbn; intros H; injection H as <- <-.
  - constructor.
  - rewrite <- (app_nil_r (emits h)). constructor. constructor.
Qed.

Lemma run_alone_steps {A} (t : Task A) : forall h r ev,
  run_alone t h = (r, ev) -> steps t ev (Settled r).
Proof.
  induction t as [r0|emits next IH]; intros h r ev H.
  - injection H as <- <-. constructor.
  - cbn [run_alone] in H.
    destruct (run_alone (next h) (h ++ emits h)%list) as [r1 ev1] eqn:E.
    injection H as <- <-. constructor. exact (IH _ _ _ _ E).
Qed.

Lemma steps_then {A B} (f : A -> B) (t : Task A) : forall ev r,
  steps (then_ f t) ev (Settled r) ->
  exists r0, steps t ev (Settled r0)
             /\ r = match r0 with inr a => inr (f a) | inl e => inl e end.
Proof.
  induction t as [r0|emits next IH]; intros ev r H.
  - exists r0. destruct r0 as [e|a]; cbn [then_] in H;
      apply steps_settled in H; destruct H as [-> H]; injection H as <-;
      (split; [constructor | reflexivity]).
  - cbn [then_] in H. apply steps_suspended in H.
    destruct H as (h & ev' & -> & H).
    destruct (IH _ _ _ H) as (r0 & H0 & ->).
    exists r0. split; [constructor; exact H0 | reflexivity].
Qed.

(** *** Interleavings *)

Lemma merge_cons_nil {A} (ls : list (list A)) t : merge ls t -> merge ([] :: ls) t.
Proof.
  induction 1 as [ls Hall|ls1 x l ls2 t _ IH].
  - constructor. constructor; [reflexivity | exact Hall].
  - exact (merge_take ([] :: ls1) x l ls2 t IH).
Qed.

Lemma merge_cons_app {A} (p : list A) ls t : merge ls t -> merge (p :: ls) (p ++ t)%list.
Proof.
  intros H. induction p as [|x p IH]; [apply merge_cons_nil; exact H|].
  exact (merge_take [] x p ls (p ++ t)%list IH).
Qed.

Lemma merge_nils {A} (ls : list (list A)) :
  Forall (fun l => l = []) ls -> merge ls [].
Proof. apply merge_done. Qed.

Lemma zip_app_nils {A} (l1 : list (list A)) : forall l2,
  Forall (fun l => l = []) l1 -> List.length l1 = List.length l2 -> zip_app l1 l2 = l2.
Proof.
  unfold zip_app. induction l1 as [|x l1 IH]; intros [|y l2] Hall Hlen; try discriminate.
  - reflexivity.
  - inversion Hall; subst. cbn. f_equal. apply IH; [assumption|].
    injection Hlen as Hlen. exact Hlen.
Qed.

Lemma zip_app_app {A} (a1 b1 : list (list A)) : forall a2 b2,
  List.length a1 = List.length a2 ->
  zip_app (a1 ++ b1) (a2 ++ b2) = (zip_app a1 a2 ++ zip_app b1 b2)%list.
Proof.
  unfold zip_app. intros a2 b2 H. rewrite combine_app by exact H. apply map_app.
Qed.

Lemma length_split {A B} (a : list A) x (b : list A) (l : list B) :
  List.length (a ++ x :: b) = List.length l ->
  exists a' y b', l = (a' ++ y :: b')%list /\ List.length a = List.length a'.
Proof.
  revert l. induction a as [|z a IH]; intros [|y l] H; try discriminate.
  - exists [], y, l. split; reflexivity.
  - injection H as H. destruct (IH _ H) as (a' & y' & b' & -> & Hlen).
    exists (y :: a'), y', b'. split; [reflexivity|]. cbn. rewrite Hlen. reflexivity.
Qed.

Lemma merge_app {A} (l1 : list (list A)) e1 :
  merge l1 e1 ->
  forall l2 e2, List.length l1 = List.length l2 -> merge l2 e2 ->
                merge (zip_app l1 l2) (e1 ++ e2)%list.
Proof.
  induction 1 as [ls Hall|ls1 x l ls2 t _ IH]; intros l2 e2 Hlen H2.
  - rewrite zip_app_nils by assumption. exact H2.
  - destruct (length_split _ _ _ _ Hlen) as (a & y & b & -> & Ha).
    rewrite zip_app_app by exact Ha.
    change (zip_app ((x :: l) :: ls2) (y :: b))
      with ((x :: (l ++ y)%list) :: zip_app ls2 b).
    cbn [app]. apply merge_take.
    specialize (IH (a ++ y :: b)%list e2).
    rewrite zip_app_app in IH by exact Ha. apply IH; [|exact H2].
    rewrite !length_app in *. cbn in *. lia.
Qed.

Lemma merge_length {A} (ls : list (list A)) t :
  merge ls t -> List.length t = list_sum (map (@List.length A) ls).
Proof.
  induction 1 as [ls Hall|ls1 x l ls2 t _ IH].
  - induction Hall as [|l ls -> _ IH]; [reflexivity | exact IH].
  - cbn [List.length]. rewrite IH, !map_app, !list_sum_app. cbn. lia.
Qed.

(** What an interleaving keeps of the events of one kind is an
    interleaving of what each list keeps. *)
Lemma merge_flat_map {A B} (f : A -> list B) (ls : list (list A)) t :
  (forall x, (List.length (f x) <= 1)%nat) ->
  merge ls t -> merge (map (flat_map f) ls) (flat_map f t).
Proof.
  intros Hf. induction 1 as [ls Hall|ls1 x l ls2 t _ IH].
  - constructor. induction Hall as [|l ls -> _ IH]; constructor; [reflexivity | exact IH].
  - rewrite map_app in *. cbn [map flat_map] in *.
    specialize (Hf x). destruct (f x) as [|y [|z r]]; [exact IH| |cbn in Hf; lia].
    cbn [app]. apply merge_take. exact IH.
Qed.

(** *** Pools of calls *)

Lemma pool_run_refl {A} (ts : list (Task A)) : pool_run ts [] ts.
Proof.
  exists (map (fun t => ([], t)) ts). split; [|split].
  - induction ts as [|t ts IH]; constructor; [constructor | exact IH].
  - rewrite map_map. apply map_id.
  - constructor. rewrite map_map. apply Forall_map. apply Forall_forall. reflexivity.
Qed.

Lemma pool_run_cons {A} (t : Task A) p t' ts ev ts' :
  steps t p t' -> pool_run ts ev ts' -> pool_run (t :: ts) (p ++ ev)%list (t' :: ts').
Proof.
  intros Ht (xs & Hxs & Hsnd & Hmerge).
  exists ((p, t') :: xs). split; [|split].
  - constructor; assumption.
  - cbn. rewrite Hsnd. reflexivity.
  - cbn [map fst]. apply merge_cons_app. exact Hmerge.
Qed.

Lemma pool_run_skip {A} (t : Task A) ts ev ts' :
  pool_run ts ev ts' -> pool_run (t :: ts) ev (t :: ts').
Proof. intros H. exact (pool_run_cons t [] t ts ev ts' (steps_none t) H). Qed.

Lemma pool_run_trans {A} (ts : list (Task A)) e1 ts1 e2 ts2 :
  pool_run ts e1 ts1 -> pool_run ts1 e2 ts2 -> pool_run ts (e1 ++ e2)%list ts2.
Proof.
  intros (xs1 & H1 & <- & M1) (xs2 & H2 & <- & M2).
  exists (map (fun p => ((fst (fst p) ++ fst (snd p))%list, snd (snd p)))
            (combine xs1 xs2)).
  assert (Hlen : List.length xs1 = List.length xs2).
  { apply Forall2_length in H2. rewrite length_map in H2. exact H2. }
  split; [|split].
  - clear M1 M2 Hlen. revert xs2 H2.
    induction H1 as [|t x1 ts xs1 Hx _ IH]; intros xs2 H2.
    + constructor.
    + inversion H2 as [|t1 x2 ts1 xs2' Hx2 Hrest]; subst.
      cbn [combine map]. constructor; [|exact (IH _ Hrest)].
      cbn [fst snd]. exact (steps_trans _ _ _ Hx _ _ Hx2).
  - clear H1 H2 M1 M2. revert xs2 Hlen.
    induction xs1 as [|x1 xs1 IH]; intros [|x2 xs2] Hlen; try discriminate.
    + reflexivity.
    + cbn. f_equal. apply IH. injection Hlen as Hlen. exact Hlen.
  - assert (Hzip : map fst (map (fun p => ((fst (fst p) ++ fst (snd p))%list, snd (snd p)))
                              (combine xs1 xs2))
                   = zip_app (map fst xs1) (map fst xs2)).
    { clear H1 H2 M1 M2. revert xs2 Hlen.
      induction xs1 as [|x1 xs1 IH]; intros [|x2 xs2] Hlen; try discriminate.
      - reflexivity.
      - unfold zip_app in *. cbn. f_equal. apply IH. injection Hlen as Hlen. exact Hlen. }
    rewrite Hzip. apply merge_app; [exact M1 | rewrite !length_map; exact Hlen | exact M2].
Qed.

Lemma pool_run_resume_at {A} (ts : list (Task A)) : forall i h ts' ev,
  resume_at i ts h = (ts', ev) -> pool_run ts ev ts'.
Proof.
  induction ts as [|t ts IH]; intros i h ts' ev H.
  - destruct i; injection H as <- <-; apply pool_run_refl.
  - destruct i as [|i]; cbn [resume_at] in H.
    + destruct (resume t h) as [t' ev'] eqn:E. injection H as <- <-.
      rewrite <- (app_nil_r ev'). apply pool_run_cons.
      * exact (resume_steps _ _ _ _ E).
      * apply pool_run_refl.
    + destruct (resume_at i ts h) as [r' ev'] eqn:E. injection H as <- <-.
      apply pool_run_skip. exact (IH _ _ _ _ E).
Qed.

Lemma pool_run_start_all {A} (ts : list (Task A)) : forall h ts' ev,
  start_all ts h = (ts', ev) -> pool_run ts ev ts'.
Proof.
  induction ts as [|t ts IH]; intros h ts' ev H.
  - injection H as <- <-. apply pool_run_refl.
  - cbn [start_all] in H.
    destruct (resume t h) as [t' ev1] eqn:E1.
    destruct (start_all ts (h ++ ev1)%list) as [r' ev2] eqn:E2.
    injection H as <- <-. apply pool_run_cons.
    + exact (resume_steps _ _ _ _ E1).
    + exact (IH _ _ _ E2).
Qed.

Lemma pool_run_interleave {A} sched : forall (ts : list (Task A)) h ts' ev rest,
  interleave sched ts h = (ts', ev, rest) -> pool_run ts ev ts'.
Proof.
  induction sched as [|c sched IH]; intros ts h ts' ev rest H.
  - injection H as <- <- _. apply pool_run_refl.
  - cbn [interleave] in H. destruct (suspended_from 0 ts) as [|i0 others].
    + injection H as <- <- _. apply pool_run_refl.
    + destruct (resume_at _ ts h) as [ts1 ev1] eqn:E1.
      destruct (interleave sched ts1 (h ++ ev1)%list) as [[ts2 ev2] rest2] eqn:E2.
      injection H as <- <- _.
      exact (pool_run_trans _ _ _ _ _ (pool_run_resume_at _ _ _ _ _ E1) (IH _ _ _ _ _ E2)).
Qed.

Lemma pool_run_finish {A} (ts : list (Task A)) : forall h rs ev,
  finish_in_turn ts h = (rs, ev) -> pool_run ts ev (map Settled rs).
Proof.
  induction ts as [|t ts IH]; intros h rs ev H.
  - injection H as <- <-. apply pool_run_refl.
  - cbn [finish_in_turn] in H.
    destruct (run_alone t h) as [x ev1] eqn:E1.
    destruct (finish_in_turn ts (h ++ ev1)%list) as [xs ev2] eqn:E2.
    injection H as <- <-. cbn [map]. apply pool_run_cons.
    + exact (run_alone_steps _ _ _ _ E1).
    + exact (IH _ _ _ E2).
Qed.

(** Every call of [Promise.allSettled] is settled when it returns,
    whatever the schedule; the events are an interleaving of the events of
    the calls, and they start with the first stretch of every call, in the
    order of the calls. *)
Lemma Promise_allSettled_run {A} sched (calls : list (Task A)) h rs ev rest :
  Promise_allSettled sched calls h = (rs, ev, rest) ->
  pool_run calls ev (map Settled rs)
  /\ exists ev', ev = (snd (start_all calls h) ++ ev')%list.
Proof.
  unfold Promise_allSettled.
  destruct (start_all calls h) as [started ev0] eqn:E0.
  destruct (interleave sched started (h ++ ev0)%list) as [[ts ev1] rest1] eqn:E1.
  destruct (finish_in_turn ts ((h ++ ev0) ++ ev1)%list) as [outcomes ev2] eqn:E2.
  intros H. injection H as <- <- _. split.
  - apply (pool_run_trans _ _ _ _ _ (pool_run_start_all _ _ _ _ E0)).
    exact (pool_run_trans _ _ _ _ _ (pool_run_interleave _ _ _ _ _ _ E1)
             (pool_run_finish _ _ _ _ E2)).
  - exists (ev1 ++ ev2)%list. reflexivity.
Qed.

(** ** [makeRequest] as an overlapping call *)

Lemma responses_app t1 t2 : responses (t1 ++ t2) = (responses t1 ++ responses t2)%list.
Proof. apply flat_map_app. Qed.

Lemma replay_next (pre : list Response) resp rest h0 q :
  List.length (responses h0) = List.length pre ->
  replay (pre ++ resp :: rest) h0 q = resp.
Proof. intros H. unfold replay. rewrite H. apply nth_middle. Qed.

Section ExecutorTask.

Variable P : Platform.
Variable this : ReadwiseClient.
Variable T : Type.
Variable decode : string -> JsError + T.
Variable q : Request.

Local Notation "'task'" := (Client.attempt_task P this decode q).

(** However an overlapping call of the executor is resumed, what it emits
    and how it ends is what the loop run alone emits and returns against
    a service that gives it the same answers. *)
Lemma attempt_task_replay n : forall attempt lastError h ev r pre h0,
  steps (snd (task n attempt lastError h)) ev (Settled r) ->
  List.length (responses h0) = List.length pre ->
  Client.attempt_loop
    (with_serve P (replay (pre ++ responses (fst (task n attempt lastError h) ++ ev))))
    this decode q n attempt lastError h0
  = (outcome_of r, (fst (task n attempt lastError h) ++ ev)%list).
Proof.
  induction n as [|n IH]; intros attempt lastError h ev r pre h0 Hsteps Hlen.
  - cbn [Client.attempt_task fst snd] in *.
    apply steps_settled in Hsteps. destruct Hsteps as [-> Hr]. injection Hr as ->.
    reflexivity.
  - cbn [Client.attempt_task fst snd] in *.
    set (resp := serve P h q) in *.
    apply steps_stretch in Hsteps. destruct Hsteps as (h' & ev' & -> & Hsteps).
    assert (Hs : forall rest,
               serve (with_serve P (replay (pre ++ resp :: rest))) h0 q = resp)
      by (intros rest; apply replay_next; exact Hlen).
    rewrite responses_app. cbn [responses flat_map app].
    destruct (ok resp) eqn:Hok;
      [destruct (status resp =? 204) eqn:H204
      |destruct (status resp =? 429) eqn:H429;
       [destruct (attempt <? maxRetries (retryConfig this)) eqn:Hlt|]];
      cbn [fst snd] in *.
    + apply steps_settled in Hsteps. destruct Hsteps as [-> Hr]. injection Hr as ->.
      apply Z.eqb_eq in H204.
      rewrite loop_204 by (rewrite Hs; assumption). rewrite Hs. reflexivity.
    + apply steps_stretch in Hsteps. destruct Hsteps as (h2 & ev2 & -> & Hsteps).
      cbn [fst snd] in Hsteps.
      apply steps_settled in Hsteps. destruct Hsteps as [-> Hr]. injection Hr as ->.
      apply Z.eqb_neq in H204.
      rewrite loop_decoded by (rewrite Hs; assumption). rewrite Hs.
      destruct (decode (body resp)); reflexivity.
    + apply steps_stretch in Hsteps. destruct Hsteps as (h2 & ev2 & -> & Hsteps).
      apply Z.eqb_eq in H429. apply Z.ltb_lt in Hlt.
      rewrite loop_retry by (rewrite ?Hs; assumption). cbv zeta. rewrite Hs.
      specialize (IH (attempt + 1) lastError h2 ev2 r (pre ++ [resp])%list
                    (h0 ++ [EFetch q resp;
                            EWarn (Client.retry_warning this attempt
                                     (Client.retryAfterSeconds resp));
                            ESleep (Client.actualDelay this attempt
                                      (Client.retryAfterSeconds resp))])%list
                    Hsteps).
      rewrite responses_app, !length_app in IH.
      cbn [responses flat_map app List.length] in IH.
      specialize (IH ltac:(lia)).
      rewrite <- app_assoc in IH. cbn [app] in IH.
      rewrite !responses_app. cbn [responses flat_map app].
      rewrite <- responses_app. rewrite IH. reflexivity.
    + apply Z.eqb_eq in H429. apply Z.ltb_ge in Hlt.
      rewrite loop_exhausted by (rewrite ?Hs; assumption). cbv zeta. rewrite Hs.
      specialize (IH (attempt + 1)
                    (Some (Client.rate_limit_error this (Client.retryAfterSeconds resp)))
                    h' ev' r (pre ++ [resp])%list (h0 ++ [EFetch q resp])%list Hsteps).
      rewrite responses_app, !length_app in IH.
      cbn [responses flat_map app List.length] in IH.
      specialize (IH ltac:(lia)).
      rewrite <- app_assoc in IH. cbn [app] in IH.
      rewrite IH. reflexivity.
    + apply steps_stretch in Hsteps. destruct Hsteps as (h2 & ev2 & -> & Hsteps).
      cbn [fst snd] in Hsteps.
      apply steps_settled in Hsteps. destruct Hsteps as [-> Hr]. injection Hr as ->.
      apply Z.eqb_neq in H429.
      rewrite loop_api_error by (rewrite Hs; assumption). cbv zeta. rewrite Hs.
      reflexivity.
Qed.

Lemma run_alone_stretch {A} (k : list Event -> list Event * Task A) h :
  run_alone (stretch k) h
  = (fst (run_alone (snd (k h)) (h ++ fst (k h))%list),
     (fst (k h) ++ snd (run_alone (snd (k h)) (h ++ fst (k h))%list))%list).
Proof.
  unfold stretch. cbn [run_alone].
  destruct (run_alone (snd (k h)) (h ++ fst (k h))%list). reflexivity.
Qed.

(** Resumed as soon as it waits, the call cut at its [await]s is the
    loop: same outcome, same events. *)
Lemma attempt_task_alone n : forall attempt lastError h,
  Client.attempt_loop P this decode q n attempt lastError h
  = (outcome_of
       (fst (run_alone (snd (task n attempt lastError h))
               (h ++ fst (task n attempt lastError h))%list)),
     (fst (task n attempt lastError h)
        ++ snd (run_alone (snd (task n attempt lastError h))
                  (h ++ fst (task n attempt lastError h))%list))%list).
Proof.
  induction n as [|n IH]; intros attempt lastError h; [reflexivity|].
  cbn [Client.attempt_task fst snd].
  rewrite run_alone_stretch.
  set (resp := serve P h q).
  destruct (ok resp) eqn:Hok;
    [destruct (status resp =? 204) eqn:H204
    |destruct (status resp =? 429) eqn:H429;
     [destruct (attempt <? maxRetries (retryConfig this)) eqn:Hlt|]];
    cbn [fst snd].
  - apply Z.eqb_eq in H204. rewrite loop_204 by assumption. reflexivity.
  - apply Z.eqb_neq in H204. rewrite loop_decoded by assumption.
    rewrite run_alone_stretch. cbn [fst snd run_alone app]. fold resp.
    destruct (decode (body resp)); reflexivity.
  - apply Z.eqb_eq in H429. apply Z.ltb_lt in Hlt.
    rewrite loop_retry by assumption. cbv zeta. fold resp.
    rewrite run_alone_stretch.
    rewrite IH. unfold prepend. cbn [fst snd app].
    rewrite <- !app_assoc. cbn [app]. reflexivity.
  - apply Z.eqb_eq in H429. apply Z.ltb_ge in Hlt.
    rewrite loop_exhausted by assumption. cbv zeta. fold resp.
    rewrite IH. unfold prepend. cbn [fst snd app]. reflexivity.
  - apply Z.eqb_neq in H429. rewrite loop_api_error by assumption. cbv zeta. fold resp.
    rewrite run_alone_stretch. cbn [fst snd run_alone app]. reflexivity.
Qed.

End ExecutorTask.

Lemma run_alone_then {A B} (f : A -> B) (t : Task A) : forall h,
  run_alone (then_ f t) h
  = (match fst (run_alone t h) with inr a => inr (f a) | inl e => inl e end,
     snd (run_alone t h)).
Proof.
  induction t as [r|emits next IH]; intros h.
  - destruct r as [e|a]; reflexivity.
  - cbn [then_ run_alone]. rewrite IH.
    destruct (run_alone (next h) (h ++ emits h)%list). reflexivity.
Qed.

(** [makeRequest] and [deleteDocument] as overlapping calls, when nothing
    overlaps them, are [makeRequest] and [deleteDocument]. *)
Lemma makeRequest_task_alone P this T (decode : string -> JsError + T)
    endpoint options h :
  Client.makeRequest P this decode endpoint options h
  = (outcome_of (fst (run_alone (Client.makeRequest_task P this decode endpoint options) h)),
     snd (run_alone (Client.makeRequest_task P this decode endpoint options) h)).
Proof.
  unfold Client.makeRequest, Client.makeRequest_task.
  rewrite run_alone_stretch. cbn [fst snd]. apply attempt_task_alone.
Qed.

Lemma deleteDocument_task_alone P this id h :
  Client.deleteDocument P this id h
  = (outcome_of (fst (run_alone (Client.deleteDocument_task P this id) h)),
     snd (run_alone (Client.deleteDocument_task P this id) h)).
Proof.
  unfold Client.deleteDocument, Client.deleteDocument_task.
  rewrite run_alone_then. cbn [fst snd].
  unfold bind. rewrite makeRequest_task_alone. cbn [fst snd].
  destruct (fst (run_alone (Client.makeRequest_task P this (json_any P)
                              ("/delete/" ++ id ++ "/")
                              {| init_method := Some "DELETE"; init_headers := [];
                                 init_body := None |}) h)) as [e|a];
    cbn [outcome_of]; [reflexivity|].
  unfold ret. rewrite app_nil_r. reflexivity.
Qed.


(** ** [handleBulkDelete] *)

Section BulkDelete.

Variable P : Platform.
Variable client : ReadwiseClient.

Local Notation "'call'" :=
  (fun id : string =>
     then_ (fun _ : APIResponse unit => id) (Client.deleteDocument_task P client id)).

Local Notation "'DELETE'" :=
  {| init_method := Some "DELETE"; init_headers := []; init_body := None |}.

Local Notation "'bounded'" :=
  (fun c : list Event * DeleteResult =>
     (1 <= List.length (responses (fst c))
      <= Z.to_nat (maxRetries (retryConfig client) + 1))%nat).

(** One deletion of a batch, however the others overlap it, emits and
    ends as [makeRequest] run alone does against a service that gives it
    the same answers. *)
Lemma delete_call_replay id own out :
  steps (call id) own (Settled out) ->
  exists r0 : JsError + option JsVal,
    Client.makeRequest (with_serve P (replay (responses own))) client (json_any P)
      ("/delete/" ++ id ++ "/") DELETE []
    = (outcome_of r0, own)
    /\ out = match r0 with inr _ => inr id | inl e => inl e end.
Proof.
  intros H. apply steps_then in H. destruct H as (r1 & H & ->).
  unfold Client.deleteDocument_task in H. apply steps_then in H.
  destruct H as (r0 & H & ->).
  unfold Client.makeRequest_task in H. apply steps_stretch in H.
  destruct H as (h1 & ev & -> & H).
  exists r0. split.
  - exact (attempt_task_replay P client _ (json_any P) _ _ _ _ h1 ev r0 [] [] H eq_refl).
  - destruct r0; reflexivity.
Qed.

Lemma delete_call_run id own out :
  steps (call id) own (Settled out) ->
  deletion_run P client id own (Handlers.delete_result id out)
  /\ (0 <= maxRetries (retryConfig client) ->
      (1 <= List.length (responses own)
       <= Z.to_nat (maxRetries (retryConfig client) + 1))%nat).
Proof.
  intros H. destruct (delete_call_replay _ _ _ H) as (r0 & Hrun & ->).
  set (P' := with_serve P (replay (responses own))) in *.
  split; [split|].
  - pose proof (requests_of_makeRequest P' client JsVal (json_any P)
                  ("/delete/" ++ id ++ "/") DELETE []) as Hreq.
    cbv zeta in Hreq. rewrite Hrun in Hreq. exact Hreq.
  - unfold deletion_record. destruct r0 as [e|v]; cbn [outcome_of] in Hrun.
    + destruct (loop_failure P' client JsVal (json_any P) _ _ _ _ _ _ eq_refl Hrun)
        as [(-> & _ & ->)|(t' & resp & [(Hst & -> & ->)|[(Hok & Hst & -> & ->)|(Hok & Hst & -> & Hd)]])].
      * reflexivity.
      * rewrite rev_unit. rewrite Hst. reflexivity.
      * rewrite rev_app_distr. reflexivity.
      * rewrite rev_app_distr. cbn [rev app]. rewrite Hd. reflexivity.
    + destruct (loop_value P' client JsVal (json_any P) _ _ _ _ _ _ _ Hrun)
        as (t' & resp & Hok & [(Hst & _ & ->)|(Hst & -> & x & _ & Hd)]).
      * rewrite rev_unit. rewrite Hst. reflexivity.
      * rewrite rev_app_distr. cbn [rev app]. rewrite Hd. reflexivity.
  - intros Hmax.
    pose proof (makeRequest_fetch_count P' client JsVal (json_any P)
                  ("/delete/" ++ id ++ "/") DELETE [] Hmax) as Hc.
    rewrite Hrun in Hc. exact Hc.
Qed.

Lemma resume_call id h :
  0 <= maxRetries (retryConfig client) ->
  snd (resume (call id) h)
  = [EFetch (delete_request client id) (serve P h (delete_request client id))].
Proof.
  intros Hmax. unfold Client.deleteDocument_task, Client.makeRequest_task.
  rewrite (trips_zero client Hmax). reflexivity.
Qed.

Lemma start_all_cons id batch h :
  0 <= maxRetries (retryConfig client) ->
  let q := delete_request client id in
  snd (start_all (map call (id :: batch)) h)
  = EFetch q (serve P h q)
      :: snd (start_all (map call batch) (h ++ [EFetch q (serve P h q)])%list).
Proof.
  intros Hmax q. cbn [map start_all].
  pose proof (resume_call id h Hmax) as Hr. fold q in Hr.
  destruct (resume (call id) h) as [t' ev]. cbn [snd] in Hr. subst ev.
  destruct (start_all (map call batch) (h ++ [EFetch q (serve P h q)])%list) as [r' ev'].
  reflexivity.
Qed.

(** The deletions of a batch are all started, each sending its first
    request, before any of them goes on. *)
Lemma start_all_deletions batch : forall h,
  0 <= maxRetries (retryConfig client) ->
  requests (snd (start_all (map call batch) h)) = map (delete_request client) batch
  /\ List.length (snd (start_all (map call batch) h)) = List.length batch.
Proof.
  intros h Hmax. revert h. induction batch as [|id batch IH]; intros h.
  - split; reflexivity.
  - rewrite (start_all_cons id batch h Hmax). cbv zeta.
    match goal with |- context [start_all _ ?h'] => destruct (IH h') as [IH1 IH2] end.
    split.
    + cbn [requests flat_map app map]. unfold requests in IH1. rewrite IH1. reflexivity.
    + cbn [List.length]. rewrite IH2. reflexivity.
Qed.

Lemma calls_of_pool batch : forall (xs : list (list Event * Task string)) rs,
  Forall2 (fun t x => steps t (fst x) (snd x)) (map call batch) xs ->
  map snd xs = map Settled rs ->
  exists calls : list (list Event * DeleteResult),
    map fst calls = map fst xs
    /\ Forall2 (fun id c => deletion_run P client id (fst c) (snd c)) batch calls
    /\ map snd calls
       = map (fun p => Handlers.delete_result (fst p) (snd p)) (combine batch rs)
    /\ (0 <= maxRetries (retryConfig client) -> Forall bounded calls).
Proof.
  induction batch as [|id batch IH]; intros xs rs Hxs Hsnd.
  - inversion Hxs; subst. exists []. repeat split; constructor.
  - cbn [map] in Hxs. inversion Hxs as [|t x ts xs' Hx Hrest]; subst.
    destruct rs as [|out rs]; [discriminate|].
    cbn [map] in Hsnd. injection Hsnd as Hout Hsnd.
    rewrite Hout in Hx.
    destruct (delete_call_run _ _ _ Hx) as [Hrun Hb].
    destruct (IH _ _ Hrest Hsnd) as (calls & Hfst & Hruns & Hrecords & Hbs).
    exists ((fst x, Handlers.delete_result id out) :: calls).
    split; [|split; [|split]].
    + cbn. rewrite Hfst. reflexivity.
    + constructor; assumption.
    + cbn. rewrite Hrecords. reflexivity.
    + intros Hmax. constructor; [exact (Hb Hmax) | exact (Hbs Hmax)].
Qed.

Lemma firstn_app_exact {A} (l1 l2 : list A) n :
  List.length l1 = n -> firstn n (l1 ++ l2) = l1.
Proof.
  intros <-. rewrite firstn_app, Nat.sub_diag, firstn_all. cbn. apply app_nil_r.
Qed.

Lemma settle_batch_run sched batch h rs ev rest :
  Handlers.settle_batch P client sched batch h = (rs, ev, rest) ->
  exists calls : list (list Event * DeleteResult),
    batch_run P client batch ev calls
    /\ map snd calls
       = map (fun p => Handlers.delete_result (fst p) (snd p)) (combine batch rs)
    /\ (0 <= maxRetries (retryConfig client) -> Forall bounded calls).
Proof.
  unfold Handlers.settle_batch. intros H.
  destruct (Promise_allSettled_run _ _ _ _ _ _ H) as [(xs & Hxs & Hsnd & Hmerge) (ev' & Hev)].
  destruct (calls_of_pool _ _ _ Hxs Hsnd) as (calls & Hfst & Hruns & Hrecords & Hbs).
  exists calls. split; [|split; assumption].
  split; [exact Hruns|]. split; [rewrite Hfst; exact Hmerge|].
  intros Hmax. destruct (start_all_deletions batch h Hmax) as [Hreq Hlen].
  rewrite Hev, firstn_app_exact by exact Hlen. exact Hreq.
Qed.

Variable ids : list string.

(** The loop over the batches, whatever the schedule: one run per batch,
    the events of the batches one after the other, and the records in the
    order of the identifiers. *)
Lemma batch_loop_runs n : forall i acc sched h rs ev,
  Handlers.batch_loop P client ids n i acc sched h = (rs, ev) ->
  exists runs : list (list Event * list (list Event * DeleteResult)),
    Forall2 (fun batch br => batch_run P client batch (fst br) (snd br))
      (batches_from ids i n) runs
    /\ ev = List.concat (map fst runs)
    /\ rs = (acc ++ map snd (List.concat (map snd runs)))%list
    /\ (0 <= maxRetries (retryConfig client) ->
        Forall bounded (List.concat (map snd runs))).
Proof.
  induction n as [|n IH]; intros i acc sched h rs ev H.
  - injection H as <- <-. exists []. cbn. rewrite app_nil_r.
    repeat split; constructor.
  - cbn [Handlers.batch_loop] in H.
    destruct (Handlers.settle_batch P client sched (Handlers.batch_at ids i) h)
      as [[batchResults ev1] sched1] eqn:E1.
    match type of H with context [Handlers.batch_loop _ _ _ _ ?i' ?acc' _ ?h'] =>
      destruct (Handlers.batch_loop P client ids n i' acc' sched1 h') as [rs2 ev2] eqn:E2
    end.
    injection H as <- <-.
    destruct (settle_batch_run _ _ _ _ _ _ E1) as (calls & Hrun & Hrecords & Hb).
    change (i + Handlers.CONCURRENCY_LIMIT)%nat with (i + 5)%nat in E2.
    destruct (IH _ _ _ _ _ _ E2) as (runs & Hruns & -> & -> & Hbs).
    exists ((ev1, calls) :: runs). rewrite bs_succ.
    split; [|split; [|split]].
    + constructor; assumption.
    + reflexivity.
    + cbn [map List.concat fst snd]. rewrite map_app, <- Hrecords, app_assoc. reflexivity.
    + intros Hmax. cbn [map List.concat fst snd]. apply Forall_app.
      split; [exact (Hb Hmax) | exact (Hbs Hmax)].
Qed.

End BulkDelete.

Lemma deletion_record_id P client i own : id (deletion_record P client i own) = i.
Proof.
  unfold deletion_record. destruct (rev own) as [|[q r|w|d|r|r|u c] l]; try reflexivity.
  - destruct (status r =? 204); reflexivity.
  - destruct (json_any P (body r)); reflexivity.
Qed.

Lemma batch_run_ids P client batch t calls :
  batch_run P client batch t calls -> map id (map snd calls) = batch.
Proof.
  intros (Hruns & _). induction Hruns as [|i c batch calls (_ & Hrec) _ IH]; [reflexivity|].
  cbn [map]. rewrite Hrec, deletion_record_id, IH. reflexivity.
Qed.

Lemma batch_runs_ids P client batches0 :
  forall runs : list (list Event * list (list Event * DeleteResult)),
    Forall2 (fun batch br => batch_run P client batch (fst br) (snd br)) batches0 runs ->
    map id (map snd (List.concat (map snd runs))) = List.concat batches0.
Proof.
  induction 1 as [|batch br batches0 runs Hrun _ IH]; [reflexivity|].
  cbn [map List.concat]. rewrite !map_app, IH, (batch_run_ids _ _ _ _ _ Hrun).
  reflexivity.
Qed.

(** C8.  For every list of identifiers and every order in which the
    event loop takes the overlapping deletions, [handleBulkDelete] runs
    the deletions batch after batch and ends with one record per
    identifier.  The batches are the consecutive slices of 5 identifiers,
    the last one of 1 to 5.  The events of the run are those of the first
    batch, then those of the second, and so on: no deletion of a batch
    starts before every deletion of the batch before it is settled.
    Within a batch every deletion sends its first request before any
    answer is handled, and the events of the batch are an interleaving of
    those of its deletions; every request of a deletion is the [DELETE]
    of its identifier.  A failed deletion stops nothing: the record of an
    identifier is a success when the last answer to its deletion is a 204
    or has a body that decodes, and a failure otherwise, with the message
    of its error.  The text returned gives the number of successes out of
    the total, and the number and the list of the failures when there are
    some. *)
Theorem handleBulkDelete_settles_every_id
    P client (sched : list nat) (ids : list string) h :
  exists runs : list (list Event * list (list Event * DeleteResult)),
    let records := map snd (List.concat (map snd runs)) in
    let succeeded := List.length (filter success records) in
    let failed := filter (fun r => negb (success r)) records in
    let summary :=
      "Bulk delete completed." ++ LF ++ LF ++ "Successfully deleted: "
        ++ Z_to_string (Z.of_nat succeeded) ++ "/"
        ++ Z_to_string (Z.of_nat (List.length ids)) ++ " documents" in
    List.concat (batches ids) = ids
    /\ Forall (fun b => (0 < List.length b <= 5)%nat) (batches ids)
    /\ Forall (fun b => List.length b = 5%nat) (removelast (batches ids))
    /\ Forall2 (fun batch br => batch_run P client batch (fst br) (snd br))
         (batches ids) runs
    /\ snd (Handlers.handleBulkDelete P client sched ids h) = List.concat (map fst runs)
    /\ map id records = ids
    /\ (succeeded + List.length failed = List.length ids)%nat
    /\ fst (Handlers.handleBulkDelete P client sched ids h)
       = Ok (if (0 <? List.length failed)%nat then
               summary ++ LF ++ LF ++ "Failed to delete "
                 ++ Z_to_string (Z.of_nat (List.length failed)) ++ " documents:" ++ LF
                 ++ String.concat LF
                      (map (fun f => "- " ++ id f ++ ": "
                                       ++ or_default (error_message f) "undefined")
                         failed)
             else summary).
Proof.
  unfold Handlers.handleBulkDelete, Handlers.bulk_results.
  destruct (Handlers.batch_loop P client ids
              (Handlers.batch_count (List.length ids) 0) 0 [] sched h) as [rs ev] eqn:E.
  destruct (batch_loop_runs P client ids _ _ _ _ _ _ _ E) as (runs & Hruns & -> & -> & _).
  pose proof (bs_concat ids (Handlers.batch_count (List.length ids) 0) 0 eq_refl)
    as Hconcat.
  rewrite skipn_0 in Hconcat.
  pose proof (bs_sizes ids (Handlers.batch_count (List.length ids) 0) 0 eq_refl)
    as Hsizes.
  pose proof (bs_full ids (Handlers.batch_count (List.length ids) 0) 0 eq_refl)
    as Hfull.
  fold (batches ids) in Hruns, Hconcat, Hsizes, Hfull.
  pose proof (batch_runs_ids _ _ _ _ Hruns) as Hids. rewrite Hconcat in Hids.
  exists runs. cbv zeta. cbn [app fst snd].
  split; [exact Hconcat|]. split; [exact Hsizes|]. split; [exact Hfull|].
  split; [exact Hruns|]. split; [reflexivity|]. split; [exact Hids|].
  split.
  { rewrite filter_split_length.
    apply (f_equal (@List.length string)) in Hids. rewrite length_map in Hids. exact Hids. }
  reflexivity.
Qed.

(** The deletions of [a] and [b] overlap: the first request of [a] is
    answered 429, the request of [b], sent before that answer is handled,
    is answered 204, and the second request of [a] is answered 500.  The
    deletion of [a] fails and that of [b] succeeds, whatever the
    schedule; here are two. *)
Lemma handleBulkDelete_settles_every_id_witness :
  let P := Fixtures.platform
             (Fixtures.scripted [Fixtures.r429 "1"; Fixtures.r204; Fixtures.r500]
                Fixtures.r500) [] in
  let text := "Bulk delete completed." ++ LF ++ LF
                ++ "Successfully deleted: 1/2 documents" ++ LF ++ LF
                ++ "Failed to delete 1 documents:" ++ LF
                ++ "- a: Readwise API error: 500 TXT - boom" in
  let run := Handlers.handleBulkDelete P Fixtures.client [1; 0; 1]%nat ["a"; "b"] [] in
  fst run = Ok text
  /\ fst (Handlers.handleBulkDelete P Fixtures.client [] ["a"; "b"] []) = Ok text
  /\ map req_url (requests (snd run))
     = ["https://readwise.io/api/v3/delete/a/";
        "https://readwise.io/api/v3/delete/b/";
        "https://readwise.io/api/v3/delete/a/"]
  /\ exists runs : list (list Event * list (list Event * DeleteResult)),
       Forall2 (fun batch br => batch_run P Fixtures.client batch (fst br) (snd br))
         [["a"; "b"]] runs
       /\ snd run = List.concat (map fst runs)
       /\ map id (map snd (List.concat (map snd runs))) = ["a"; "b"].
Proof.
  intros P text run.
  split; [vm_compute; reflexivity|]. split; [vm_compute; reflexivity|].
  split; [vm_compute; reflexivity|].
  destruct (handleBulkDelete_settles_every_id P Fixtures.client [1; 0; 1]%nat ["a"; "b"] [])
    as (runs & _ & _ & _ & Hruns & Ht & Hids & _).
  exists runs. split; [exact Hruns|]. split; [exact Ht | exact Hids].
Defined.

(** Twelve identifiers of which the third and the ninth fail: ten
    successes, the two failures listed with their messages. *)
Example bulk_delete_twelve :
  let ok := Fixtures.r204 in
  let ko := Fixtures.r500 in
  let P := Fixtures.platform
             (Fixtures.scripted [ok; ok; ko; ok; ok; ok; ok; ok; ko; ok; ok; ok] ok) [] in
  fst (Handlers.handleBulkDelete P Fixtures.client [2; 0; 1; 3]%nat
         ["i1"; "i2"; "i3"; "i4"; "i5"; "i6"; "i7"; "i8"; "i9"; "i10"; "i11"; "i12"] [])
  = Ok ("Bulk delete completed." ++ LF ++ LF
          ++ "Successfully deleted: 10/12 documents" ++ LF ++ LF
          ++ "Failed to delete 2 documents:" ++ LF
          ++ "- i3: Readwise API error: 500 TXT - boom" ++ LF
          ++ "- i9: Readwise API error: 500 TXT - boom")
  /\ map (@List.length string)
       (batches ["i1"; "i2"; "i3"; "i4"; "i5"; "i6"; "i7"; "i8"; "i9"; "i10"; "i11"; "i12"])
     = [5; 5; 2]%nat.
Proof. split; vm_compute; reflexivity. Qed.

(** *** The requests of a run of [handleBulkDelete] *)

Lemma merge_In {A} (ls : list (list A)) t :
  merge ls t -> forall x, In x t -> exists l, In l ls /\ In x l.
Proof.
  induction 1 as [ls Hall|ls1 x0 l ls2 t _ IH]; intros x Hx; [destruct Hx|].
  destruct Hx as [<-|Hx].
  - exists (x0 :: l). split; [apply in_elt | left; reflexivity].
  - destruct (IH x Hx) as (l0 & Hl0 & Hin).
    apply in_app_or in Hl0. destruct Hl0 as [Hl0|[<-|Hl0]].
    + exists l0. split; [apply in_or_app; left; exact Hl0 | exact Hin].
    + exists (x0 :: l). split; [apply in_elt | right; exact Hin].
    + exists l0. split; [apply in_or_app; right; right; exact Hl0 | exact Hin].
Qed.

Lemma merge_requests (owns : list (list Event)) t :
  merge owns t -> merge (map requests owns) (requests t).
Proof.
  apply merge_flat_map. intros [q r|w|d|r|r|u c]; cbn; lia.
Qed.

Lemma merge_responses (owns : list (list Event)) t :
  merge owns t -> merge (map responses owns) (responses t).
Proof.
  apply merge_flat_map. intros [q r|w|d|r|r|u c]; cbn; lia.
Qed.

Lemma batch_run_requests P client batch t calls :
  batch_run P client batch t calls ->
  Forall (fun q => exists i, q = delete_request client i) (requests t).
Proof.
  intros (Hruns & Hmerge & _). apply Forall_forall. intros q Hq.
  destruct (merge_In _ _ (merge_requests _ _ Hmerge) q Hq) as (l & Hl & Hin).
  rewrite map_map in Hl. apply in_map_iff in Hl. destruct Hl as (c & <- & Hc).
  clear Hmerge Hq. induction Hruns as [|i c0 batch calls (Hreq & _) _ IH]; [destruct Hc|].
  destruct Hc as [->|Hc]; [|exact (IH Hc)].
  rewrite Hreq in Hin. apply repeat_spec in Hin. exists i. exact Hin.
Qed.

Lemma batch_run_count P client batch t calls k :
  batch_run P client batch t calls ->
  Forall (fun c : list Event * DeleteResult =>
            (1 <= List.length (responses (fst c)) <= k)%nat) calls ->
  (List.length batch <= List.length (responses t) <= List.length batch * k)%nat.
Proof.
  intros (Hruns & Hmerge & _) Hb.
  rewrite (merge_length _ _ (merge_responses _ _ Hmerge)).
  apply Forall2_length in Hruns. rewrite Hruns. clear Hruns Hmerge.
  induction Hb as [|c calls Hc _ IH]; [cbn; lia|].
  cbn [map List.length].
  change (list_sum (?x :: ?l)) with (x + list_sum l)%nat. lia.
Qed.

Lemma batch_runs_count P client k batches0 :
  forall runs : list (list Event * list (list Event * DeleteResult)),
    Forall2 (fun batch br => batch_run P client batch (fst br) (snd br)) batches0 runs ->
    Forall (fun c : list Event * DeleteResult =>
              (1 <= List.length (responses (fst c)) <= k)%nat)
      (List.concat (map snd runs)) ->
    (List.length (List.concat batches0)
     <= List.length (responses (List.concat (map fst runs)))
     <= List.length (List.concat batches0) * k)%nat.
Proof.
  induction 1 as [|batch br batches0 runs Hrun _ IH]; intros Hb; [cbn; lia|].
  cbn [map List.concat] in *. apply Forall_app in Hb. destruct Hb as [Hb1 Hb2].
  pose proof (batch_run_count _ _ _ _ _ _ Hrun Hb1).
  specialize (IH Hb2).
  rewrite responses_app, !length_app. lia.
Qed.

Lemma batch_runs_requests P client batches0 :
  forall runs : list (list Event * list (list Event * DeleteResult)),
    Forall2 (fun batch br => batch_run P client batch (fst br) (snd br)) batches0 runs ->
    Forall (fun q => exists i, q = delete_request client i)
      (requests (List.concat (map fst runs))).
Proof.
  induction 1 as [|batch br batches0 runs Hrun _ IH]; [constructor|].
  cbn [map List.concat]. unfold requests in *. rewrite flat_map_app.
  apply Forall_app. split; [exact (batch_run_requests _ _ _ _ _ Hrun) | exact IH].
Qed.

(** * Further properties *)

(** ** More on [makeRequest]: the extras *)

(** X1.  Whatever the service answers, one call of [makeRequest] sends
    the same request each time, at most [maxRetries + 1] times, and not at
    all when [maxRetries] is negative. *)
Theorem makeRequest_request_bound
    P this T (decode : string -> JsError + T) endpoint options h :
  let t := snd (Client.makeRequest P this decode endpoint options h) in
  requests t
  = repeat (Client.request_of this endpoint options) (List.length (responses t))
  /\ Z.of_nat (List.length (responses t)) <= Z.max 0 (maxRetries (retryConfig this) + 1).
Proof.
  cbv zeta. unfold Client.makeRequest.
  destruct (Client.attempt_loop P this decode (Client.request_of this endpoint options)
              (Client.trips this 0) 0 None h) as [r t] eqn:Hrun.
  destruct (loop_requests P this T decode _ _ _ _ _ _ _ Hrun) as [Hreq Hlen].
  cbn [snd]. split; [exact Hreq|]. unfold Client.trips in Hlen. lia.
Qed.

(** The waits of [waits_of], written out. *)
Lemma waits_of_formula this :
  0 < baseDelayMs (retryConfig this) ->
  0 <= maxDelayMs (retryConfig this) <= 2 ^ 53 ->
  forall rs k,
    waits_of this (Z.of_nat k) rs
    = map (fun kr =>
             Math_max
               (Math_min
                  (num_mul
                     match headers_get "Retry-After" (snd kr) with
                     | Some s => if str_truthy s then parseInt s else Num 60
                     | None => Num 60
                     end (Num 1000))
                  (Num (maxDelayMs (retryConfig this))))
               (Num (Z.min (baseDelayMs (retryConfig this) * 2 ^ Z.of_nat (fst kr))
                       (maxDelayMs (retryConfig this)))))
        (combine (seq k (List.length rs)) rs).
Proof.
  intros Hbase HM. induction rs as [|r rs IH]; intros k; [reflexivity|].
  cbn [waits_of List.length seq combine map fst snd]. f_equal.
  - unfold Client.actualDelay.
    rewrite (exponentialDelay_value this Hbase HM) by lia. reflexivity.
  - replace (Z.of_nat k + 1) with (Z.of_nat (S k)) by lia. apply IH.
Qed.

(** X2.  In every run of [makeRequest], every answer but the last one is
    a 429 and each of them is followed by one warning and one wait.  With
    a positive [baseDelayMs] and a [maxDelayMs] from 0 to [2^53], the wait
    after the [k]-th answer (from 0) is [max(min(s * 1000, maxDelayMs),
    min(baseDelayMs * 2^k, maxDelayMs))], where [s] is what [parseInt]
    reads in the [Retry-After] of that answer, and 60 without one. *)
Theorem makeRequest_retry_schedule
    P this T (decode : string -> JsError + T) endpoint options h :
  0 < baseDelayMs (retryConfig this) ->
  0 <= maxDelayMs (retryConfig this) <= 2 ^ 53 ->
  let t := snd (Client.makeRequest P this decode endpoint options h) in
  let retried := removelast (responses t) in
  let M := maxDelayMs (retryConfig this) in
  Forall (fun resp => status resp = 429) retried
  /\ List.length (warnings t) = List.length retried
  /\ waits t
     = map (fun kr =>
              let s :=
                match headers_get "Retry-After" (snd kr) with
                | Some retryAfter =>
                    if str_truthy retryAfter then parseInt retryAfter else Num 60
                | None => Num 60
                end in
              Math_max (Math_min (num_mul s (Num 1000)) (Num M))
                (Num (Z.min (baseDelayMs (retryConfig this) * 2 ^ Z.of_nat (fst kr)) M)))
         (combine (seq 0 (List.length retried)) retried).
Proof.
  intros Hbase HM. cbv zeta. unfold Client.makeRequest.
  destruct (Client.attempt_loop P this decode (Client.request_of this endpoint options)
              (Client.trips this 0) 0 None h) as [r t] eqn:Hrun.
  cbn [snd].
  destruct (loop_retried P this T decode _ _ _ _ _ _ _ eq_refl Hrun) as (Hall & _ & Hw).
  split; [|split].
  - destruct (responses t) as [|x l] eqn:E using rev_ind; [constructor|].
    rewrite removelast_last. exact (Hall _ _ eq_refl).
  - rewrite Hw. destruct (responses t) as [|x l] using rev_ind; [reflexivity|].
    rewrite removelast_last, length_app. cbn. lia.
  - rewrite (loop_wait_schedule P this T decode _ _ _ _ _ _ _ eq_refl Hrun).
    exact (waits_of_formula this Hbase HM _ 0%nat).
Qed.

Lemma makeRequest_retry_schedule_witness :
  let P := Fixtures.platform
             (Fixtures.scripted [Fixtures.r429 "7"; Fixtures.r429_bare] Fixtures.r204) [] in
  let t := snd (Client.makeRequest P Fixtures.client (json_any P) "/tags/" no_options []) in
  responses t = [Fixtures.r429 "7"; Fixtures.r429_bare; Fixtures.r204]
  /\ waits t = [Num 7000; Num 60000].
Proof.
  intros P t. split; [reflexivity|].
  destruct (makeRequest_retry_schedule P Fixtures.client JsVal (json_any P)
              "/tags/" no_options []
              ltac:(vm_compute; reflexivity) ltac:(split; vm_compute; discriminate))
    as (_ & _ & Hw).
  fold t in Hw. rewrite Hw. reflexivity.
Defined.

(** X3.  A value returned by [makeRequest] comes from the last answer of
    the run and from a 2xx answer only: [undefined] from a 204, whose body
    is not read, and otherwise the decoded body of that answer. *)
Theorem makeRequest_value_origin
    P this T (decode : string -> JsError + T) endpoint options h v t :
  Client.makeRequest P this decode endpoint options h = (Ok v, t) ->
  let q := Client.request_of this endpoint options in
  exists t' resp,
    ok resp = true
    /\ ((status resp = 204 /\ v = None /\ t = (t' ++ [EFetch q resp])%list)
        \/ (status resp <> 204
            /\ t = (t' ++ [EFetch q resp; EJson resp])%list
            /\ exists x, v = Some x /\ decode (body resp) = inr x)).
Proof. intros Hrun. exact (loop_value P this T decode _ _ _ _ _ _ _ Hrun). Qed.

Lemma makeRequest_value_origin_witness :
  let P := Fixtures.platform
             (Fixtures.scripted [Fixtures.r429 "7"; Fixtures.r200 "tags"] Fixtures.r500) [] in
  exists t' resp,
    ok resp = true
    /\ ((status resp = 204 /\ Some (VStr "tags") = None
         /\ snd (Client.makeRequest P Fixtures.client (json_any P) "/tags/" no_options [])
            = (t' ++ [EFetch (Client.request_of Fixtures.client "/tags/" no_options) resp])%list)
        \/ (status resp <> 204
            /\ snd (Client.makeRequest P Fixtures.client (json_any P) "/tags/" no_options [])
               = (t' ++ [EFetch (Client.request_of Fixtures.client "/tags/" no_options) resp;
                         EJson resp])%list
            /\ exists x, Some (VStr "tags") = Some x /\ json_any P (body resp) = inr x)).
Proof.
  intros P.
  exact (makeRequest_value_origin P Fixtures.client JsVal (json_any P) "/tags/"
           no_options [] (Some (VStr "tags")) _ eq_refl).
Defined.

(** X4.  In a run where every call of [fetch] is answered and every
    body that is read can be read, and with an integer [maxRetries], a
    failure of [makeRequest] is of one of four kinds, each decided by the
    last answer of the run: the rate limit error after a last answer 429;
    the API error after an answer that is neither 2xx nor 429; the error
    of [response.json()] after a 2xx answer other than 204 whose body
    does not decode; and ['Request failed'], with no request made, which
    happens exactly when [maxRetries] is negative.  A [fetch] or a
    [response.text()] that rejects makes [makeRequest] reject with that
    error: such runs are not among the runs of [makeRequest] here. *)
Theorem makeRequest_failure_kinds
    P this T (decode : string -> JsError + T) endpoint options h :
  let q := Client.request_of this endpoint options in
  (forall e t,
      Client.makeRequest P this decode endpoint options h = (Throw e, t) ->
      (t = [] /\ maxRetries (retryConfig this) < 0 /\ e = Error "Request failed")
      \/ exists t' resp,
           (status resp = 429
            /\ t = (t' ++ [EFetch q resp])%list
            /\ e = Client.rate_limit_error this (Client.retryAfterSeconds resp))
           \/ (ok resp = false /\ status resp <> 429
               /\ t = (t' ++ [EFetch q resp; EText resp])%list
               /\ e = Client.api_error resp (body resp))
           \/ (ok resp = true /\ status resp <> 204
               /\ t = (t' ++ [EFetch q resp; EJson resp])%list
               /\ decode (body resp) = inl e))
  /\ (maxRetries (retryConfig this) < 0 ->
      Client.makeRequest P this decode endpoint options h
      = (Throw (Error "Request failed"), [])).
Proof.
  cbv zeta. split.
  - intros e t Hrun.
    exact (loop_failure P this T decode _ _ _ _ _ _ eq_refl Hrun).
  - intros Hneg. unfold Client.makeRequest, Client.trips.
    replace (Z.to_nat (maxRetries (retryConfig this) + 1 - 0)) with 0%nat by lia.
    reflexivity.
Qed.

Lemma makeRequest_failure_kinds_witness :
  let P := Fixtures.platform (Fixtures.scripted [Fixtures.r200 "{"] Fixtures.r500) [] in
  Client.makeRequest P Fixtures.negative (json_any P) "/tags/" no_options []
  = (Throw (Error "Request failed"), [])
  /\ fst (Client.makeRequest P Fixtures.client
            (fun _ : string => inl (Error "Unexpected end of JSON input") : JsError + JsVal)
            "/tags/" no_options [])
     = Throw (Error "Unexpected end of JSON input").
Proof.
  intros P. split.
  - exact (proj2 (makeRequest_failure_kinds P Fixtures.negative JsVal (json_any P)
                    "/tags/" no_options []) ltac:(vm_compute; reflexivity)).
  - pose (dec := fun _ : string => inl (Error "Unexpected end of JSON input") : JsError + JsVal).
    pose (run := Client.makeRequest P Fixtures.client dec "/tags/" no_options []).
    destruct (proj1 (makeRequest_failure_kinds P Fixtures.client JsVal dec
                       "/tags/" no_options [])
                (Error "Unexpected end of JSON input") (snd run) eq_refl)
      as [(_ & C & _)|_]; [vm_compute in C; discriminate C | reflexivity].
Defined.

(** X5.  A [Retry-After] that is set and does not start with a number (an
    HTTP date, for one) is read as [NaN]: in every run the wait that
    follows such an answer is [NaN], and when such an answer 429 is the
    last of the run the error asks to wait [NaN] seconds. *)
Theorem non_numeric_retry_after
    P this T (decode : string -> JsError + T) endpoint options h r t resp retryAfter :
  Client.makeRequest P this decode endpoint options h = (r, t) ->
  headers_get "Retry-After" resp = Some retryAfter ->
  str_truthy retryAfter = true ->
  parseInt retryAfter = NaN ->
  let q := Client.request_of this endpoint options in
  (forall t1 w d t2,
      t = (t1 ++ EFetch q resp :: EWarn w :: ESleep d :: t2)%list -> d = NaN)
  /\ (forall t',
         t = (t' ++ [EFetch q resp])%list ->
         status resp = 429 ->
         r = Throw (Error
               ("Rate limit exceeded after "
                  ++ Z_to_string (maxRetries (retryConfig this))
                  ++ " retries. Please wait NaN seconds before trying again."))).
Proof.
  intros Hrun Hget Htruthy Hparse q.
  assert (Hsec : Client.retryAfterSeconds resp = NaN).
  { unfold Client.retryAfterSeconds. rewrite Hget, Htruthy. exact Hparse. }
  split.
  - intros t1 w d t2 Ht.
    rewrite (loop_waits P this T decode _ _ _ _ _ _ _ Hrun _ _ _ _ _ Ht), Hsec.
    reflexivity.
  - intros t' Ht Hst.
    rewrite (loop_last_429 P this T decode _ _ _ _ _ _ _ Hrun _ _ Ht Hst), Hsec.
    reflexivity.
Qed.

Lemma non_numeric_retry_after_witness :
  let date := "Wed, 21 Oct 2015 07:28:00 GMT" in
  let P := Fixtures.platform (Fixtures.scripted [] (Fixtures.r429 date)) [] in
  let run := Client.makeRequest P Fixtures.client (json_any P) "/tags/" no_options [] in
  nth_error (snd run) 2 = Some (ESleep NaN)
  /\ fst run = Throw (Error
       "Rate limit exceeded after 3 retries. Please wait NaN seconds before trying again.").
Proof.
  intros date P run.
  destruct (non_numeric_retry_after P Fixtures.client JsVal (json_any P)
              "/tags/" no_options [] (fst run) (snd run) (Fixtures.r429 date) date
              (surjective_pairing run) eq_refl eq_refl eq_refl)
    as [A B].
  split.
  - assert (HA := A [] "Rate limited. Retrying in NaNs (attempt 1/3)..." NaN
                    (skipn 3 (snd run)) eq_refl).
    reflexivity.
  - exact (B (firstn 9 (snd run)) eq_refl eq_refl).
Defined.

(** X6.  With a positive [baseDelayMs] and a [maxDelayMs] from 0 to
    [2^53], the exponential backoff does not decrease from one attempt to
    a later one and never exceeds [maxDelayMs], and a wait computed from
    a numeric [Retry-After] is never below the backoff of its attempt nor
    above [maxDelayMs].  With a [baseDelayMs] of 0 the backoff, and with
    it every wait, is [NaN] from the attempt 1024 on, where [Math.pow(2,
    attempt)] is [Infinity]. *)
Theorem backoff_monotone_capped this attempt later seconds :
  (0 < baseDelayMs (retryConfig this) ->
   0 <= maxDelayMs (retryConfig this) <= 2 ^ 53 ->
   0 <= attempt <= later ->
   exists x y w,
     Client.exponentialDelay this attempt = Num x
     /\ Client.exponentialDelay this later = Num y
     /\ Client.actualDelay this attempt (Num seconds) = Num w
     /\ x = Z.min (baseDelayMs (retryConfig this) * 2 ^ attempt)
              (maxDelayMs (retryConfig this))
     /\ x <= y <= maxDelayMs (retryConfig this)
     /\ x <= w <= maxDelayMs (retryConfig this))
  /\ (baseDelayMs (retryConfig this) = 0 ->
      1024 <= attempt ->
      Client.exponentialDelay this attempt = NaN
      /\ forall s, Client.actualDelay this attempt s = NaN).
Proof.
  split.
  - intros Hbase HM [H0 Hle].
    rewrite !(exponentialDelay_value this Hbase HM) by lia.
    rewrite (actualDelay_value this Hbase HM) by lia.
    eexists _, _, _. repeat split; try reflexivity; try lia.
    assert (2 ^ attempt <= 2 ^ later) by (apply Z.pow_le_mono_r; lia).
    assert (baseDelayMs (retryConfig this) * 2 ^ attempt
            <= baseDelayMs (retryConfig this) * 2 ^ later)
      by (apply Z.mul_le_mono_nonneg_l; lia).
    lia.
  - intros Hzero Hbig.
    assert (He : Client.exponentialDelay this attempt = NaN).
    { unfold Client.exponentialDelay, Math_pow2. rewrite Hzero.
      replace (attempt <? 1024) with false by (symmetry; apply Z.ltb_ge; exact Hbig).
      reflexivity. }
    split; [exact He|].
    intros s. unfold Client.actualDelay. rewrite He.
    destruct (Client.delayMs this s); reflexivity.
Qed.

Lemma backoff_monotone_capped_witness :
  (exists x y w,
     Client.exponentialDelay Fixtures.client 2 = Num x
     /\ Client.exponentialDelay Fixtures.client 7 = Num y
     /\ Client.actualDelay Fixtures.client 2 (Num 1) = Num w
     /\ x = Z.min (1000 * 2 ^ 2) 60000
     /\ x <= y <= 60000
     /\ x <= w <= 60000)
  /\ Client.exponentialDelay MoreFixtures.no_backoff 1024 = NaN.
Proof.
  split.
  - exact (proj1 (backoff_monotone_capped Fixtures.client 2 7 1)
             ltac:(vm_compute; reflexivity) ltac:(split; vm_compute; discriminate)
             ltac:(lia)).
  - exact (proj1 (proj2 (backoff_monotone_capped MoreFixtures.no_backoff 1024 1024 0)
                    eq_refl ltac:(lia))).
Defined.

(** ** The requests *)

Lemma obj_lookup_app {V} k (a b : obj V) :
  obj_lookup k (a ++ b)%list
  = match obj_lookup k a with Some v => Some v | None => obj_lookup k b end.
Proof.
  induction a as [|[k0 v0] a IH]; cbn; [reflexivity|].
  destruct (String.eqb k k0); [reflexivity | exact IH].
Qed.

Lemma obj_lookup_set {V} k k' (v : V) (o : obj V) :
  obj_lookup k (obj_set k' v o)
  = if String.eqb k k' then Some v else obj_lookup k o.
Proof.
  destruct (String.eqb k k') eqn:E.
  - apply String.eqb_eq in E. subst k'. apply obj_lookup_set_same.
  - apply String.eqb_neq in E. apply obj_lookup_set_other. exact E.
Qed.

Lemma obj_lookup_spread {V} k (b : obj V) : forall a,
  obj_lookup k (obj_spread a b)
  = match obj_lookup k (rev b) with
    | Some v => Some v
    | None => obj_lookup k a
    end.
Proof.
  unfold obj_spread.
  induction b as [|[k' v'] b IH]; intros a; [reflexivity|].
  cbn [fold_left rev fst snd]. rewrite IH, obj_lookup_app, obj_lookup_set.
  destruct (obj_lookup k (rev b)); [reflexivity|].
  cbn [obj_lookup]. destruct (String.eqb k k'); reflexivity.
Qed.

(** X7.  The headers object that [makeRequest] passes to [fetch] has the
    caller's headers, the later one winning for a repeated name, and under
    them the two defaults: [Authorization] with the token and the JSON
    [Content-Type], which a caller's header of the same name replaces.
    The method and the body are the caller's. *)
Theorem request_headers_merge this endpoint options k :
  let q := Client.request_of this endpoint options in
  obj_lookup k (req_headers q)
  = match obj_lookup k (rev (init_headers options)) with
    | Some v => Some v
    | None =>
        if String.eqb k "Authorization" then Some ("Token " ++ token this)
        else if String.eqb k "Content-Type" then Some "application/json"
        else None
    end
  /\ req_method q = init_method options
  /\ req_body q = init_body options.
Proof.
  cbv zeta. split; [|split; reflexivity].
  unfold Client.request_of. cbn [req_headers]. rewrite obj_lookup_spread.
  reflexivity.
Qed.

Section Safe.

Variable this : ReadwiseClient.

Lemma requests_app t1 t2 : requests (t1 ++ t2) = (requests t1 ++ requests t2)%list.
Proof. apply flat_map_app. Qed.

Lemma safe_ret {A} (a : A) : fetches_with_api_url this (ret a).
Proof. intros h. constructor. Qed.

Lemma safe_throw {A} e : fetches_with_api_url this (@throw A e).
Proof. intros h. constructor. Qed.

Lemma safe_out_of_fuel {A} : fetches_with_api_url this (@out_of_fuel A).
Proof. intros h. constructor. Qed.

Lemma safe_bind {A B} (m : M A) (f : A -> M B) :
  fetches_with_api_url this m ->
  (forall a, fetches_with_api_url this (f a)) ->
  fetches_with_api_url this (bind m f).
Proof.
  intros Hm Hf h. unfold bind. specialize (Hm h).
  destruct (m h) as [[a|e|] t1]; cbn [snd] in *; try exact Hm.
  specialize (Hf a (h ++ t1)%list).
  destruct (f a (h ++ t1)%list) as [r t2]. cbn [snd] in *.
  rewrite requests_app. apply Forall_app. split; assumption.
Qed.

Lemma safe_settle {A} (m : M A) :
  fetches_with_api_url this m -> fetches_with_api_url this (settle m).
Proof.
  intros Hm h. unfold settle. specialize (Hm h).
  destruct (m h) as [[a|e|] t1]; exact Hm.
Qed.

Lemma safe_mapM {A B} (f : A -> M B) l :
  (forall x, fetches_with_api_url this (f x)) ->
  fetches_with_api_url this (mapM f l).
Proof.
  intros Hf. induction l as [|x l IH]; cbn [mapM].
  - apply safe_ret.
  - apply safe_bind; [apply Hf|]. intros y.
    apply safe_bind; [exact IH|]. intros ys. apply safe_ret.
Qed.

Lemma safe_allSettled {A B} (f : A -> M B) l :
  (forall x, fetches_with_api_url this (f x)) ->
  fetches_with_api_url this (settle_in_turn f l).
Proof. intros Hf. apply safe_mapM. intros x. apply safe_settle. apply Hf. Qed.

Lemma safe_all {A B} (f : A -> M B) l :
  (forall x, fetches_with_api_url this (f x)) ->
  fetches_with_api_url this (Promise_all f l).
Proof.
  intros Hf. apply safe_bind; [apply safe_allSettled; exact Hf|].
  intros outs. destruct (all_fulfilled outs); [apply safe_throw | apply safe_ret].
Qed.

Lemma api_url_relative rest options :
  init_headers options = [] ->
  api_url_and_token this (Client.request_of this (String "/" rest) options).
Proof.
  intros Hh. unfold api_url_and_token, Client.request_of. cbn [req_url req_headers].
  rewrite Hh. split; reflexivity.
Qed.

Lemma api_url_auth : api_url_and_token this (Client.request_of this authUrl no_options).
Proof. split; reflexivity. Qed.

Variable P : Platform.

Lemma safe_makeRequest {T} (decode : string -> JsError + T) endpoint options :
  api_url_and_token this (Client.request_of this endpoint options) ->
  fetches_with_api_url this (Client.makeRequest P this decode endpoint options).
Proof.
  intros Hq h. unfold Client.makeRequest.
  destruct (Client.attempt_loop P this decode (Client.request_of this endpoint options)
              (Client.trips this 0) 0 None h) as [r t] eqn:Hrun.
  destruct (loop_requests P this T decode _ _ _ _ _ _ _ Hrun) as [Hreq _].
  cbn [snd]. rewrite Hreq. apply Forall_forall. intros x Hx.
  apply repeat_spec in Hx. subst x. exact Hq.
Qed.

Lemma safe_list_request params :
  fetches_with_api_url this
    (Client.makeRequest P this (json_list P) (Client.list_endpoint P params) no_options).
Proof. apply safe_makeRequest. apply api_url_relative. reflexivity. Qed.

Lemma safe_listDocuments params :
  fetches_with_api_url this (Client.listDocuments P this params).
Proof.
  assert (Hplain : fetches_with_api_url this (Client.plain_list P this params)).
  { apply safe_bind; [apply safe_list_request|]. intros r. apply safe_ret. }
  unfold Client.listDocuments.
  destruct (truthy (obj_get "withFullContent" params)); [|exact Hplain].
  apply safe_bind; [apply safe_list_request|]. intros [cr|]; [|apply safe_throw].
  destruct (count cr >? 5); [|exact Hplain].
  apply safe_bind; [apply safe_list_request|]. intros r. apply safe_ret.
Qed.

Lemma safe_collect_pages fuel : forall base all cursor,
  fetches_with_api_url this (Client.collect_pages P this fuel base all cursor).
Proof.
  induction fuel as [|fuel IH]; intros base all cursor; cbn [Client.collect_pages].
  - apply safe_out_of_fuel.
  - apply safe_bind; [apply safe_listDocuments|]. intros response.
    destruct (data response) as [d|]; [|apply safe_throw].
    cbv zeta. destruct (cursor_truthy (nextPageCursor d)); [apply IH | apply safe_ret].
Qed.

Lemma safe_deleteDocument id0 :
  fetches_with_api_url this (Client.deleteDocument P this id0).
Proof.
  unfold Client.deleteDocument. apply safe_bind; [|intros r; apply safe_ret].
  apply safe_makeRequest. apply api_url_relative. reflexivity.
Qed.

Lemma safe_data_prop d k : fetches_with_api_url this (data_prop d k).
Proof.
  unfold data_prop. destruct d as [v|]; [|apply safe_throw].
  destruct (js_prop v k); [apply safe_throw | apply safe_ret].
Qed.

Lemma safe_hydrate inc doc : fetches_with_api_url this (Handlers.hydrate P inc doc).
Proof.
  assert (Hc : fetches_with_api_url this (Handlers.convert_url P doc)).
  { unfold Handlers.convert_url. destruct (truthy (Handlers.urlToConvert doc));
      [|apply safe_ret].
    intros h. unfold Handlers.convert.
    destruct (convertUrlToText P h _ _); constructor. }
  unfold Handlers.hydrate. destruct inc; [|apply safe_ret].
  destruct (truthy (obj_get "html_content" doc)); [|exact Hc].
  destruct (Handlers.shouldUseJina doc); [exact Hc | apply safe_ret].
Qed.

Lemma safe_list_output fuel args :
  fetches_with_api_url this (Handlers.list_output P this fuel args).
Proof.
  unfold Handlers.list_output. apply safe_bind.
  - unfold Handlers.fetch_response.
    destruct (truthy (obj_get "addedAfter" _)).
    + destruct (negb _ && negb _)%bool.
      * apply safe_bind; [apply safe_collect_pages|]. intros l. apply safe_ret.
      * apply safe_bind; [apply safe_listDocuments|]. intros response.
        destruct (data response); [apply safe_ret | apply safe_throw].
    + apply safe_bind; [apply safe_listDocuments|]. intros r. apply safe_ret.
  - intros [response filtered]. destruct (data response) as [d|]; [|apply safe_throw].
    apply safe_bind; [|intros docs; apply safe_ret].
    apply safe_all. intros doc. unfold Handlers.document_with_text.
    apply safe_bind; [apply safe_hydrate|]. intros text. apply safe_ret.
Qed.

End Safe.

(** X8.  Every call of [fetch] that an operation of the client or a
    handler makes, whatever its arguments, whatever the service has
    answered and however the deletions of a batch overlap, is given a URL
    that starts with [https://readwise.io/api/] and the header
    [Authorization: Token <token>].  The URL is the string handed to
    [fetch]: an identifier goes into it as it is, so that with [..]
    segments in an identifier the path that the string resolves to can
    leave [/api/], on the same host.  The calls that the content converter
    makes on its own are not calls of the client and are not covered. *)
Theorem client_fetch_urls_and_token P this (JSON_stringify : obj JsVal -> string) :
  fetches_with_api_url this (ClientOps.validateAuth P this)
  /\ (forall data, fetches_with_api_url this
                     (ClientOps.createDocument P this JSON_stringify data))
  /\ (forall params, fetches_with_api_url this (Client.listDocuments P this params))
  /\ (forall id data, fetches_with_api_url this
                        (ClientOps.updateDocument P this JSON_stringify id data))
  /\ (forall id, fetches_with_api_url this (Client.deleteDocument P this id))
  /\ fetches_with_api_url this (ClientOps.listTags P this)
  /\ (forall fuel terms, fetches_with_api_url this
                           (Client.searchDocumentsByTopic P this fuel terms))
  /\ (forall args, fetches_with_api_url this
                     (HandlerOps.handleSaveDocument P this JSON_stringify args))
  /\ (forall fuel args, fetches_with_api_url this
                          (Handlers.handleListDocuments P this fuel args))
  /\ (forall args, fetches_with_api_url this
                     (HandlerOps.handleUpdateDocument P this JSON_stringify args))
  /\ (forall args, fetches_with_api_url this (HandlerOps.handleDeleteDocument P this args))
  /\ (forall sched ids,
         fetches_with_api_url this (Handlers.handleBulkDelete P this sched ids)).
Proof.
  assert (Hcreate : forall data, fetches_with_api_url this
                      (ClientOps.createDocument P this JSON_stringify data)).
  { intros data. apply safe_bind; [|intros r; apply safe_ret].
    apply safe_makeRequest. apply api_url_relative. reflexivity. }
  assert (Hupdate : forall id data, fetches_with_api_url this
                      (ClientOps.updateDocument P this JSON_stringify id data)).
  { intros id data. apply safe_bind; [|intros r; apply safe_ret].
    apply safe_makeRequest. apply api_url_relative. reflexivity. }
  repeat split.
  - apply safe_bind; [|intros r; apply safe_ret].
    apply safe_makeRequest. apply api_url_auth.
  - exact Hcreate.
  - apply safe_listDocuments.
  - exact Hupdate.
  - apply safe_deleteDocument.
  - apply safe_bind; [|intros r; apply safe_ret].
    apply safe_makeRequest. apply api_url_relative. reflexivity.
  - intros fuel terms. apply safe_bind; [apply safe_collect_pages|].
    intros l. apply safe_ret.
  - intros args. unfold HandlerOps.handleSaveDocument.
    apply safe_bind; [apply Hcreate|]. intros response.
    repeat (apply safe_bind; [apply safe_data_prop|]; intros ?). apply safe_ret.
  - intros fuel args. apply safe_bind; [apply safe_list_output|].
    intros o. apply safe_ret.
  - intros args. unfold HandlerOps.handleUpdateDocument.
    apply safe_bind; [apply Hupdate|]. intros response.
    repeat (apply safe_bind; [apply safe_data_prop|]; intros ?). apply safe_ret.
  - intros args. unfold HandlerOps.handleDeleteDocument. cbv zeta.
    apply safe_bind; [apply safe_deleteDocument|]. intros r. apply safe_ret.
  - intros sched ids h.
    unfold Handlers.handleBulkDelete, Handlers.bulk_results.
    destruct (Handlers.batch_loop P this ids
                (Handlers.batch_count (List.length ids) 0) 0 [] sched h) as [rs ev] eqn:E.
    destruct (batch_loop_runs P this ids _ _ _ _ _ _ _ E) as (runs & Hruns & -> & _ & _).
    cbn [snd]. eapply Forall_impl; [|exact (batch_runs_requests _ _ _ _ Hruns)].
    intros q [i ->]. split; reflexivity.
Qed.

(** ** More on [handleListDocuments] *)

Lemma settled_Forall2 {A B} (f : A -> M B) l : forall h outs t,
  settle_in_turn f l h = (Ok outs, t) ->
  Forall2 (fun x out => forall y, out = inr y -> exists h' t', f x h' = (Ok y, t')) l outs.
Proof.
  unfold settle_in_turn.
  induction l as [|x l IH]; intros h outs t H.
  - injection H as <- _. constructor.
  - cbn [mapM] in H. apply bind_ok_inv in H.
    destruct H as (out & t1 & t2 & Hx & H & _).
    apply bind_ok_inv in H. destruct H as (outs' & t3 & t4 & Hl & H & _).
    injection H as <- _. constructor; [|exact (IH _ _ _ Hl)].
    intros y ->. unfold settle in Hx.
    destruct (f x h) as [[a|e|] t0] eqn:E; try discriminate.
    injection Hx as -> _. exists h, t0. exact E.
Qed.

Lemma all_fulfilled_Forall2 {B} (outs : list (JsError + B)) : forall ys,
  all_fulfilled outs = inr ys -> Forall2 (fun out y => out = inr y) outs ys.
Proof.
  induction outs as [|[e|b] outs IH]; intros ys H.
  - injection H as <-. constructor.
  - discriminate.
  - cbn [all_fulfilled] in H. destruct (all_fulfilled outs) as [e|bs]; [discriminate|].
    injection H as <-. constructor; [reflexivity | exact (IH _ eq_refl)].
Qed.

Lemma Promise_all_Forall2 {A B} (f : A -> M B) l h ys t :
  Promise_all f l h = (Ok ys, t) ->
  Forall2 (fun x y => exists h' t', f x h' = (Ok y, t')) l ys.
Proof.
  unfold Promise_all. intros H. apply bind_ok_inv in H.
  destruct H as (outs & t1 & t2 & Hs & H & _).
  destruct (all_fulfilled outs) as [e|bs] eqn:E; [discriminate|].
  injection H as <- _.
  pose proof (settled_Forall2 f l _ _ _ Hs) as H1.
  pose proof (all_fulfilled_Forall2 _ _ E) as H2.
  clear Hs E. revert bs H2.
  induction H1 as [|x out l outs Hx _ IH]; intros bs H2; inversion H2; subst.
  - constructor.
  - constructor; [exact (Hx _ eq_refl) | apply IH; assumption].
Qed.

Lemma obj_lookup_keys {V} k (f : string -> V) keys :
  In k keys -> obj_lookup k (map (fun x => (x, f x)) keys) = Some (f k).
Proof.
  induction keys as [|x keys IH]; [intros []|].
  intros Hin. cbn [map obj_lookup]. destruct (String.eqb k x) eqn:E.
  - apply String.eqb_eq in E. subst x. reflexivity.
  - destruct Hin as [->|Hin]; [rewrite String.eqb_refl in E; discriminate|].
    exact (IH Hin).
Qed.

Lemma result_keys_not_content k :
  In k Handlers.result_keys -> k <> "content" /\ k <> "html_content".
Proof.
  intros H. split; intros ->; cbn in H;
    repeat (destruct H as [H|H]; [discriminate H|]); exact H.
Qed.

Lemma result_of_field params inc doc text k :
  In k Handlers.result_keys ->
  obj_get k (Handlers.result_of params inc doc text) = obj_get k doc.
Proof.
  intros Hk. destruct (result_keys_not_content k Hk) as [N1 N2].
  unfold Handlers.result_of.
  assert (Hbase : obj_get k (map (fun x => (x, obj_get x doc)) Handlers.result_keys)
                  = obj_get k doc).
  { unfold obj_get at 1. rewrite obj_lookup_keys by exact Hk. reflexivity. }
  destruct (truthy (obj_get "withHtmlContent" params)
            && truthy (obj_get "html_content" doc))%bool;
    [rewrite obj_get_set_other by exact N2|];
    (destruct inc; [rewrite obj_get_set_other by exact N1|]; exact Hbase).
Qed.

Lemma result_of_keys params inc doc text k :
  obj_has k (Handlers.result_of params inc doc text) = true ->
  In k Handlers.result_keys \/ k = "content" \/ k = "html_content".
Proof.
  unfold Handlers.result_of. intros H.
  assert (Hbase : forall o : Doc,
             o = map (fun x => (x, obj_get x doc)) Handlers.result_keys ->
             obj_has k o = true -> In k Handlers.result_keys).
  { intros o -> Ho. rewrite obj_has_keys in Ho. apply existsb_exists in Ho.
    destruct Ho as (x & Hx & E). apply String.eqb_eq in E. subst x. exact Hx. }
  destruct (truthy (obj_get "withHtmlContent" params)
            && truthy (obj_get "html_content" doc))%bool.
  - rewrite obj_has_set in H. apply orb_prop in H. destruct H as [H|H].
    + apply String.eqb_eq in H. right; right. exact H.
    + destruct inc.
      * rewrite obj_has_set in H. apply orb_prop in H. destruct H as [H|H].
        -- apply String.eqb_eq in H. right; left. exact H.
        -- left. exact (Hbase _ eq_refl H).
      * left. exact (Hbase _ eq_refl H).
  - destruct inc.
    + rewrite obj_has_set in H. apply orb_prop in H. destruct H as [H|H].
      * apply String.eqb_eq in H. right; left. exact H.
      * left. exact (Hbase _ eq_refl H).
    + left. exact (Hbase _ eq_refl H).
Qed.

(** X9.  With [addedAfter] and a cursor or a limit, [handleListDocuments]
    asks one page only, with [addedAfter] deleted, whatever the fuel;
    it filters that page by [saved_at], reports the number of documents
    kept, passes the page's next cursor on, and appends the notice of
    client-side filtering after the messages of [listDocuments]. *)
Theorem handleListDocuments_addedAfter_one_page
    P client (args : Params) h fuel response d t docs t2 :
  let params := Handlers.with_html_forced args in
  let filtered :=
    filter
      (fun doc =>
         truthy (obj_get "saved_at" doc)
         && num_gt (Date_value P (obj_get "saved_at" doc))
              (Date_value P (obj_get "addedAfter" args)))%bool
      (results d) in
  truthy (obj_get "addedAfter" args) = true ->
  truthy (obj_get "pageCursor" args) = true \/ truthy (obj_get "limit" args) = true ->
  Client.listDocuments P client (obj_delete "addedAfter" params) h = (Ok response, t) ->
  data response = Some d ->
  Promise_all (Handlers.document_with_text P params) filtered (h ++ t)%list
  = (Ok docs, t2) ->
  Handlers.list_output P client fuel args h
  = (Ok {| out_count := Z.of_nat (List.length filtered);
           out_nextPageCursor := nextPageCursor d;
           out_documents := docs;
           out_messages :=
             (match messages response with Some l => l | None => [] end
              ++ [{| type := info;
                     content := "Documents were filtered client-side based on the addedAfter date. All documents were fetched from the API first, then filtered by their saved_at date." |}])%list |},
     (t ++ t2)%list).
Proof.
  intros params filtered Hafter Hpaged Hcall Hdata Hdocs.
  unfold Handlers.list_output. fold params.
  assert (Hdate : obj_get "addedAfter" params = obj_get "addedAfter" args)
    by (apply obj_get_forced; discriminate).
  assert (Hpc : obj_get "pageCursor" (Handlers.apiParams params)
                = obj_get "pageCursor" args)
    by (unfold Handlers.apiParams; rewrite obj_get_delete_other by discriminate;
        apply obj_get_forced; discriminate).
  assert (Hlim : obj_get "limit" (Handlers.apiParams params) = obj_get "limit" args)
    by (unfold Handlers.apiParams; rewrite obj_get_delete_other by discriminate;
        apply obj_get_forced; discriminate).
  assert (Hfetch :
            Handlers.fetch_response P client fuel params h
            = (Ok ({| data := Some {| count := Z.of_nat (List.length filtered);
                                      nextPageCursor := nextPageCursor d;
                                      results := filtered |};
                      messages := messages response |}, true), t)).
  { unfold Handlers.fetch_response.
    rewrite Hpc, Hlim, !Hdate, Hafter.
    replace (negb (truthy (obj_get "pageCursor" args))
             && negb (truthy (obj_get "limit" args)))%bool with false
      by (destruct Hpaged as [-> | ->]; [|rewrite andb_comm]; reflexivity).
    unfold Handlers.apiParams.
    rewrite (bind_ok _ _ _ _ _ Hcall), Hdata.
    unfold prepend, ret. cbn [fst snd app]. rewrite app_nil_r.
    rewrite (filter_ext _ _ (saved_after_spec P _)). reflexivity. }
  rewrite (bind_ok _ _ _ _ _ Hfetch). cbn [data results].
  rewrite (bind_ok _ _ _ _ _ Hdocs). unfold prepend, ret. cbn.
  rewrite app_nil_r. reflexivity.
Qed.

Lemma handleListDocuments_addedAfter_one_page_witness :
  exists docs t,
    Handlers.list_output Fixtures.three_pages Fixtures.client 0
      MoreFixtures.limited_args []
    = (Ok {| out_count := 1;
             out_nextPageCursor := Some "c2";
             out_documents := docs;
             out_messages := [Handlers.filter_notice] |}, t)
    /\ map (obj_get "id") docs = [VStr "b"]
    /\ map req_url (requests t) = ["https://readwise.io/api/v3/list/?limit=2"].
Proof.
  pose (P := Fixtures.three_pages).
  pose (run := Client.listDocuments P Fixtures.client
                 (obj_delete "addedAfter"
                    (Handlers.with_html_forced MoreFixtures.limited_args)) []).
  eexists _, _. split; [|split].
  - exact (handleListDocuments_addedAfter_one_page P Fixtures.client
             MoreFixtures.limited_args [] 0
             {| data := Some (Fixtures.page 6 (Some "c2")
                                [Fixtures.doc_saved "a" "1"; Fixtures.doc_saved "b" "4"]);
                messages := None |}
             _ (snd run) _ [] eq_refl (or_intror eq_refl) eq_refl eq_refl eq_refl).
  - reflexivity.
  - reflexivity.
Defined.

Lemma result_of_has_field params inc doc text k :
  In k Handlers.result_keys ->
  obj_has k (Handlers.result_of params inc doc text) = true.
Proof.
  intros Hk. destruct (result_keys_not_content k Hk) as [N1 N2].
  rewrite obj_has_lookup. unfold Handlers.result_of.
  destruct (truthy (obj_get "withHtmlContent" params)
            && truthy (obj_get "html_content" doc))%bool;
    [rewrite obj_lookup_set_other by exact N2|];
    (destruct inc; [rewrite obj_lookup_set_other by exact N1|];
     rewrite obj_lookup_keys by exact Hk; reflexivity).
Qed.

(** X10.  The documents of the output of [handleListDocuments] are, one
    for one and in the same order, the documents that the handler has in
    [response.data.results] when it builds the output (the results of the
    service, filtered when [addedAfter] is set).  Each has the 23 listed
    fields, with the value that its document has for the field
    ([undefined] when it has none), and beside them may only have
    [content] and [html_content]: any other field of the document is
    dropped. *)
Theorem output_document_fields
    P client fuel (args : Params) h response filtered t1 d o t :
  Handlers.fetch_response P client fuel (Handlers.with_html_forced args) h
  = (Ok (response, filtered), t1) ->
  data response = Some d ->
  Handlers.list_output P client fuel args h = (Ok o, t) ->
  Forall2
    (fun source doc =>
       (forall k, In k Handlers.result_keys ->
                  obj_has k doc = true /\ obj_get k doc = obj_get k source)
       /\ (forall k, obj_has k doc = true ->
                     In k Handlers.result_keys \/ k = "content" \/ k = "html_content"))
    (results d) (out_documents o).
Proof.
  intros Hfetch Hdata Hrun.
  unfold Handlers.list_output in Hrun.
  rewrite (bind_ok _ _ _ _ _ Hfetch), Hdata in Hrun.
  unfold prepend in Hrun.
  destruct (bind (Promise_all (Handlers.document_with_text P (Handlers.with_html_forced args))
                    (results d)) _ (h ++ t1)%list) as [r t2] eqn:Hrest.
  cbn [fst snd] in Hrun. injection Hrun as -> _.
  apply bind_ok_inv in Hrest. destruct Hrest as (docs & t3 & t4 & Hdocs & H & _).
  injection H as <- _. cbn [out_documents].
  apply Promise_all_Forall2 in Hdocs.
  induction Hdocs as [|source doc l l' (h' & t' & Hdoc) _ IH]; constructor; [|exact IH].
  apply document_with_text_result in Hdoc. destruct Hdoc as [text ->]. split.
  - intros k Hk. split; [apply result_of_has_field | apply result_of_field]; exact Hk.
  - intros k. apply result_of_keys.
Qed.

Lemma output_document_fields_witness :
  exists doc : Doc,
    fst (Handlers.list_output Fixtures.three_pages Fixtures.client 3
           [("addedAfter", VStr "5")] [])
    = Ok {| out_count := 1; out_nextPageCursor := None; out_documents := [doc];
            out_messages := [Handlers.filter_notice] |}
    /\ obj_get "id" doc = VStr "e"
    /\ obj_get "saved_at" doc = VStr "6"
    /\ obj_has "author" doc = true
    /\ obj_get "author" doc = VUndef.
Proof.
  pose (args := [("addedAfter", VStr "5")] : Params).
  pose (fetched := Handlers.fetch_response Fixtures.three_pages Fixtures.client 3
                     (Handlers.with_html_forced args) []).
  pose (run := Handlers.list_output Fixtures.three_pages Fixtures.client 3 args []).
  pose proof (output_document_fields Fixtures.three_pages Fixtures.client 3 args []
                _ true (snd fetched)
                (Fixtures.page 1 None [Fixtures.doc_saved "e" "6"])
                _ (snd run) eq_refl eq_refl eq_refl) as H.
  cbn [results Fixtures.page out_documents] in H.
  inversion H as [|source doc l l' [Hfields _] Hrest]; subst. inversion Hrest; subst.
  exists (Handlers.result_of args false (Fixtures.doc_saved "e" "6") EmptyString).
  split; [reflexivity|].
  destruct (Hfields "id" ltac:(cbn; tauto)) as [_ Hid].
  destruct (Hfields "saved_at" ltac:(cbn; tauto)) as [_ Hsaved].
  destruct (Hfields "author" ltac:(cbn; tauto)) as [Hhas Hauthor].
  repeat split; assumption.
Defined.

(** X11.  Without [addedAfter], [handleListDocuments] makes one call of
    [listDocuments] with the caller's parameters ([withHtmlContent] set
    when full content is asked), and returns the count and the cursor of
    the service, the messages of [listDocuments] alone, and one document
    per result, in the order of the results, with the same 23 fields. *)
Theorem handleListDocuments_plain
    P client (args : Params) h fuel response d t docs t2 :
  let params := Handlers.with_html_forced args in
  truthy (obj_get "addedAfter" args) = false ->
  Client.listDocuments P client params h = (Ok response, t) ->
  data response = Some d ->
  Promise_all (Handlers.document_with_text P params) (results d) (h ++ t)%list
  = (Ok docs, t2) ->
  Handlers.list_output P client fuel args h
  = (Ok {| out_count := count d;
           out_nextPageCursor := nextPageCursor d;
           out_documents := docs;
           out_messages := match messages response with Some l => l | None => [] end |},
     (t ++ t2)%list)
  /\ Forall2
       (fun source doc =>
          forall k, In k Handlers.result_keys -> obj_get k doc = obj_get k source)
       (results d) docs.
Proof.
  intros params Hafter Hcall Hdata Hdocs. split.
  - unfold Handlers.list_output. fold params.
    assert (Hfetch : Handlers.fetch_response P client fuel params h
                     = (Ok (response, false), t)).
    { unfold Handlers.fetch_response.
      unfold params at 1. rewrite obj_get_forced by discriminate. rewrite Hafter.
      rewrite (bind_ok _ _ _ _ _ Hcall). unfold prepend, ret. cbn.
      rewrite app_nil_r. reflexivity. }
    rewrite (bind_ok _ _ _ _ _ Hfetch), Hdata.
    rewrite (bind_ok _ _ _ _ _ Hdocs). unfold prepend, ret. cbn.
    rewrite app_nil_r. reflexivity.
  - apply Promise_all_Forall2 in Hdocs.
    induction Hdocs as [|source doc l l' (h' & t' & Hdoc) _ IH]; constructor.
    + apply document_with_text_result in Hdoc. destruct Hdoc as [text ->].
      intros k Hk. apply result_of_field. exact Hk.
    + exact IH.
Qed.

Lemma handleListDocuments_plain_witness :
  exists docs t,
    Handlers.list_output Fixtures.three_pages Fixtures.client 0 [] []
    = (Ok {| out_count := 6; out_nextPageCursor := Some "c2";
             out_documents := docs; out_messages := [] |}, t)
    /\ map (obj_get "id") docs = [VStr "a"; VStr "b"].
Proof.
  pose (P := Fixtures.three_pages).
  pose (run := Client.listDocuments P Fixtures.client (Handlers.with_html_forced []) []).
  eexists _, _. split.
  - exact (proj1 (handleListDocuments_plain P Fixtures.client [] [] 0
                    {| data := Some (Fixtures.page 6 (Some "c2")
                                       [Fixtures.doc_saved "a" "1";
                                        Fixtures.doc_saved "b" "4"]);
                       messages := None |}
                    _ (snd run) _ [] eq_refl eq_refl eq_refl eq_refl)).
  - reflexivity.
Defined.

(** ** More on the page loops and on [searchDocumentsByTopic] *)

Lemma collect_pages_prefix P this base h c pages t c' :
  page_prefix P this base h c pages t c' ->
  forall fuel all,
    Client.collect_pages P this (List.length pages + fuel) base all c h
    = prepend t
        (Client.collect_pages P this fuel base
           (all ++ List.concat (map results pages))%list c' (h ++ t)%list).
Proof.
  induction 1 as [h c|h c response d t pages t' c' Hcall Hdata Hmore Hrest IH];
    intros fuel all.
  - cbn. rewrite !app_nil_r. symmetry. apply prepend_nil.
  - cbn [List.length Nat.add Client.collect_pages].
    rewrite (bind_ok _ _ _ _ _ Hcall), Hdata. cbv zeta. rewrite Hmore.
    rewrite IH, prepend_prepend. cbn [map List.concat].
    rewrite !app_assoc. reflexivity.
Qed.

(** X12.  When a page fails after some pages were read, the page loop
    fails with the error of that page, and the documents already read are
    not returned; the same holds for [searchDocumentsByTopic], which runs
    this loop. *)
Theorem collect_pages_failure P this base h pages t c e t' fuel :
  page_prefix P this base h None pages t c ->
  Client.listDocuments P this (Client.page_params base c) (h ++ t)%list = (Throw e, t') ->
  (List.length pages < fuel)%nat ->
  Client.collect_pages P this fuel base [] None h = (Throw e, (t ++ t')%list)
  /\ (base = Client.search_params ->
      forall searchTerms,
        Client.searchDocumentsByTopic P this fuel searchTerms h
        = (Throw e, (t ++ t')%list)).
Proof.
  intros Hprefix Hfail Hfuel.
  assert (Hrun : Client.collect_pages P this fuel base [] None h
                 = (Throw e, (t ++ t')%list)).
  { replace fuel with (List.length pages + S (fuel - S (List.length pages)))%nat by lia.
    rewrite (collect_pages_prefix _ _ _ _ _ _ _ _ Hprefix).
    cbn [Client.collect_pages]. rewrite (bind_throw _ _ _ _ _ Hfail). reflexivity. }
  split; [exact Hrun|].
  intros -> searchTerms. unfold Client.searchDocumentsByTopic.
  rewrite (bind_throw _ _ _ _ _ Hrun). reflexivity.
Qed.

Lemma collect_pages_failure_witness :
  exists t,
    Client.searchDocumentsByTopic MoreFixtures.broken_pages Fixtures.client 5 ["a"] []
    = (Throw (Error "Readwise API error: 500 TXT - boom"), t).
Proof.
  pose (P := MoreFixtures.broken_pages). pose (base := Client.search_params).
  pose (t1 := snd (Client.listDocuments P Fixtures.client
                     (Client.page_params base None) [])).
  pose (t2 := snd (Client.listDocuments P Fixtures.client
                     (Client.page_params base (Some "c2")) ([] ++ (t1 ++ []))%list)).
  exists ((t1 ++ []) ++ t2)%list.
  refine (proj2 (collect_pages_failure P Fixtures.client base []
                   [Fixtures.page 6 (Some "c2")
                      [Fixtures.doc_saved "a" "1"; Fixtures.doc_saved "b" "4"]]
                   (t1 ++ [])%list (Some "c2") _ t2 5 _ eq_refl ltac:(cbn; lia))
            eq_refl ["a"]).
  eapply (prefix_cons P Fixtures.client base [] None _ _ t1);
    [reflexivity | reflexivity | reflexivity | apply prefix_nil].
Defined.

(** X13.  The page loop has no bound of its own: against a service that
    gives a cursor with every page it never returns, which here reads: it
    runs out of any fuel. *)
Theorem collect_pages_runaway P this base :
  (forall h c, exists response d t,
      Client.listDocuments P this (Client.page_params base c) h = (Ok response, t)
      /\ data response = Some d
      /\ cursor_truthy (nextPageCursor d) = true) ->
  forall fuel all c h,
    fst (Client.collect_pages P this fuel base all c h) = OutOfFuel.
Proof.
  intros Hmore fuel. induction fuel as [|fuel IH]; intros all c h; [reflexivity|].
  destruct (Hmore h c) as (response & d & t & Hcall & Hdata & Hcursor).
  cbn [Client.collect_pages]. rewrite (bind_ok _ _ _ _ _ Hcall), Hdata. cbv zeta.
  rewrite Hcursor. unfold prepend. cbn [fst]. apply IH.
Qed.

Lemma endless_always_more h c :
  exists response d t,
    Client.listDocuments MoreFixtures.endless Fixtures.client
      (Client.page_params [] c) h = (Ok response, t)
    /\ data response = Some d
    /\ cursor_truthy (nextPageCursor d) = true.
Proof.
  assert (Hplain : truthy (obj_get "withFullContent" (Client.page_params [] c)) = false).
  { unfold Client.page_params. destruct c as [s|]; [|reflexivity].
    destruct (str_truthy s); reflexivity. }
  unfold Client.listDocuments. rewrite Hplain.
  unfold Client.plain_list.
  assert (Hreq : exists t,
             Client.makeRequest MoreFixtures.endless Fixtures.client
               (json_list MoreFixtures.endless)
               (Client.list_endpoint MoreFixtures.endless (Client.page_params [] c))
               no_options h
             = (Ok (Some (Fixtures.page 1 (Some "again") [])), t)).
  { unfold Client.makeRequest. change (Client.trips Fixtures.client 0) with 4%nat.
    rewrite loop_decoded; [|reflexivity | cbn; discriminate].
    eexists. reflexivity. }
  destruct Hreq as [t Hreq].
  eexists _, _, _. split; [|split].
  - rewrite (bind_ok _ _ _ _ _ Hreq). unfold prepend, ret. cbn [fst snd]. reflexivity.
  - reflexivity.
  - reflexivity.
Qed.

Lemma collect_pages_runaway_witness :
  fst (Client.collect_pages MoreFixtures.endless Fixtures.client 1000 [] [] None [])
  = OutOfFuel.
Proof.
  exact (collect_pages_runaway MoreFixtures.endless Fixtures.client []
           endless_always_more 1000%nat [] None []).
Defined.

(** X14.  [searchDocumentsByTopic] looks at the title, the summary, the
    notes and the tags of a document only: giving a document another
    field, or changing one, does not change the text that the terms are
    tested on.  With no term at all it reads every page and returns no
    document. *)
Theorem search_scope P this (doc : Doc) k v :
  k <> "title" -> k <> "summary" -> k <> "notes" -> k <> "tags" ->
  Client.searchableText (obj_set k v doc) = Client.searchableText doc
  /\ forall fuel h,
       fst (Client.searchDocumentsByTopic P this fuel [] h)
       = match fst (Client.collect_pages P this fuel Client.search_params [] None h) with
         | Ok _ => Ok {| data := []; messages := None |}
         | Throw e => Throw e
         | OutOfFuel => OutOfFuel
         end
       /\ snd (Client.searchDocumentsByTopic P this fuel [] h)
          = snd (Client.collect_pages P this fuel Client.search_params [] None h).
Proof.
  intros N1 N2 N3 N4. split.
  - unfold Client.searchableText.
    rewrite !obj_get_set_other by (intros E; symmetry in E; contradiction).
    reflexivity.
  - intros fuel h. unfold Client.searchDocumentsByTopic, bind.
    destruct (Client.collect_pages P this fuel Client.search_params [] None h)
      as [[l|e|] t]; cbn [fst snd].
    + unfold ret. cbn [fst snd]. rewrite app_nil_r. split; [|reflexivity].
      unfold createResponse. do 2 f_equal.
      induction l as [|x l IH]; [reflexivity | exact IH].
    + split; reflexivity.
    + split; reflexivity.
Qed.

Lemma search_scope_witness :
  Client.searchableText
    (obj_set "author" (VStr "Melville")
       [("title", VStr "Moby Dick"); ("tags", VArr [VStr "Sea"; VStr "whale"])])
  = "moby dick   sea whale".
Proof.
  rewrite (proj1 (search_scope Fixtures.three_pages Fixtures.client
                    [("title", VStr "Moby Dick"); ("tags", VArr [VStr "Sea"; VStr "whale"])]
                    "author" (VStr "Melville")
                    ltac:(discriminate) ltac:(discriminate)
                    ltac:(discriminate) ltac:(discriminate))).
  reflexivity.
Defined.

(** ** [deleteDocument] and the bulk runner *)

Lemma loop_ends_json P this T (decode : string -> JsError + T) q n :
  forall attempt lastError h r t t' resp,
    Client.attempt_loop P this decode q n attempt lastError h = (r, t) ->
    t = (t' ++ [EFetch q resp; EJson resp])%list ->
    r = match decode (body resp) with
        | inr v => Ok (Some v)
        | inl e => Throw e
        end.
Proof.
  induction n as [|n IH]; intros attempt lastError h r t t' resp Hrun Ht.
  - rewrite loop_zero in Hrun. injection Hrun as _ <-.
    apply nil_eq_app in Ht. destruct Ht as [_ Ht]. discriminate.
  - destruct (loop_cases P this T decode q n attempt lastError h)
      as [(_ & _ & E)|[(_ & _ & E)|[(_ & _ & E)|[(_ & _ & E)|(_ & _ & E)]]]];
      rewrite E in Hrun; clear E.
    + injection Hrun as _ <-.
      apply cons_eq_app in Ht. destruct Ht as [[_ Ht]|(ta & _ & Ht)].
      * discriminate.
      * apply nil_eq_app in Ht. destruct Ht as [_ Ht]. discriminate.
    + injection Hrun as <- <-.
      apply cons_eq_app in Ht. destruct Ht as [[_ Ht]|(ta & _ & Ht)].
      * injection Ht as ->. reflexivity.
      * apply cons_eq_app in Ht. destruct Ht as [[_ Ht]|(tb & _ & Ht)].
        -- discriminate.
        -- apply nil_eq_app in Ht. destruct Ht as [_ Ht]. discriminate.
    + match type of Hrun with prepend ?t3 (?run) = _ =>
        destruct run as [r1 tr] eqn:Hrest end.
      unfold prepend in Hrun. cbn in Hrun. injection Hrun as <- <-.
      apply cons_eq_app in Ht. destruct Ht as [[-> Ht]|(ta & -> & Ht)].
      { discriminate. }
      apply cons_eq_app in Ht. destruct Ht as [[-> Ht]|(tb & -> & Ht)].
      { discriminate. }
      apply cons_eq_app in Ht. destruct Ht as [[-> Ht]|(tc & -> & Ht)].
      { discriminate. }
      exact (IH _ _ _ _ _ _ _ Hrest Ht).
    + match type of Hrun with prepend ?t3 (?run) = _ =>
        destruct run as [r1 tr] eqn:Hrest end.
      unfold prepend in Hrun. cbn in Hrun. injection Hrun as <- <-.
      apply cons_eq_app in Ht. destruct Ht as [[-> Ht]|(ta & -> & Ht)].
      { injection Ht as _ Ht. subst tr.
        destruct (loop_trace _ _ _ _ _ _ _ _ _ _ _ Hrest) as [[_ Hnil]|(x & y & Hcons)];
          discriminate. }
      exact (IH _ _ _ _ _ _ _ Hrest Ht).
    + injection Hrun as _ <-.
      apply cons_eq_app in Ht. destruct Ht as [[_ Ht]|(ta & _ & Ht)].
      * discriminate.
      * apply cons_eq_app in Ht. destruct Ht as [[_ Ht]|(tb & _ & Ht)].
        -- discriminate.
        -- apply nil_eq_app in Ht. destruct Ht as [_ Ht]. discriminate.
Qed.

Lemma deleteDocument_run P this id0 h :
  Client.deleteDocument P this id0 h
  = (match fst (Client.makeRequest P this (json_any P) ("/delete/" ++ id0 ++ "/")
                  {| init_method := Some "DELETE"; init_headers := [];
                     init_body := None |} h) with
     | Ok _ => Ok {| data := tt; messages := None |}
     | Throw e => Throw e
     | OutOfFuel => OutOfFuel
     end,
     snd (Client.makeRequest P this (json_any P) ("/delete/" ++ id0 ++ "/")
            {| init_method := Some "DELETE"; init_headers := [];
               init_body := None |} h)).
Proof.
  unfold Client.deleteDocument, bind.
  destruct (Client.makeRequest P this (json_any P) _ _ h) as [[a|e|] t]; cbn [fst snd];
    try reflexivity.
  unfold ret. rewrite app_nil_r. reflexivity.
Qed.

(** X15.  [deleteDocument] succeeds when the run ends on an answer 204.
    When it ends on another 2xx answer, the body is decoded although the
    result is not used: the deletion is reported as done when the body
    decodes, and fails with the error of the decoding when it does not
    (an empty body, for one), although the service accepted it. *)
Theorem deleteDocument_outcome P this id h :
  let run := Client.deleteDocument P this id h in
  let q := Client.request_of this ("/delete/" ++ id ++ "/")
             {| init_method := Some "DELETE"; init_headers := []; init_body := None |} in
  (forall t' resp,
      snd run = (t' ++ [EFetch q resp])%list -> status resp = 204 ->
      fst run = Ok {| data := tt; messages := None |})
  /\ (forall t' resp,
         snd run = (t' ++ [EFetch q resp; EJson resp])%list ->
         fst run = match json_any P (body resp) with
                   | inr _ => Ok {| data := tt; messages := None |}
                   | inl e => Throw e
                   end).
Proof.
  cbv zeta. rewrite deleteDocument_run. cbn [fst snd].
  destruct (Client.makeRequest P this (json_any P) ("/delete/" ++ id ++ "/")
              {| init_method := Some "DELETE"; init_headers := []; init_body := None |} h)
    as [r t] eqn:Hrun.
  cbn [fst snd]. split.
  - intros t' resp Ht Hst.
    assert (Hin : In resp (responses t)).
    { rewrite Ht. unfold responses. rewrite flat_map_app. apply in_or_app.
      right. left. reflexivity. }
    destruct (loop_terminal _ _ _ _ _ _ _ _ _ _ _ _ Hrun Hin) as [_ B].
    destruct (B Hst) as [-> _]. reflexivity.
  - intros t' resp Ht.
    rewrite (loop_ends_json _ _ _ _ _ _ _ _ _ _ _ _ _ Hrun Ht).
    destruct (json_any P (body resp)); reflexivity.
Qed.

Lemma deleteDocument_outcome_witness :
  fst (Client.deleteDocument MoreFixtures.empty_ok Fixtures.client "d1" [])
  = Throw (Error "Unexpected end of JSON input")
  /\ fst (Handlers.handleBulkDelete MoreFixtures.empty_ok Fixtures.client [] ["d1"] [])
     = Ok ("Bulk delete completed." ++ LF ++ LF
             ++ "Successfully deleted: 0/1 documents" ++ LF ++ LF
             ++ "Failed to delete 1 documents:" ++ LF
             ++ "- d1: Unexpected end of JSON input").
Proof.
  split; [|vm_compute; reflexivity].
  pose (q := Client.request_of Fixtures.client "/delete/d1/"
               {| init_method := Some "DELETE"; init_headers := []; init_body := None |}).
  exact (proj2 (deleteDocument_outcome MoreFixtures.empty_ok Fixtures.client "d1" [])
           [] (Fixtures.r200 EmptyString) eq_refl).
Defined.

(** X16.  With [maxRetries] not negative, [handleBulkDelete] sends at
    least one request for each identifier and at most [maxRetries + 1]
    for each, whatever the order in which the overlapping deletions are
    taken: none at all for an empty list. *)
Theorem handleBulkDelete_request_count P client (sched : list nat) (ids : list string) h :
  0 <= maxRetries (retryConfig client) ->
  let t := snd (Handlers.handleBulkDelete P client sched ids h) in
  (List.length ids <= List.length (responses t)
   <= List.length ids * Z.to_nat (maxRetries (retryConfig client) + 1))%nat.
Proof.
  intros Hmax. cbv zeta.
  unfold Handlers.handleBulkDelete, Handlers.bulk_results.
  destruct (Handlers.batch_loop P client ids
              (Handlers.batch_count (List.length ids) 0) 0 [] sched h) as [rs ev] eqn:E.
  destruct (batch_loop_runs P client ids _ _ _ _ _ _ _ E) as (runs & Hruns & -> & _ & Hb).
  pose proof (bs_concat ids (Handlers.batch_count (List.length ids) 0) 0 eq_refl)
    as Hconcat.
  rewrite skipn_0 in Hconcat.
  pose proof (batch_runs_count _ _ _ _ _ Hruns (Hb Hmax)) as Hcount.
  rewrite Hconcat in Hcount. exact Hcount.
Qed.

Lemma handleBulkDelete_request_count_witness :
  let P := Fixtures.platform (Fixtures.scripted [] (Fixtures.r429 "1")) [] in
  let t := snd (Handlers.handleBulkDelete P Fixtures.client [1; 1; 0]%nat ["a"; "b"] []) in
  (2 <= List.length (responses t) <= 2 * 4)%nat.
Proof.
  intros P t.
  exact (handleBulkDelete_request_count P Fixtures.client [1; 1; 0]%nat ["a"; "b"] []
           ltac:(vm_compute; discriminate)).
Defined.

Section Hydration.

Variable P : Platform.
Variable params : Params.
Hypothesis Hfull : obj_get "withFullContent" params = VBool true.

Lemma document_with_text_trace doc h :
  snd (Handlers.document_with_text P params doc h)
  = if needs_conversion doc
    then [EConvert (Handlers.urlToConvert doc) (obj_get "category" doc)]
    else [].
Proof.
  unfold Handlers.document_with_text, needs_conversion. rewrite Hfull. cbn [is_true].
  unfold bind, Handlers.hydrate, Handlers.convert_url, Handlers.convert.
  destruct (truthy (obj_get "html_content" doc));
    destruct (Handlers.shouldUseJina doc);
    destruct (truthy (Handlers.urlToConvert doc)); cbn;
    try reflexivity;
    destruct (convertUrlToText P h _ _); reflexivity.
Qed.

Lemma document_with_text_fails doc h e :
  needs_conversion doc = true ->
  convertUrlToText P h (Handlers.urlToConvert doc) (obj_get "category" doc) = inl e ->
  fst (Handlers.document_with_text P params doc h) = Throw e.
Proof.
  unfold Handlers.document_with_text, needs_conversion. rewrite Hfull. cbn [is_true].
  unfold bind, Handlers.hydrate, Handlers.convert_url, Handlers.convert.
  intros Hneed Hconv.
  destruct (truthy (Handlers.urlToConvert doc)); [|discriminate].
  destruct (truthy (obj_get "html_content" doc));
    destruct (Handlers.shouldUseJina doc); try discriminate;
    rewrite Hconv; reflexivity.
Qed.

Lemma document_with_text_total doc h t :
  Handlers.document_with_text P params doc h <> (OutOfFuel, t).
Proof.
  unfold Handlers.document_with_text. rewrite Hfull. cbn [is_true].
  unfold bind, Handlers.hydrate, Handlers.convert_url, Handlers.convert.
  destruct (truthy (obj_get "html_content" doc));
    destruct (Handlers.shouldUseJina doc);
    destruct (truthy (Handlers.urlToConvert doc)); cbn;
    try discriminate;
    destruct (convertUrlToText P h _ _); discriminate.
Qed.

Lemma settled_documents l : forall h,
  exists outs,
    settle_in_turn (Handlers.document_with_text P params) l h
    = (Ok outs,
       map (fun doc => EConvert (Handlers.urlToConvert doc) (obj_get "category" doc))
         (filter needs_conversion l))
    /\ forall doc e,
         In doc l -> needs_conversion doc = true ->
         (forall h', convertUrlToText P h' (Handlers.urlToConvert doc)
                       (obj_get "category" doc) = inl e) ->
         exists e', all_fulfilled outs = inl e'.
Proof.
  unfold settle_in_turn.
  induction l as [|x l IH]; intros h.
  - exists []. split; [reflexivity|]. intros doc e [].
  - destruct (Handlers.document_with_text P params x h) as [r t1] eqn:Hx.
    pose proof (document_with_text_trace x h) as Ht. rewrite Hx in Ht. cbn [snd] in Ht.
    destruct (IH (h ++ t1)%list) as (outs & Hl & Hfail).
    assert (Hsettle : exists out,
               settle (Handlers.document_with_text P params x) h = (Ok out, t1)
               /\ (forall e, r = Throw e -> out = inl e)
               /\ (forall y, r = Ok y -> out = inr y)).
    { unfold settle. rewrite Hx. destruct r as [y|e|].
      - exists (inr y). repeat split; congruence.
      - exists (inl e). repeat split; congruence.
      - destruct (document_with_text_total _ _ _ Hx). }
    destruct Hsettle as (out & Hs & Hthrow & Hok).
    exists (out :: outs). split.
    + cbn [mapM]. rewrite (bind_ok _ _ _ _ _ Hs), (bind_ok _ _ _ _ _ Hl).
      unfold prepend, ret. cbn [fst snd]. rewrite app_nil_r. f_equal.
      rewrite Ht. cbn [filter]. destruct (needs_conversion x); reflexivity.
    + intros doc e [<-|Hin] Hneed Hconv.
      * pose proof (document_with_text_fails x h e Hneed (Hconv h)) as Hf.
        rewrite Hx in Hf. cbn [fst] in Hf. rewrite (Hthrow _ Hf).
        exists e. reflexivity.
      * destruct (Hfail doc e Hin Hneed Hconv) as [e' He'].
        destruct out as [e0|y]; cbn [all_fulfilled].
        -- exists e0. reflexivity.
        -- rewrite He'. exists e'. reflexivity.
Qed.

End Hydration.

Lemma conversions_map (l : list Doc) :
  conversions
    (map (fun doc => EConvert (Handlers.urlToConvert doc) (obj_get "category" doc)) l)
  = map (fun doc => (Handlers.urlToConvert doc, obj_get "category" doc)) l.
Proof. induction l as [|x l IH]; [reflexivity|]. cbn. f_equal. exact IH. Qed.

Lemma requests_of_conversions (l : list Doc) :
  requests
    (map (fun doc => EConvert (Handlers.urlToConvert doc) (obj_get "category" doc)) l)
  = [].
Proof. induction l as [|x l IH]; [reflexivity | exact IH]. Qed.

(** X17.  When full content is requested, the converter is called once
    for each listed document that needs it (a URL, and no markup or a
    category for the converter), in the order of the list, whether or not
    an earlier call failed; and when the call fails for one of them, the
    whole of [handleListDocuments] fails: no document is returned. *)
Theorem hydration_failure_aborts_listing
    P client fuel (args : Params) h response filtered t1 d doc e :
  obj_get "withFullContent" args = VBool true ->
  Handlers.fetch_response P client fuel (Handlers.with_html_forced args) h
  = (Ok (response, filtered), t1) ->
  data response = Some d ->
  In doc (results d) ->
  needs_conversion doc = true ->
  (forall h', convertUrlToText P h' (Handlers.urlToConvert doc)
                (obj_get "category" doc) = inl e) ->
  exists e' t2,
    Handlers.list_output P client fuel args h = (Throw e', (t1 ++ t2)%list)
    /\ conversions t2
       = map (fun x => (Handlers.urlToConvert x, obj_get "category" x))
           (filter needs_conversion (results d))
    /\ requests t2 = [].
Proof.
  intros Hfull Hfetch Hdata Hin Hneed Hconv.
  assert (Hfull' : obj_get "withFullContent" (Handlers.with_html_forced args) = VBool true)
    by (rewrite obj_get_forced by discriminate; exact Hfull).
  destruct (settled_documents P _ Hfull' (results d) (h ++ t1)%list) as (outs & Hs & Hfail).
  destruct (Hfail doc e Hin Hneed Hconv) as [e' He'].
  assert (Hall : Promise_all (Handlers.document_with_text P (Handlers.with_html_forced args))
                   (results d) (h ++ t1)%list
                 = (Throw e',
                    map (fun x => EConvert (Handlers.urlToConvert x) (obj_get "category" x))
                      (filter needs_conversion (results d)))).
  { unfold Promise_all. rewrite (bind_ok _ _ _ _ _ Hs), He'.
    unfold prepend, throw. cbn [fst snd]. rewrite app_nil_r. reflexivity. }
  exists e'. eexists. split; [|split].
  - unfold Handlers.list_output. rewrite (bind_ok _ _ _ _ _ Hfetch), Hdata.
    rewrite (bind_throw _ _ _ _ _ Hall). reflexivity.
  - apply conversions_map.
  - apply requests_of_conversions.
Qed.

Lemma hydration_failure_aborts_listing_witness :
  exists t,
    Handlers.list_output MoreFixtures.unconvertible Fixtures.client 0
      [("withFullContent", VBool true)] []
    = (Throw (Error "conversion failed"), t)
    /\ conversions t
       = [(VStr "https://x/a", VUndef); (VStr "https://x/b", VUndef)].
Proof.
  pose (P := MoreFixtures.unconvertible).
  pose (args := [("withFullContent", VBool true)] : Params).
  pose (run := Handlers.fetch_response P Fixtures.client 0
                 (Handlers.with_html_forced args) []).
  destruct (hydration_failure_aborts_listing P Fixtures.client 0 args []
              {| data := Some (Fixtures.page 2 None
                                 [MoreFixtures.doc_url "a"; MoreFixtures.doc_url "b"]);
                 messages := None |}
              false (snd run) _ (MoreFixtures.doc_url "b") (Error "conversion failed")
              eq_refl eq_refl eq_refl (or_intror (or_introl eq_refl)) eq_refl
              (fun _ => eq_refl))
    as (e' & t2 & Hrun & Hconv & _).
  eexists. split; [reflexivity|]. reflexivity.
Defined.

(** ** The other handlers *)

Lemma data_prop_trace d k h : snd (data_prop d k h) = [].
Proof.
  unfold data_prop. destruct d as [v|]; [|reflexivity].
  destruct (js_prop v k); reflexivity.
Qed.

Lemma bind_silent {A B} (m : M A) (f : A -> M B) h :
  (forall a h', snd (f a h') = []) ->
  snd (bind m f h) = snd (m h).
Proof.
  intros Hf. unfold bind. destruct (m h) as [[a|e|] t]; try reflexivity.
  specialize (Hf a (h ++ t)%list). destruct (f a (h ++ t)%list) as [r t2].
  cbn [snd] in *. subst t2. apply app_nil_r.
Qed.

Section OtherHandlers.

Variable P : Platform.
Variable client : ReadwiseClient.
Variable JSON_stringify : obj JsVal -> string.

Lemma handleUpdateDocument_trace args h :
  snd (HandlerOps.handleUpdateDocument P client JSON_stringify args h)
  = snd (Client.makeRequest P client (json_any P)
           ("/update/" ++ js_String (obj_get "id" args) ++ "/")
           {| init_method := Some "PATCH"; init_headers := [];
              init_body := Some (JSON_stringify (obj_delete "id" args)) |} h).
Proof.
  unfold HandlerOps.handleUpdateDocument, ClientOps.updateDocument, HandlerOps.updateData.
  rewrite bind_silent.
  - apply bind_silent. reflexivity.
  - intros response h'. rewrite bind_silent.
    + apply data_prop_trace.
    + intros a h''. rewrite bind_silent; [apply data_prop_trace | reflexivity].
Qed.

Lemma handleDeleteDocument_trace args h :
  snd (HandlerOps.handleDeleteDocument P client args h)
  = snd (Client.makeRequest P client (json_any P)
           ("/delete/" ++ js_String (obj_get "id" args) ++ "/")
           {| init_method := Some "DELETE"; init_headers := []; init_body := None |} h).
Proof.
  unfold HandlerOps.handleDeleteDocument. cbv zeta.
  rewrite bind_silent by reflexivity.
  rewrite deleteDocument_run. reflexivity.
Qed.

End OtherHandlers.

(** X18.  [handleUpdateDocument] and [handleDeleteDocument] put the
    [id] of the arguments in the path of the request and nowhere else:
    the body of the update is the arguments without [id], the deletion
    has no body.  Neither checks that [id] is there: without it the
    request goes to [.../update/undefined/] or [.../delete/undefined/]. *)
Theorem handlers_put_id_in_path P client (JSON_stringify : obj JsVal -> string)
    (args : obj JsVal) h :
  let id := js_String (obj_get "id" args) in
  let updates := snd (HandlerOps.handleUpdateDocument P client JSON_stringify args h) in
  let deletes := snd (HandlerOps.handleDeleteDocument P client args h) in
  let sent := [("Authorization", "Token " ++ token client);
               ("Content-Type", "application/json")] in
  requests updates
  = repeat {| req_url := "https://readwise.io/api/v3/update/" ++ id ++ "/";
              req_method := Some "PATCH";
              req_headers := sent;
              req_body := Some (JSON_stringify (obj_delete "id" args)) |}
      (List.length (responses updates))
  /\ obj_has "id" (obj_delete "id" args) = false
  /\ requests deletes
     = repeat {| req_url := "https://readwise.io/api/v3/delete/" ++ id ++ "/";
                 req_method := Some "DELETE";
                 req_headers := sent;
                 req_body := None |}
         (List.length (responses deletes))
  /\ (obj_has "id" args = false -> id = "undefined").
Proof.
  cbv zeta. rewrite handleUpdateDocument_trace, handleDeleteDocument_trace.
  split; [|split; [|split]].
  - apply (requests_of_makeRequest P client JsVal (json_any P)).
  - apply obj_has_delete.
  - apply (requests_of_makeRequest P client JsVal (json_any P)).
  - intros H. unfold obj_get. rewrite obj_has_lookup in H.
    destruct (obj_lookup "id" args); [discriminate | reflexivity].
Qed.

Lemma handlers_put_id_in_path_witness :
  map req_url
    (requests (snd (HandlerOps.handleDeleteDocument MoreFixtures.saving Fixtures.client
                      [("title", VStr "no id")] [])))
  = ["https://readwise.io/api/v3/delete/undefined/"]
  /\ js_String (obj_get "id" [("title", VStr "no id")]) = "undefined".
Proof.
  destruct (handlers_put_id_in_path MoreFixtures.saving Fixtures.client
              MoreFixtures.stringify [("title", VStr "no id")] [])
    as (_ & _ & Hd & Hid).
  split; [rewrite Hd; reflexivity | exact (Hid eq_refl)].
Defined.

Lemma append_empty_r (s : string) : s ++ EmptyString = s.
Proof. induction s as [|c s IH]; [reflexivity|]. cbn. rewrite IH. reflexivity. Qed.

(** X19.  After [createDocument] has succeeded, [handleSaveDocument]
    fails with a [TypeError] when the answer was a 204, which has no
    document to read the [id] of; and for a document it returns the text
    of its [id], [title], [url] and [location], with ['Untitled'] for a
    title that is missing or empty, and with no section of messages. *)
Theorem handleSaveDocument_text P client (JSON_stringify : obj JsVal -> string)
    (args : obj JsVal) h response t :
  ClientOps.createDocument P client JSON_stringify args h = (Ok response, t) ->
  (data response = None ->
   HandlerOps.handleSaveDocument P client JSON_stringify args h
   = (Throw (Error "Cannot read properties of undefined (reading 'id')"), t))
  /\ (forall o,
         data response = Some (VObj o) ->
         HandlerOps.handleSaveDocument P client JSON_stringify args h
         = (Ok ("Document saved successfully!" ++ LF
                  ++ "ID: " ++ js_String (obj_get "id" o) ++ LF
                  ++ "Title: "
                  ++ (if truthy (obj_get "title" o) then js_String (obj_get "title" o)
                      else "Untitled") ++ LF
                  ++ "URL: " ++ js_String (obj_get "url" o) ++ LF
                  ++ "Location: " ++ js_String (obj_get "location" o)), t)).
Proof.
  intros Hcreate.
  assert (Hmsg : messages response = None).
  { unfold ClientOps.createDocument in Hcreate. apply bind_ok_inv in Hcreate.
    destruct Hcreate as (a & t1 & t2 & _ & H & _). injection H as <- _. reflexivity. }
  unfold HandlerOps.handleSaveDocument. rewrite (bind_ok _ _ _ _ _ Hcreate).
  split.
  - intros Hdata. rewrite Hdata. unfold data_prop at 1.
    unfold bind at 1, throw, prepend. cbn [fst snd]. rewrite app_nil_r. reflexivity.
  - intros o Hdata. rewrite Hdata, Hmsg. unfold data_prop, js_prop.
    rewrite !bind_ret. unfold ret, prepend, HandlerOps.or_untitled,
      response_messages_suffix. cbn [fst snd]. rewrite app_nil_r, append_empty_r.
    destruct (truthy (obj_get "title" o)); reflexivity.
Qed.

Lemma handleSaveDocument_text_witness :
  fst (HandlerOps.handleSaveDocument MoreFixtures.saving Fixtures.client
         MoreFixtures.stringify [("url", VStr "https://x/d1")] [])
  = Ok ("Document saved successfully!" ++ LF ++ "ID: d1" ++ LF
          ++ "Title: Untitled" ++ LF ++ "URL: https://read/d1" ++ LF
          ++ "Location: new").
Proof.
  pose (run := ClientOps.createDocument MoreFixtures.saving Fixtures.client
                 MoreFixtures.stringify [("url", VStr "https://x/d1")] []).
  rewrite (proj2 (handleSaveDocument_text MoreFixtures.saving Fixtures.client
                    MoreFixtures.stringify [("url", VStr "https://x/d1")] []
                    _ (snd run) eq_refl)
             [("id", VStr "d1"); ("url", VStr "https://read/d1");
              ("location", VStr "new")] eq_refl).
  reflexivity.
Defined.
